(** * The vector service core: HNSWIndex and VectorStorage

    A shallow embedding of [src/vector_service/src/hnsw_index.cpp] and
    [src/vector_service/src/vector_storage.cpp].

    - [size_t] and [key_t] are 64-bit unsigned integers, modelled in [N]
      with the wrap-around written out;
    - a [float] is its IEEE-754 binary32 bit pattern (an [N] below 2^32):
      the wrapper only copies floats and hands them to the graph
      primitive, it never computes with them;
    - [std::string] is [string] (a sequence of 8-bit characters);
    - [std::unordered_map] is a [gmap]; where the code iterates over one,
      the iteration order is a parameter;
    - a thrown [std::runtime_error] is the [Throw] outcome;
    - the graph primitive ([unum::usearch::index_dense_gt]) is a third
      party library: it is an interface ([USearch]) the development is
      parametric in. *)

From Stdlib Require Import ZArith NArith Ascii String Strings.Byte List Sorting.Sorted Lia.
From stdpp Require Import gmap strings list fin_maps sorting.

Local Open Scope N_scope.

(** ** Machine integers *)

Definition u64_modulus : N := 2 ^ 64.
Definition wrap64 (n : N) : N := n mod u64_modulus.
Definition u64_succ (n : N) : N := wrap64 (n + 1).
Definition u64_pred (n : N) : N := wrap64 (n + (u64_modulus - 1)).

(** [v.size()] of a [std::vector]. *)
Definition len {A : Type} (l : list A) : N := N.of_nat (length l).

(** ** Bytes, little-endian words *)

Definition byte_of_N (n : N) : byte :=
  match Byte.of_N (n mod 256) with
  | Some b => b
  | None => "000"%byte
  end.

(** [le_bytes w n]: the [w] low bytes of [n], least significant first
    (what [ofs.write(reinterpret_cast<const char*>(&n), w)] emits on a
    little-endian machine). *)
Fixpoint le_bytes (w : nat) (n : N) : list byte :=
  match w with
  | O => []
  | S w' => byte_of_N n :: le_bytes w' (n / 256)
  end.

(** The value of a little-endian byte sequence
    ([ifs.read(reinterpret_cast<char*>(&n), w)]). *)
Fixpoint le_value (bs : list byte) : N :=
  match bs with
  | [] => 0
  | b :: bs' => Byte.to_N b + 256 * le_value bs'
  end.

(** ** The order of binary32 scores

    [a <= b] on two floats given by their bit patterns: false when either
    is a NaN, the two zeros are equal, otherwise sign and magnitude. *)

Definition f32_sign (b : N) : bool := N.testbit b 31.
Definition f32_magnitude (b : N) : N := b mod 2 ^ 31.
Definition f32_is_nan (b : N) : bool := 0x7F800000 <? f32_magnitude b.
Definition f32_ord (b : N) : Z :=
  if f32_sign b then (- Z.of_N (f32_magnitude b))%Z else Z.of_N (f32_magnitude b).
Definition f32_le (a b : N) : bool :=
  negb (f32_is_nan a) && negb (f32_is_nan b) && (f32_ord a <=? f32_ord b)%Z.

Definition f32_zero : N := 0.
Definition f32_one : N := 0x3F800000.

(** ** Stream formatting: [operator<<] on integers *)

Definition hex_digit (d : N) : ascii :=
  nth (N.to_nat d)
    ["0"; "1"; "2"; "3"; "4"; "5"; "6"; "7"; "8"; "9"; "a"; "b"; "c"; "d"; "e"; "f"]%char
    "0"%char.

Fixpoint hex_digits (fuel : nat) (n : N) (acc : string) : string :=
  match fuel with
  | O => acc
  | S fuel' =>
      if n <? 16 then String (hex_digit n) acc
      else hex_digits fuel' (n / 16) (String (hex_digit (n mod 16)) acc)
  end.

(** A 64-bit value printed while the stream is in [std::hex] mode: lower
    case, no prefix, no leading zeros (16 digits at most). *)
Definition to_hex (n : N) : string := hex_digits 16 (wrap64 n) "".

Definition dec_digit (d : N) : ascii :=
  nth (N.to_nat d) ["0"; "1"; "2"; "3"; "4"; "5"; "6"; "7"; "8"; "9"]%char "0"%char.

Fixpoint dec_digits (fuel : nat) (n : N) (acc : string) : string :=
  match fuel with
  | O => acc
  | S fuel' =>
      if n <? 10 then String (dec_digit n) acc
      else dec_digits fuel' (n / 10) (String (dec_digit (n mod 10)) acc)
  end.

(** A 64-bit value printed in the default (decimal) mode: 20 digits at
    most. *)
Definition to_dec (n : N) : string := dec_digits 20 (wrap64 n) "".

(** ** Exceptions *)

Inductive exn : Type :=
  | runtime_error (what : string).

Inductive outcome (A : Type) : Type :=
  | Ok (a : A)
  | Throw (e : exn).
Arguments Ok {A} a.
Arguments Throw {A} e.

Definition is_ok {A : Type} (o : outcome A) : bool :=
  match o with
  | Ok _ => true
  | Throw _ => false
  end.

(** ** Data model (hnsw_index.hpp) *)

Inductive DistanceMetric : Type := Euclidean | Cosine | DotProduct.

Record HNSWConfig : Type := {
  M : N;
  ef_construction : N;
  ef_search : N;
  max_elements : N;
  metric : DistanceMetric
}.

Definition default_HNSWConfig : HNSWConfig :=
  {| M := 16; ef_construction := 200; ef_search := 50;
     max_elements := 1000000; metric := Cosine |}.

Definition key_t : Type := N.
Definition float : Type := N.

Record VectorData : Type := {
  vd_id : string;
  vd_values : list float;
  vd_metadata : gmap string string
}.

(** [r_data] is the pointer [&data_it->second]: it designates the payload
    entry stored under that internal key. *)
Record HNSWResult : Type := {
  r_id : string;
  r_distance : float;
  r_data : key_t
}.

(** ** The graph primitive

    [unum::usearch::index_dense_gt<>], as far as the wrapper uses it.  A
    call whose result object the wrapper leaves unexamined either returns
    (the primitive after the call) or raises, leaving the primitive as it
    was; [us_search] is indexed and measured directly by the wrapper.
    [us_make] is [None] when the result of [make] tests false.
    [us_save] yields the content of the primitive's own file and
    [us_load] takes it ([None] for a missing file).
    [us_change_expansion_search] is part of the primitive's interface;
    the wrapper never calls it. *)

Inductive metric_kind_t : Type := l2sq_k | ip_k | cos_k.

Record index_dense_config_t : Type := {
  connectivity : N;
  expansion_add : N;
  expansion_search : N
}.

Class USearch : Type := {
  index_t : Type;
  us_make : N -> metric_kind_t -> index_dense_config_t -> option index_t;
  us_reserve : N -> index_t -> index_t;
  us_add : key_t -> list float -> index_t -> outcome index_t;
  us_remove : key_t -> index_t -> outcome index_t;
  us_search : index_t -> list float -> N -> list (key_t * float);
  us_change_expansion_search : N -> index_t -> index_t;
  us_save : index_t -> outcome (list byte);
  us_load : option (list byte) -> index_t -> outcome index_t
}.

(** ** Files and streams *)

(** The files by the path string they were opened with, and whether a
    path can be opened for writing.  Two strings that the system resolves
    to one file (a doubled slash, a string cut at a NUL) are two entries
    here: the model is that of the program's files only while the paths
    it builds are in one form, which [plain_name] below gives for the
    paths of collections. *)
Record filesystem : Type := {
  fs_files : gmap string (list byte);
  fs_can_write : string -> bool
}.

Definition fs_put (path : string) (content : list byte) (fs : filesystem) : filesystem :=
  {| fs_files := <[path := content]> (fs_files fs); fs_can_write := fs_can_write fs |}.

(** [ofs.write(p, n)] appends to the output stream. *)
Definition ofs_write (bs : list byte) (ofs : list byte) : list byte := ofs ++ bs.

(** [ifs.read(p, n)]: the next [n] bytes and the rest of the stream;
    [None] when fewer than [n] bytes are left (the source then goes on
    with a partly filled buffer, which this model does not follow). *)
Definition ifs_read (n : nat) (ifs : list byte) : option (list byte * list byte) :=
  if decide (n <= length ifs)%nat then Some (take n ifs, drop n ifs) else None.

Definition read_u64 (ifs : list byte) : option (N * list byte) :=
  '(bs, ifs) ← ifs_read 8 ifs; Some (le_value bs, ifs).

Definition read_string (n : N) (ifs : list byte) : option (string * list byte) :=
  '(bs, ifs) ← ifs_read (N.to_nat n) ifs; Some (string_of_list_byte bs, ifs).

(** [n] floats out of [4 * n] bytes. *)
Fixpoint floats_of_bytes (n : nat) (bs : list byte) : list float :=
  match n with
  | O => []
  | S n' => le_value (take 4 bs) :: floats_of_bytes n' (drop 4 bs)
  end.

Definition bytes_of_floats (vs : list float) : list byte :=
  concat (map (le_bytes 4) vs).

Definition str_size (s : string) : N := N.of_nat (String.length s).

(** ** HNSWIndex (hnsw_index.cpp) *)

Module HNSWIndex.

Record t `{USearch} : Type := {
  dimension_ : N;
  config_ : HNSWConfig;
  num_elements_ : N;
  next_key_ : key_t;
  index_ : index_t;
  data_ : gmap key_t VectorData;
  id_to_key_ : gmap string key_t
}.

Section Operations.
Context `{USearch}.

(** The iteration orders of the two [std::unordered_map]s that [save]
    walks. *)
Variable data_order : gmap key_t VectorData -> list (key_t * VectorData).
Variable meta_order : gmap string string -> list (string * string).

Definition metric_kind_of (m : DistanceMetric) : metric_kind_t :=
  match m with
  | Euclidean => l2sq_k
  | DotProduct => ip_k
  | Cosine => cos_k
  end.

Definition index_config_of (config : HNSWConfig) : index_dense_config_t :=
  {| connectivity := M config;
     expansion_add := ef_construction config;
     expansion_search := ef_search config |}.

(** [HNSWIndex::HNSWIndex] *)
Definition create (dimension : N) (config : HNSWConfig) : outcome t :=
  match us_make dimension (metric_kind_of (metric config)) (index_config_of config) with
  | None => Throw (runtime_error "Failed to create USearch index")
  | Some index =>
      Ok {| dimension_ := dimension;
            config_ := config;
            num_elements_ := 0;
            next_key_ := 1;
            index_ := us_reserve (max_elements config) index;
            data_ := ∅;
            id_to_key_ := ∅ |}
  end.

Definition size (s : t) : N := num_elements_ s.
Definition dimension (s : t) : N := dimension_ s.

(** [HNSWIndex::generate_id]; [now] is the clock reading in microseconds
    since the epoch (a signed 64-bit count).  [std::hex] stays in force
    for everything written to the stream after it. *)
Definition generate_id (now : Z) (s : t) : string :=
  to_hex (Z.to_N (now mod 2 ^ 64)) +:+ "-" +:+ to_hex (next_key_ s).

(** [HNSWIndex::insert]: the state after the call and what the call
    returned or threw. *)
Definition insert (now : Z) (vector : list float) (id : string)
    (metadata : gmap string string) (s : t) : t * outcome string :=
  if negb (len vector =? dimension_ s) then
    (s, Throw (runtime_error "Vector dimension mismatch"))
  else
    let actual_id := if String.eqb id "" then generate_id now s else id in
    if decide (is_Some (id_to_key_ s !! actual_id)) then
      (s, Throw (runtime_error ("ID already exists: " +:+ actual_id)))
    else
      let key := next_key_ s in
      let next := u64_succ (next_key_ s) in
      match us_add key vector (index_ s) with
      | Throw e =>
          ({| dimension_ := dimension_ s; config_ := config_ s;
              num_elements_ := num_elements_ s; next_key_ := next;
              index_ := index_ s; data_ := data_ s;
              id_to_key_ := id_to_key_ s |}, Throw e)
      | Ok index =>
          let data := {| vd_id := actual_id; vd_values := vector;
                         vd_metadata := metadata |} in
          ({| dimension_ := dimension_ s; config_ := config_ s;
              num_elements_ := u64_succ (num_elements_ s); next_key_ := next;
              index_ := index;
              data_ := <[key := data]> (data_ s);
              id_to_key_ := <[actual_id := key]> (id_to_key_ s) |},
           Ok actual_id)
      end.

(** [HNSWIndex::batch_insert]; [clock i] is the clock reading during the
    [i]-th iteration of the loop. *)
Fixpoint batch_insert_from (clock : nat -> Z) (i : nat) (vectors : list VectorData)
    (count : N) (s : t) : t * N :=
  match vectors with
  | [] => (s, count)
  | v :: vectors' =>
      match insert (clock i) (vd_values v) (vd_id v) (vd_metadata v) s with
      | (s', Ok _) => batch_insert_from clock (S i) vectors' (u64_succ count) s'
      | (s', Throw _) => batch_insert_from clock (S i) vectors' count s'
      end
  end.

Definition batch_insert (clock : nat -> Z) (vectors : list VectorData) (s : t) : t * N :=
  batch_insert_from clock 0 vectors 0 s.

(** [HNSWIndex::remove] *)
Definition remove (id : string) (s : t) : t * outcome bool :=
  match id_to_key_ s !! id with
  | None => (s, Ok false)
  | Some key =>
      match us_remove key (index_ s) with
      | Throw e => (s, Throw e)
      | Ok index =>
          ({| dimension_ := dimension_ s; config_ := config_ s;
              num_elements_ := u64_pred (num_elements_ s);
              next_key_ := next_key_ s;
              index_ := index;
              data_ := delete key (data_ s);
              id_to_key_ := delete id (id_to_key_ s) |}, Ok true)
      end
  end.

(** The loop of [search] over the primitive's results: a hit whose key
    has no payload entry is dropped. *)
Definition result_of (s : t) (hit : key_t * float) : option HNSWResult :=
  match data_ s !! hit.1 with
  | Some d => Some {| r_id := vd_id d; r_distance := hit.2; r_data := hit.1 |}
  | None => None
  end.

(** [HNSWIndex::search] *)
Definition search (query : list float) (k : N) (ef : N) (s : t) : outcome (list HNSWResult) :=
  if negb (len query =? dimension_ s) then
    Throw (runtime_error "Query dimension mismatch")
  else if num_elements_ s =? 0 then Ok []
  else
    let actual_k := N.min k (num_elements_ s) in
    let results := us_search (index_ s) query actual_k in
    Ok (omap (result_of s) results).

(** [HNSWIndex::get]: the record the returned pointer designates, [None]
    for [nullptr]. *)
Definition get (id : string) (s : t) : option VectorData :=
  match id_to_key_ s !! id with
  | None => None
  | Some key => data_ s !! key
  end.

(** *** batch_search *)

Section BatchSearch.
Variables (queries : list (list float)) (k ef : N) (s : t).

(** The body of one worker task:
    [for (i = start_idx; i < end_idx; ++i) results[i] = search(queries[i], k, ef)].
    It yields the writes it made to [results], in order, and whether it
    ran to its end or stored an exception in its future.  [count] is
    [end_idx - i]; every [i] it is called with is below [queries.size()]. *)
Fixpoint worker (i count : nat) : list (nat * list HNSWResult) * outcome unit :=
  match count with
  | O => ([], Ok tt)
  | S count' =>
      match queries !! i with
      | None => ([], Ok tt)
      | Some q =>
          match search q k ef s with
          | Throw e => ([], Throw e)
          | Ok r => let '(ws, o) := worker (S i) count' in ((i, r) :: ws, o)
          end
      end
  end.

(** The loop that launches the tasks: the index ranges of the tasks
    [t, t+1, ...], [remaining] being [num_threads - t]. *)
Fixpoint spawn (num_queries chunk_size : N) (t : N) (remaining : nat) : list (N * N) :=
  match remaining with
  | O => []
  | S remaining' =>
      let start_idx := t * chunk_size in
      let end_idx := N.min (start_idx + chunk_size) num_queries in
      if num_queries <=? start_idx then []
      else (start_idx, end_idx) :: spawn num_queries chunk_size (t + 1) remaining'
  end.

(** [f.get()] over the futures in order: the first stored exception is
    rethrown. *)
Fixpoint join (futures : list (outcome unit)) : outcome unit :=
  match futures with
  | [] => Ok tt
  | Ok _ :: futures' => join futures'
  | Throw e :: _ => Throw e
  end.

Definition store (results : list (list HNSWResult)) (w : nat * list HNSWResult) :
    list (list HNSWResult) :=
  <[w.1 := w.2]> results.

(** The sequential loop:
    [for (const auto& q : queries) results.push_back(search(q, k, ef))]. *)
Fixpoint sequential (qs : list (list float)) (results : list (list HNSWResult)) :
    outcome (list (list HNSWResult)) :=
  match qs with
  | [] => Ok results
  | q :: qs' =>
      match search q k ef s with
      | Ok r => sequential qs' (results ++ [r])
      | Throw e => Throw e
      end
  end.

End BatchSearch.

(** [HNSWIndex::batch_search].  [hardware_concurrency] is what
    [std::thread::hardware_concurrency()] reports; [interleave] is the
    order in which the writes of the concurrent tasks reach [results].
    The result is [None] where the source divides by zero. *)
Definition batch_search (hardware_concurrency : N)
    (interleave : list (list (nat * list HNSWResult)) -> list (nat * list HNSWResult))
    (queries : list (list float)) (k ef : N) (s : t) :
    option (outcome (list (list HNSWResult))) :=
  let num_queries := len queries in
  if num_queries <=? 100 then Some (sequential k ef s queries [])
  else
    let results := replicate (N.to_nat num_queries) ([] : list HNSWResult) in
    let num_threads := N.min hardware_concurrency (N.max 1 (num_queries / 100)) in
    let num_threads := N.min num_threads 32 in
    if num_threads =? 0 then None
    else
      let chunk_size := (num_queries + num_threads - 1) / num_threads in
      let tasks :=
        map (fun r : N * N => worker queries k ef s (N.to_nat r.1) (N.to_nat (r.2 - r.1)))
            (spawn num_queries chunk_size 0 (N.to_nat num_threads)) in
      let results := foldl store results (interleave (map fst tasks)) in
      Some (match join (map snd tasks) with
            | Ok _ => Ok results
            | Throw e => Throw e
            end).

(** *** save and load *)

Definition save_meta_pair (ofs : list byte) (kv : string * string) : list byte :=
  let k_len := str_size kv.1 in
  let v_len := str_size kv.2 in
  let ofs := ofs_write (le_bytes 8 k_len) ofs in
  let ofs := ofs_write (list_byte_of_string kv.1) ofs in
  let ofs := ofs_write (le_bytes 8 v_len) ofs in
  ofs_write (list_byte_of_string kv.2) ofs.

Definition save_record (ofs : list byte) (entry : key_t * VectorData) : list byte :=
  let key := entry.1 in
  let data := entry.2 in
  let ofs := ofs_write (le_bytes 8 key) ofs in
  let id_len := str_size (vd_id data) in
  let ofs := ofs_write (le_bytes 8 id_len) ofs in
  let ofs := ofs_write (list_byte_of_string (vd_id data)) ofs in
  let vec_size := len (vd_values data) in
  let ofs := ofs_write (le_bytes 8 vec_size) ofs in
  let ofs := ofs_write (take (N.to_nat (wrap64 (vec_size * 4)))
                             (bytes_of_floats (vd_values data))) ofs in
  let meta_size := N.of_nat (base.size (vd_metadata data)) in
  let ofs := ofs_write (le_bytes 8 meta_size) ofs in
  foldl save_meta_pair ofs (meta_order (vd_metadata data)).

(** [HNSWIndex::save]: the file system after the call and the returned
    flag.  The primitive writes its own file at [path]; an exception out
    of it is caught. *)
Definition save (path : string) (s : t) (fs : filesystem) : filesystem * bool :=
  match us_save (index_ s) with
  | Throw _ => (fs, false)
  | Ok graph =>
      let fs := fs_put path graph fs in
      let meta_path := path +:+ ".meta" in
      if negb (fs_can_write fs meta_path) then (fs, false)
      else
        let ofs := [] in
        let num := N.of_nat (base.size (data_ s)) in
        let ofs := ofs_write (le_bytes 8 num) ofs in
        let ofs := ofs_write (le_bytes 8 (next_key_ s)) ofs in
        let ofs := foldl save_record ofs (data_order (data_ s)) in
        (fs_put meta_path ofs fs, true)
  end.

Fixpoint load_metadata (n : nat) (ifs : list byte) (metadata : gmap string string) :
    option (gmap string string * list byte) :=
  match n with
  | O => Some (metadata, ifs)
  | S n' =>
      '(k_len, ifs) ← read_u64 ifs;
      '(k, ifs) ← read_string k_len ifs;
      '(v_len, ifs) ← read_u64 ifs;
      '(v, ifs) ← read_string v_len ifs;
      load_metadata n' ifs (<[k := v]> metadata)
  end.

Fixpoint load_records (n : nat) (ifs : list byte)
    (data : gmap key_t VectorData) (ids : gmap string key_t) :
    option (gmap key_t VectorData * gmap string key_t * list byte) :=
  match n with
  | O => Some (data, ids, ifs)
  | S n' =>
      '(key, ifs) ← read_u64 ifs;
      '(id_len, ifs) ← read_u64 ifs;
      '(id, ifs) ← read_string id_len ifs;
      '(vec_size, ifs) ← read_u64 ifs;
      '(bs, ifs) ← ifs_read (N.to_nat (wrap64 (vec_size * 4))) ifs;
      '(meta_size, ifs) ← read_u64 ifs;
      '(metadata, ifs) ← load_metadata (N.to_nat meta_size) ifs ∅;
      let d := {| vd_id := id;
                  vd_values := floats_of_bytes (N.to_nat vec_size) bs;
                  vd_metadata := metadata |} in
      load_records n' ifs (<[key := d]> data) (<[id := key]> ids)
  end.

(** [HNSWIndex::load]: the index after the call and the returned flag;
    [None] when the sidecar ends before the data the loop asks for. *)
Definition load (path : string) (fs : filesystem) (s : t) : option (t * bool) :=
  match us_load (fs_files fs !! path) (index_ s) with
  | Throw _ => Some (s, false)
  | Ok index =>
      let meta_path := path +:+ ".meta" in
      match fs_files fs !! meta_path with
      | None =>
          Some ({| dimension_ := dimension_ s; config_ := config_ s;
                   num_elements_ := num_elements_ s; next_key_ := next_key_ s;
                   index_ := index; data_ := data_ s;
                   id_to_key_ := id_to_key_ s |}, false)
      | Some ifs =>
          '(num, ifs) ← read_u64 ifs;
          '(next_key, ifs) ← read_u64 ifs;
          '(data, ids, _) ← load_records (N.to_nat num) ifs ∅ ∅;
          Some ({| dimension_ := dimension_ s; config_ := config_ s;
                   num_elements_ := N.of_nat (base.size data); next_key_ := next_key;
                   index_ := index; data_ := data; id_to_key_ := ids |}, true)
      end
  end.

End Operations.
End HNSWIndex.

(** ** Text: [std::string::find], [substr], [std::stoi]

    What the storage layer uses to write and read its configuration
    files. *)

(** Exceptions of the standard library that the storage layer lets
    escape, beside the [std::runtime_error]s of the index. *)
Inductive std_exception : Type :=
  | std_runtime_error (e : exn)
  | std_invalid_argument
  | std_out_of_range.

Inductive result (A : Type) : Type :=
  | Returns (a : A)
  | Raises (e : std_exception).
Arguments Returns {A} a.
Arguments Raises {A} e.

Module StdString.

Definition quote : ascii := "034"%char.
Definition newline : ascii := "010"%char.

(** The characters of [s] from position [n] on. *)
Fixpoint from (n : nat) (s : string) : string :=
  match n, s with
  | O, _ => s
  | S n', String _ s' => from n' s'
  | S _, EmptyString => EmptyString
  end.

(** [find_from pat s pos]: [s] is the text from position [pos] on. *)
Fixpoint find_from (pat s : string) (pos : N) : option N :=
  if String.prefix pat s then Some pos
  else
    match s with
    | EmptyString => None
    | String _ s' => find_from pat s' (pos + 1)
    end.

(** [s.find(pat, pos)]; [None] is [npos]. *)
Definition find (pat s : string) (pos : N) : option N :=
  if str_size s <? pos then None else find_from pat (from (N.to_nat pos) s) pos.

(** [s.substr(pos)] *)
Definition substr (s : string) (pos : N) : result string :=
  if str_size s <? pos then Raises std_out_of_range
  else Returns (from (N.to_nat pos) s).

(** [isspace] in the C locale. *)
Definition is_space (c : ascii) : bool :=
  let n := N_of_ascii c in (n =? 32) || ((9 <=? n) && (n <=? 13)).

Definition is_digit (c : ascii) : bool :=
  let n := N_of_ascii c in (48 <=? n) && (n <=? 57).

Fixpoint skip_spaces (s : string) : string :=
  match s with
  | String c s' => if is_space c then skip_spaces s' else s
  | EmptyString => s
  end.

(** The value of the longest run of decimal digits [s] starts with. *)
Fixpoint digits_value (s : string) (acc : N) : N :=
  match s with
  | String c s' =>
      if is_digit c then digits_value s' (10 * acc + (N_of_ascii c - 48)) else acc
  | EmptyString => acc
  end.

(** An optional sign: whether it is a minus, and the text after it. *)
Definition strip_sign (s : string) : bool * string :=
  match s with
  | String c s' =>
      if Ascii.eqb c "-" then (true, s')
      else if Ascii.eqb c "+" then (false, s')
      else (false, s)
  | EmptyString => (false, s)
  end.

(** [std::stoi(s)]: leading white space, an optional sign, decimal
    digits; [invalid_argument] without a digit, [out_of_range] for a
    value that is no [int]. *)
Definition stoi (s : string) : result Z :=
  let '(negative, s) := strip_sign (skip_spaces s) in
  match s with
  | EmptyString => Raises std_invalid_argument
  | String c _ =>
      if is_digit c then
        let v := Z.of_N (digits_value s 0) in
        let v := if negative then (- v)%Z else v in
        if ((- 2 ^ 31 <=? v) && (v <? 2 ^ 31))%Z then Returns v
        else Raises std_out_of_range
      else Raises std_invalid_argument
  end.

End StdString.

(** An [int] converted to [size_t]. *)
Definition size_t_of_int (z : Z) : N := Z.to_N (z mod 2 ^ 64).

(** [fs::remove(path)]: the file is gone afterwards; a missing file is
    no error. *)
Definition fs_remove (path : string) (fs : filesystem) : filesystem :=
  {| fs_files := delete path (fs_files fs); fs_can_write := fs_can_write fs |}.

(** ** VectorStorage (vector_storage.cpp) *)

Record CollectionConfig : Type := {
  cc_name : string;
  cc_dimension : N;
  cc_metric : DistanceMetric;
  hnsw_config : HNSWConfig
}.

(** [CollectionStats] (vector_storage.hpp) *)
Record CollectionStats : Type := {
  vector_count : N;
  cs_memory_usage : N;
  cs_dimension : N;
  cs_metric : string
}.

Module VectorStorage.

Record t `{USearch} : Type := {
  data_dir_ : string;
  collections_ : gmap string HNSWIndex.t;
  configs_ : gmap string CollectionConfig
}.

Section Operations.
Context `{USearch}.

Definition collection_path (st : t) (name : string) : string :=
  data_dir_ st +:+ "/" +:+ name +:+ ".hnsw".

Definition config_path (st : t) (name : string) : string :=
  data_dir_ st +:+ "/" +:+ name +:+ ".json".

Definition with_collection (name : string) (index : HNSWIndex.t) (st : t) : t :=
  {| data_dir_ := data_dir_ st;
     collections_ := <[name := index]> (collections_ st);
     configs_ := configs_ st |}.

Definition not_found (collection : string) : exn :=
  runtime_error ("Collection not found: " +:+ collection).

Definition collection_exists (name : string) (st : t) : bool :=
  bool_decide (is_Some (collections_ st !! name)).

(** [VectorStorage::insert] *)
Definition insert (now : Z) (collection : string) (vector : list float) (id : string)
    (metadata : gmap string string) (st : t) : t * outcome string :=
  match collections_ st !! collection with
  | None => (st, Throw (not_found collection))
  | Some index =>
      let '(index', r) := HNSWIndex.insert now vector id metadata index in
      (with_collection collection index' st, r)
  end.

(** [VectorStorage::batch_insert] *)
Definition batch_insert (clock : nat -> Z) (collection : string)
    (vectors : list VectorData) (st : t) : t * outcome N :=
  match collections_ st !! collection with
  | None => (st, Throw (not_found collection))
  | Some index =>
      let '(index', count) := HNSWIndex.batch_insert clock vectors index in
      (with_collection collection index' st, Ok count)
  end.

(** [VectorStorage::remove] *)
Definition remove (collection : string) (id : string) (st : t) : t * outcome bool :=
  match collections_ st !! collection with
  | None => (st, Ok false)
  | Some index =>
      let '(index', r) := HNSWIndex.remove id index in
      (with_collection collection index' st, r)
  end.

(** [VectorStorage::search] *)
Definition search (collection : string) (query : list float) (k ef : N) (st : t) :
    outcome (list HNSWResult) :=
  match collections_ st !! collection with
  | None => Throw (not_found collection)
  | Some index => HNSWIndex.search query k ef index
  end.

(** [VectorStorage::batch_search] *)
Definition batch_search (hardware_concurrency : N)
    (interleave : list (list (nat * list HNSWResult)) -> list (nat * list HNSWResult))
    (collection : string) (queries : list (list float)) (k ef : N) (st : t) :
    option (outcome (list (list HNSWResult))) :=
  match collections_ st !! collection with
  | None => Some (Throw (not_found collection))
  | Some index => HNSWIndex.batch_search hardware_concurrency interleave queries k ef index
  end.

(** [VectorStorage::get] *)
Definition get (collection : string) (id : string) (st : t) : option VectorData :=
  match collections_ st !! collection with
  | None => None
  | Some index => HNSWIndex.get id index
  end.

End Operations.

(** *** Collections: creation, deletion, statistics, persistence *)

Section Lifecycle.
Context `{USearch}.

(** The iteration orders of the maps that [save] and [save_all] walk,
    and [HNSWIndex::memory_usage], which depends on the capacities the
    allocator chose. *)
Variable data_order : gmap key_t VectorData -> list (key_t * VectorData).
Variable meta_order : gmap string string -> list (string * string).
Variable collections_order : gmap string HNSWIndex.t -> list (string * HNSWIndex.t).
Variable memory_usage : HNSWIndex.t -> N.

(** [static_cast<int>(metric)] and [static_cast<DistanceMetric>(n)];
    the cast of a number that is no enumerator is [None]. *)
Definition int_of_metric (m : DistanceMetric) : N :=
  match m with
  | Euclidean => 0
  | Cosine => 1
  | DotProduct => 2
  end.

Definition metric_of_int (n : Z) : option DistanceMetric :=
  match n with
  | 0%Z => Some Euclidean
  | 1%Z => Some Cosine
  | 2%Z => Some DotProduct
  | _ => None
  end.

(** What [save_config] writes. *)
Definition config_text (config : CollectionConfig) : string :=
  let q := String StdString.quote "" in
  let nl := String StdString.newline "" in
  "{" +:+ nl +:+
  "  " +:+ q +:+ "name" +:+ q +:+ ": " +:+ q +:+ cc_name config +:+ q +:+ "," +:+ nl +:+
  "  " +:+ q +:+ "dimension" +:+ q +:+ ": " +:+ to_dec (cc_dimension config) +:+ "," +:+ nl +:+
  "  " +:+ q +:+ "metric" +:+ q +:+ ": " +:+ to_dec (int_of_metric (cc_metric config))
        +:+ "," +:+ nl +:+
  "  " +:+ q +:+ "M" +:+ q +:+ ": " +:+ to_dec (M (hnsw_config config)) +:+ "," +:+ nl +:+
  "  " +:+ q +:+ "ef_construction" +:+ q +:+ ": "
        +:+ to_dec (ef_construction (hnsw_config config)) +:+ "," +:+ nl +:+
  "  " +:+ q +:+ "ef_search" +:+ q +:+ ": " +:+ to_dec (ef_search (hnsw_config config))
        +:+ nl +:+
  "}" +:+ nl.

(** [VectorStorage::save_config]: the file system after the call and
    the returned flag; a stream that could be opened stays good. *)
Definition save_config (name : string) (st : t) (fs : filesystem) : filesystem * bool :=
  match configs_ st !! name with
  | None => (fs, false)
  | Some config =>
      let path := config_path st name in
      if negb (fs_can_write fs path) then (fs, false)
      else (fs_put path (list_byte_of_string (config_text config)) fs, true)
  end.

(** [VectorStorage::create_collection] *)
Definition create_collection (config : CollectionConfig) (st : t) (fs : filesystem) :
    t * filesystem * outcome bool :=
  if bool_decide (is_Some (collections_ st !! cc_name config)) then (st, fs, Ok false)
  else
    match HNSWIndex.create (cc_dimension config) (hnsw_config config) with
    | Throw e => (st, fs, Throw e)
    | Ok index =>
        let st := {| data_dir_ := data_dir_ st;
                     collections_ := <[cc_name config := index]> (collections_ st);
                     configs_ := <[cc_name config := config]> (configs_ st) |} in
        (st, (save_config (cc_name config) st fs).1, Ok true)
    end.

(** [VectorStorage::delete_collection] *)
Definition delete_collection (name : string) (st : t) (fs : filesystem) :
    t * filesystem * bool :=
  match collections_ st !! name with
  | None => (st, fs, false)
  | Some _ =>
      let fs := fs_remove (collection_path st name) fs in
      let fs := fs_remove (config_path st name) fs in
      ({| data_dir_ := data_dir_ st;
          collections_ := delete name (collections_ st);
          configs_ := delete name (configs_ st) |}, fs, true)
  end.

(** [VectorStorage::list_collections] *)
Definition list_collections (st : t) : list string :=
  map fst (collections_order (collections_ st)).

Definition metric_str (m : DistanceMetric) : string :=
  match m with
  | Euclidean => "euclidean"
  | Cosine => "cosine"
  | DotProduct => "dot_product"
  end.

(** [VectorStorage::get_stats]; [configs_.at(name)] throws for a name
    without configuration. *)
Definition get_stats (name : string) (st : t) : result (option CollectionStats) :=
  match collections_ st !! name with
  | None => Returns None
  | Some index =>
      match configs_ st !! name with
      | None => Raises std_out_of_range
      | Some config =>
          Returns (Some {| vector_count := HNSWIndex.size index;
                           cs_memory_usage := memory_usage index;
                           cs_dimension := HNSWIndex.dimension index;
                           cs_metric := metric_str (cc_metric config) |})
      end
  end.

(** The lambda [extract_int] of [load_config]. *)
Definition extract_int (content key : string) : result Z :=
  let q := String StdString.quote "" in
  match StdString.find (q +:+ key +:+ q +:+ ":") content 0 with
  | None => Returns 0%Z
  | Some pos =>
      let pos := match StdString.find ":" content pos with
                 | Some colon => wrap64 (colon + 1)
                 | None => 0
                 end in
      match StdString.substr content pos with
      | Raises e => Raises e
      | Returns tail => StdString.stoi tail
      end
  end.

(** [VectorStorage::load_config]; [None] when the stored metric is no
    enumerator. *)
Definition load_config (name : string) (st : t) (fs : filesystem) :
    option (result (t * bool)) :=
  match fs_files fs !! config_path st name with
  | None => Some (Returns (st, false))
  | Some bytes =>
      let content := string_of_list_byte bytes in
      match extract_int content "dimension" with
      | Raises e => Some (Raises e)
      | Returns dimension =>
      match extract_int content "metric" with
      | Raises e => Some (Raises e)
      | Returns metric_int =>
      match metric_of_int metric_int with
      | None => None
      | Some metric =>
      match extract_int content "M" with
      | Raises e => Some (Raises e)
      | Returns m =>
      match extract_int content "ef_construction" with
      | Raises e => Some (Raises e)
      | Returns efc =>
      match extract_int content "ef_search" with
      | Raises e => Some (Raises e)
      | Returns efs =>
          let config :=
            {| cc_name := name;
               cc_dimension := size_t_of_int dimension;
               cc_metric := metric;
               hnsw_config :=
                 {| M := size_t_of_int m;
                    ef_construction := size_t_of_int efc;
                    ef_search := size_t_of_int efs;
                    max_elements := max_elements default_HNSWConfig;
                    metric := metric |} |} in
          Some (Returns ({| data_dir_ := data_dir_ st;
                            collections_ := collections_ st;
                            configs_ := <[name := config]> (configs_ st) |}, true))
      end end end end end end
  end.

(** [VectorStorage::save_collection] *)
Definition save_collection (name : string) (st : t) (fs : filesystem) : filesystem * bool :=
  match collections_ st !! name with
  | None => (fs, false)
  | Some index => HNSWIndex.save data_order meta_order (collection_path st name) index fs
  end.

(** A value-initialized [CollectionConfig], which [configs_[name]]
    inserts for a name the map does not have. *)
Definition default_CollectionConfig : CollectionConfig :=
  {| cc_name := ""; cc_dimension := 0; cc_metric := Cosine;
     hnsw_config := default_HNSWConfig |}.

(** [VectorStorage::load_collection]; [None] where [load_config] or
    [HNSWIndex::load] is. *)
Definition load_collection (name : string) (st : t) (fs : filesystem) :
    option (result (t * bool)) :=
  match load_config name st fs with
  | None => None
  | Some (Raises e) => Some (Raises e)
  | Some (Returns (st, false)) => Some (Returns (st, false))
  | Some (Returns (st, true)) =>
      let '(config, st) :=
        match configs_ st !! name with
        | Some config => (config, st)
        | None =>
            (default_CollectionConfig,
             {| data_dir_ := data_dir_ st;
                collections_ := collections_ st;
                configs_ := <[name := default_CollectionConfig]> (configs_ st) |})
        end in
      match HNSWIndex.create (cc_dimension config) (hnsw_config config) with
      | Throw e => Some (Raises (std_runtime_error e))
      | Ok index =>
          match HNSWIndex.load (collection_path st name) fs index with
          | None => None
          | Some (_, false) => Some (Returns (st, false))
          | Some (index, true) => Some (Returns (with_collection name index st, true))
          end
      end
  end.

(** [VectorStorage::save_all] *)
Definition save_all (st : t) (fs : filesystem) : filesystem * bool :=
  foldl (fun (acc : filesystem * bool) (name : string) =>
           let '(fs, a) := save_collection name st acc.1 in
           let '(fs, b) := save_config name st fs in
           (fs, acc.2 && a && b))
        (fs, true) (map fst (collections_order (collections_ st))).

End Lifecycle.

End VectorStorage.

(** ** Collection names of the HTTP layer (http_server.cpp) *)

Module HTTPServer.

(** [make_collection_name]: the collection that holds a namespace of a
    tenant. *)
Definition make_collection_name (tenant_id ns : string) : string :=
  tenant_id +:+ "__" +:+ ns.

End HTTPServer.

(** ** What the specification says, where it is compared with the code *)

Module Spec.
Section Spec.
Context `{USearch}.

(** Section 4.2.2: [hex(microseconds-since-epoch) "-" decimal(next_internal_key)]. *)
Definition generate_id (now : Z) (s : HNSWIndex.t) : string :=
  to_hex (Z.to_N (now mod 2 ^ 64)) +:+ "-" +:+ to_dec (HNSWIndex.next_key_ s).

(** Section 4.2.4: [effective ef = max(ef_override, ef_search, k)]. *)
Definition effective_ef (ef_override : N) (ef_search : N) (k : N) : N :=
  N.max ef_override (N.max ef_search k).

(** The search of section 4.2.4: the search of the code, run with the
    candidate list sized to the effective [ef]. *)
Definition search (query : list float) (k : N) (ef : N) (s : HNSWIndex.t) :
    outcome (list HNSWResult) :=
  if negb (len query =? HNSWIndex.dimension_ s) then
    Throw (runtime_error "Query dimension mismatch")
  else if HNSWIndex.num_elements_ s =? 0 then Ok []
  else
    let actual_k := N.min k (HNSWIndex.num_elements_ s) in
    let e := effective_ef ef (ef_search (HNSWIndex.config_ s)) k in
    Ok (omap (HNSWIndex.result_of s)
             (us_search (us_change_expansion_search e (HNSWIndex.index_ s)) query actual_k)).

(** Section 4.4, the payload sidecar. *)
Definition pair_layout (kv : string * string) : list byte :=
  le_bytes 8 (str_size kv.1) ++ list_byte_of_string kv.1 ++
  le_bytes 8 (str_size kv.2) ++ list_byte_of_string kv.2.

Definition record_layout (pairs : list (string * string)) (entry : key_t * VectorData) :
    list byte :=
  le_bytes 8 entry.1 ++
  le_bytes 8 (str_size (vd_id entry.2)) ++ list_byte_of_string (vd_id entry.2) ++
  le_bytes 8 (len (vd_values entry.2)) ++ concat (map (le_bytes 4) (vd_values entry.2)) ++
  le_bytes 8 (len pairs) ++ concat (map pair_layout pairs).

Definition sidecar_layout (meta_order : gmap string string -> list (string * string))
    (next_key : key_t) (records : list (key_t * VectorData)) : list byte :=
  le_bytes 8 (len records) ++ le_bytes 8 next_key ++
  concat (map (fun entry => record_layout (meta_order (vd_metadata entry.2)) entry) records).

End Spec.
End Spec.

(** ** A reference primitive

    A flat index: the stored vectors in insertion order.  A search scans
    the first [max(expansion_search, wanted)] of them and scores a vector
    0.0 when it equals the query and 1.0 otherwise.  It stands in for the
    graph primitive when the wrapper is run on concrete inputs.  Its
    [reserve] does nothing and its [add] never refuses, so it says
    nothing about capacity; [Bounded] below is the stand-in that
    enforces the reservation. *)

Module Flat.

Record index : Type := {
  expansion : N;
  nodes : list (key_t * list float)
}.

Definition make (dimension : N) (kind : metric_kind_t) (config : index_dense_config_t) :
    option index :=
  Some {| expansion := expansion_search config; nodes := [] |}.

Definition add (key : key_t) (vector : list float) (g : index) : outcome index :=
  Ok {| expansion := expansion g; nodes := nodes g ++ [(key, vector)] |}.

Definition remove (key : key_t) (g : index) : outcome index :=
  Ok {| expansion := expansion g;
        nodes := filter (fun n : key_t * list float => n.1 ≠ key) (nodes g) |}.

Definition hits (q : list float) (window : list (key_t * list float)) : list (key_t * float) :=
  map (fun n : key_t * list float => (n.1, f32_zero))
      (filter (fun n : key_t * list float => n.2 = q) window) ++
  map (fun n : key_t * list float => (n.1, f32_one))
      (filter (fun n : key_t * list float => n.2 ≠ q) window).

Definition search (g : index) (q : list float) (wanted : N) : list (key_t * float) :=
  take (N.to_nat wanted)
       (hits q (take (N.to_nat (N.max (expansion g) wanted)) (nodes g))).

Definition change_expansion_search (n : N) (g : index) : index :=
  {| expansion := n; nodes := nodes g |}.

Definition save_node (n : key_t * list float) : list byte :=
  le_bytes 8 n.1 ++ le_bytes 8 (len n.2) ++ bytes_of_floats n.2.

Definition save (g : index) : outcome (list byte) :=
  Ok (le_bytes 8 (len (nodes g)) ++ concat (map save_node (nodes g))).

Fixpoint load_nodes (n : nat) (ifs : list byte) : option (list (key_t * list float)) :=
  match n with
  | O => Some []
  | S n' =>
      '(key, ifs) ← read_u64 ifs;
      '(vec_size, ifs) ← read_u64 ifs;
      '(bs, ifs) ← ifs_read (N.to_nat (vec_size * 4)) ifs;
      rest ← load_nodes n' ifs;
      Some ((key, floats_of_bytes (N.to_nat vec_size) bs) :: rest)
  end.

Definition load (file : option (list byte)) (g : index) : outcome index :=
  match file ≫= (fun ifs => '(num, ifs) ← read_u64 ifs; load_nodes (N.to_nat num) ifs) with
  | Some ns => Ok {| expansion := expansion g; nodes := ns |}
  | None => Throw (runtime_error "flat index: cannot load")
  end.

#[export] Instance primitive : USearch := {|
  index_t := index;
  us_make := make;
  us_reserve := fun _ g => g;
  us_add := add;
  us_remove := remove;
  us_search := search;
  us_change_expansion_search := change_expansion_search;
  us_save := save;
  us_load := load
|}.

End Flat.

(** ** A reference primitive with a capacity

    The flat index behind the capacity check of the graph primitive:
    [reserve] sets how many entries the index may hold, and [add]
    refuses a key that is already held and refuses every key once that
    many entries are held. *)

Module Bounded.

Record index : Type := {
  capacity : N;
  flat : Flat.index
}.

(** The keys the index holds. *)
Definition keys (g : index) : gset key_t :=
  list_to_set (map fst (Flat.nodes (flat g))).

Definition refusal : exn := runtime_error "Reserve capacity ahead of insertions!".
Definition duplicate_key : exn :=
  runtime_error "Duplicate keys not allowed in high-level wrappers".

Definition on_flat (g : index) (o : outcome Flat.index) : outcome index :=
  match o with
  | Ok f => Ok {| capacity := capacity g; flat := f |}
  | Throw e => Throw e
  end.

Definition make (dimension : N) (kind : metric_kind_t) (config : index_dense_config_t) :
    option index :=
  f ← Flat.make dimension kind config; Some {| capacity := 0; flat := f |}.

Definition reserve (n : N) (g : index) : index :=
  {| capacity := n; flat := flat g |}.

Definition add (key : key_t) (vector : list float) (g : index) : outcome index :=
  if decide (key ∈ keys g) then Throw duplicate_key
  else if capacity g <=? N.of_nat (base.size (keys g)) then Throw refusal
  else on_flat g (Flat.add key vector (flat g)).

Definition remove (key : key_t) (g : index) : outcome index :=
  on_flat g (Flat.remove key (flat g)).

Definition search (g : index) (q : list float) (wanted : N) : list (key_t * float) :=
  Flat.search (flat g) q wanted.

Definition change_expansion_search (n : N) (g : index) : index :=
  {| capacity := capacity g; flat := Flat.change_expansion_search n (flat g) |}.

Definition save (g : index) : outcome (list byte) := Flat.save (flat g).

Definition load (file : option (list byte)) (g : index) : outcome index :=
  on_flat g (Flat.load file (flat g)).

Definition primitive : USearch := {|
  index_t := index;
  us_make := make;
  us_reserve := reserve;
  us_add := add;
  us_remove := remove;
  us_search := search;
  us_change_expansion_search := change_expansion_search;
  us_save := save;
  us_load := load
|}.

End Bounded.

(** ** Properties the theorems are stated with *)

Definition score_le (a b : float) : Prop := f32_le a b = true.

(** Non-decreasing scores: every score is [<=] its successor. *)
Definition ascending (scores : list float) : Prop := Sorted score_le scores.

(** What the wrapper relies on from the primitive's search: at most
    [wanted] hits, closest first. *)
Definition search_contract `{USearch} : Prop :=
  forall (g : index_t) (q : list float) (wanted : N),
    (length (us_search g q wanted) <= N.to_nat wanted)%nat /\
    ascending (map snd (us_search g q wanted)).

(** What the capacity check of [insert] rests on, the wrapper having none
    of its own: the primitive holds a set of keys, empty when it is made;
    [reserve] sets how many it may hold; [add] of a key it does not hold
    is refused, with [refusal], exactly when it holds that many already,
    and an [add] that returns has added the key; [remove] takes the key
    out. *)
Record capacity_contract `{USearch} (keys : index_t -> gset key_t)
    (reserved : index_t -> N) (refusal : exn) : Prop := {
  made_empty :
    forall (dimension : N) (kind : metric_kind_t) (config : index_dense_config_t)
           (g : index_t),
      us_make dimension kind config = Some g -> keys g = ∅;
  reserve_sets :
    forall (n : N) (g : index_t),
      reserved (us_reserve n g) = n /\ keys (us_reserve n g) = keys g;
  add_checks :
    forall (key : key_t) (v : list float) (g : index_t),
      key ∉ keys g ->
      if reserved g <=? N.of_nat (base.size (keys g))
      then us_add key v g = Throw refusal
      else is_ok (us_add key v g) = true;
  add_holds :
    forall (key : key_t) (v : list float) (g g' : index_t),
      us_add key v g = Ok g' ->
      keys g' = {[ key ]} ∪ keys g /\ reserved g' = reserved g;
  remove_drops :
    forall (key : key_t) (g g' : index_t),
      us_remove key g = Ok g' ->
      keys g' = keys g ∖ {[ key ]} /\ reserved g' = reserved g
}.

(** All results, or the first exception. *)
Fixpoint sequence {A : Type} (l : list (outcome A)) : outcome (list A) :=
  match l with
  | [] => Ok []
  | Throw e :: _ => Throw e
  | Ok a :: l' =>
      match sequence l' with
      | Ok r => Ok (a :: r)
      | Throw e => Throw e
      end
  end.

(** How many calls of a run returned. *)
Definition succeeded {A : Type} (rs : list (outcome A)) : N :=
  N.of_nat (length (List.filter is_ok rs)).

Section Properties.
Context `{USearch}.

(** The exceptions of [insert] and [search]. *)
Definition dimension_error : exn := runtime_error "Vector dimension mismatch".
Definition duplicate_error (id : string) : exn :=
  runtime_error ("ID already exists: " +:+ id).
Definition query_dimension_error : exn := runtime_error "Query dimension mismatch".

(** The id an insert works with: the caller's, or a synthesized one. *)
Definition actual_id (now : Z) (id : string) (s : HNSWIndex.t) : string :=
  if String.eqb id "" then HNSWIndex.generate_id now s else id.

(** The inserts of a batch run one after the other on their own: the
    final state and what each call returned or threw. *)
Fixpoint insert_run (clock : nat -> Z) (i : nat) (vectors : list VectorData)
    (s : HNSWIndex.t) : HNSWIndex.t * list (outcome string) :=
  match vectors with
  | [] => (s, [])
  | v :: vectors' =>
      let '(s1, r) := HNSWIndex.insert (clock i) (vd_values v) (vd_id v) (vd_metadata v) s in
      let '(s2, rs) := insert_run clock (S i) vectors' s1 in
      (s2, r :: rs)
  end.

(** A history of point mutations applied to an index. *)
Inductive operation : Type :=
  | op_insert (now : Z) (vector : list float) (id : string) (metadata : gmap string string)
  | op_remove (id : string).

Definition apply_operation (s : HNSWIndex.t) (o : operation) : HNSWIndex.t :=
  match o with
  | op_insert now vector id metadata => (HNSWIndex.insert now vector id metadata s).1
  | op_remove id => (HNSWIndex.remove id s).1
  end.

Definition run (ops : list operation) (s : HNSWIndex.t) : HNSWIndex.t :=
  foldl apply_operation s ops.

(** The id map is the inverse of the payload store's ids. *)
Definition consistent (s : HNSWIndex.t) : Prop :=
  forall (id : string) (key : key_t),
    HNSWIndex.id_to_key_ s !! id = Some key <->
    exists d, HNSWIndex.data_ s !! key = Some d /\ vd_id d = id.

(** Every internal key in use is below the key counter. *)
Definition keys_below_counter (s : HNSWIndex.t) : Prop :=
  forall (key : key_t), is_Some (HNSWIndex.data_ s !! key) -> key < HNSWIndex.next_key_ s.

Definition no_empty_id (s : HNSWIndex.t) : Prop :=
  forall (key : key_t) (d : VectorData),
    HNSWIndex.data_ s !! key = Some d -> vd_id d <> ""%string.

(** The sizes and values of a record fit their C++ types. *)
Definition representable_record (d : VectorData) : Prop :=
  str_size (vd_id d) < u64_modulus /\
  len (vd_values d) * 4 < u64_modulus /\
  Forall (fun x : float => x < 2 ^ 32) (vd_values d) /\
  N.of_nat (base.size (vd_metadata d)) < u64_modulus /\
  map_Forall (fun k v : string => str_size k < u64_modulus /\ str_size v < u64_modulus)
             (vd_metadata d).

(** A metadata pair, a stored entry, whose sizes fit 64 bits. *)
Definition pair_fits (kv : string * string) : Prop :=
  str_size kv.1 < u64_modulus /\ str_size kv.2 < u64_modulus.

Definition entry_fits (entry : key_t * VectorData) : Prop :=
  entry.1 < u64_modulus /\ representable_record entry.2.

Definition representable (s : HNSWIndex.t) : Prop :=
  HNSWIndex.next_key_ s < u64_modulus /\
  N.of_nat (base.size (HNSWIndex.data_ s)) < u64_modulus /\
  map_Forall (fun (key : key_t) (d : VectorData) =>
                key < u64_modulus /\ representable_record d)
             (HNSWIndex.data_ s).

End Properties.

(** ** More invariants of an index *)

(** Reading a synthesized id back: the hexadecimal number before the
    first hyphen and the one after it. *)
Definition hex_digit_value (c : ascii) : N :=
  let n := N_of_ascii c in
  if (48 <=? n) && (n <=? 57) then n - 48
  else if (97 <=? n) && (n <=? 102) then n - 87
  else 0.

Fixpoint hex_value (s : string) (acc : N) : N :=
  match s with
  | EmptyString => acc
  | String c s' => hex_value s' (16 * acc + hex_digit_value c)
  end.

Fixpoint synthesized_fields (s : string) (acc : N) : N * N :=
  match s with
  | EmptyString => (acc, 0)
  | String c s' =>
      if Ascii.eqb c "-" then (acc, hex_value s' 0)
      else synthesized_fields s' (16 * acc + hex_digit_value c)
  end.

Section IndexInvariants.
Context `{USearch}.

(** The element count is the number of payload entries, which is the
    number of mapped ids, and stays below the key counter. *)
Definition counted (s : HNSWIndex.t) : Prop :=
  HNSWIndex.num_elements_ s = N.of_nat (base.size (HNSWIndex.data_ s)) /\
  base.size (HNSWIndex.data_ s) = base.size (HNSWIndex.id_to_key_ s) /\
  N.of_nat (base.size (HNSWIndex.data_ s)) < HNSWIndex.next_key_ s.

(** Every insert of the history leaves the id to the index. *)
Definition ids_omitted (ops : list operation) : Prop :=
  Forall (fun o : operation =>
            match o with
            | op_insert _ _ id _ => id = ""%string
            | op_remove _ => True
            end) ops.

(** Every mapped id reads as a synthesized id whose key field is below
    the key counter. *)
Definition synthesized_below (s : HNSWIndex.t) : Prop :=
  forall (id : string) (key : key_t),
    HNSWIndex.id_to_key_ s !! id = Some key ->
    (synthesized_fields id 0).2 < HNSWIndex.next_key_ s.

(** The primitive holds the keys of the payload store and is reserved
    for [max_elements]. *)
Definition tracks (keys : index_t -> gset key_t) (reserved : index_t -> N)
    (s : HNSWIndex.t) : Prop :=
  keys (HNSWIndex.index_ s) = dom (HNSWIndex.data_ s) /\
  reserved (HNSWIndex.index_ s) = max_elements (HNSWIndex.config_ s).

End IndexInvariants.

(** ** Histories of a storage *)

Section StorageProperties.
Context `{USearch}.

(** Every collection has a configuration. *)
Definition configured (st : VectorStorage.t) : Prop :=
  forall name : string,
    is_Some (VectorStorage.collections_ st !! name) ->
    is_Some (VectorStorage.configs_ st !! name).

(** The calls that change a storage or its files. *)
Inductive storage_operation : Type :=
  | st_create (config : CollectionConfig)
  | st_delete (name : string)
  | st_insert (now : Z) (collection : string) (vector : list float) (id : string)
      (metadata : gmap string string)
  | st_batch_insert (clock : nat -> Z) (collection : string) (vectors : list VectorData)
  | st_remove (collection : string) (id : string).

Definition apply_storage_operation (acc : VectorStorage.t * filesystem)
    (o : storage_operation) : VectorStorage.t * filesystem :=
  match o with
  | st_create config => (VectorStorage.create_collection config acc.1 acc.2).1
  | st_delete name => (VectorStorage.delete_collection name acc.1 acc.2).1
  | st_insert now collection vector id metadata =>
      ((VectorStorage.insert now collection vector id metadata acc.1).1, acc.2)
  | st_batch_insert clock collection vectors =>
      ((VectorStorage.batch_insert clock collection vectors acc.1).1, acc.2)
  | st_remove collection id => ((VectorStorage.remove collection id acc.1).1, acc.2)
  end.

Definition storage_run (ops : list storage_operation) (st : VectorStorage.t)
    (fs : filesystem) : VectorStorage.t * filesystem :=
  foldl apply_storage_operation (st, fs) ops.

(** The collections a call is aimed at. *)
Definition target (o : storage_operation) : string :=
  match o with
  | st_create config => cc_name config
  | st_delete name => name
  | st_insert _ collection _ _ _ => collection
  | st_batch_insert _ collection _ => collection
  | st_remove collection _ => collection
  end.

End StorageProperties.

(** ** Reading a configuration file back

    The text [save_config] writes, cut at its double quotes. *)

Module ConfigText.

(** The character [c] does not occur in [s]. *)
Fixpoint free (c : ascii) (s : string) : bool :=
  match s with
  | EmptyString => true
  | String x s' => negb (Ascii.eqb x c) && free c s'
  end.

Definition quote_free (s : string) : bool := free StdString.quote s.

(** The pieces joined by double quotes. *)
Fixpoint join (pieces : list string) : string :=
  match pieces with
  | [] => EmptyString
  | [s] => s
  | s :: pieces' => s +:+ String StdString.quote (join pieces')
  end.

Definition starts_with_colon (s : string) : bool :=
  match s with
  | String c _ => Ascii.eqb c ":"
  | EmptyString => false
  end.

(** Where the quoted [key] followed by a colon first stands in the
    joined pieces of a text that starts at position [pos]: the position
    of its opening quote and the text after its closing quote. *)
Fixpoint locate (key : string) (pieces : list string) (pos : N) : option (N * string) :=
  match pieces with
  | s0 :: pieces' =>
      match pieces' with
      | s1 :: (s2 :: _) as tail =>
          if starts_with_colon s2 then
            if String.eqb s1 key then Some (pos + str_size s0, join tail)
            else locate key pieces' (pos + str_size s0 + 1)
          else locate key pieces' (pos + str_size s0 + 1)
      | _ => None
      end
  | [] => None
  end.

(** The pieces of [VectorStorage.config_text]. *)
Definition pieces (config : CollectionConfig) : list string :=
  let nl := String StdString.newline "" in
  [ "{" +:+ nl +:+ "  "; "name"; ": "; cc_name config; "," +:+ nl +:+ "  ";
    "dimension"; ": " +:+ to_dec (cc_dimension config) +:+ "," +:+ nl +:+ "  ";
    "metric";
    ": " +:+ to_dec (VectorStorage.int_of_metric (cc_metric config)) +:+ "," +:+ nl +:+ "  ";
    "M"; ": " +:+ to_dec (M (hnsw_config config)) +:+ "," +:+ nl +:+ "  ";
    "ef_construction";
    ": " +:+ to_dec (ef_construction (hnsw_config config)) +:+ "," +:+ nl +:+ "  ";
    "ef_search";
    ": " +:+ to_dec (ef_search (hnsw_config config)) +:+ nl +:+ "}" +:+ nl ]%string.

(** No digit follows: the end of the text, or another character. *)
Definition number_ends (rest : string) : bool :=
  match rest with
  | EmptyString => true
  | String c _ => negb (StdString.is_digit c)
  end.

(** What [load_config] makes of a configuration that [save_config]
    wrote under the file name [name]. *)
Definition reloaded (name : string) (config : CollectionConfig) : CollectionConfig :=
  {| cc_name := name;
     cc_dimension := cc_dimension config;
     cc_metric := cc_metric config;
     hnsw_config :=
       {| M := M (hnsw_config config);
          ef_construction := ef_construction (hnsw_config config);
          ef_search := ef_search (hnsw_config config);
          max_elements := 1000000;
          metric := cc_metric config |} |}.

End ConfigText.

(** ** Names that are file names

    A collection name goes into the paths of its files unchecked.  It is
    one component of those paths, as written, when it has no slash and
    no NUL (where the C string handed to the system ends); different
    such names then give different files of the data directory. *)
Definition plain_name (name : string) : bool :=
  ConfigText.free "/" name && ConfigText.free "000" name.

(** ** Concrete indexes over the flat primitive *)

Module Demo.

Definition config : HNSWConfig :=
  {| M := 16; ef_construction := 200; ef_search := 1; max_elements := 1; metric := Cosine |}.

(** [HNSWIndex index(2, config)] *)
Definition empty : @HNSWIndex.t Flat.primitive :=
  {| HNSWIndex.dimension_ := 2;
     HNSWIndex.config_ := config;
     HNSWIndex.num_elements_ := 0;
     HNSWIndex.next_key_ := 1;
     HNSWIndex.index_ := ({| Flat.expansion := 1; Flat.nodes := [] |} : @index_t Flat.primitive);
     HNSWIndex.data_ := ∅;
     HNSWIndex.id_to_key_ := ∅ |}.

Definition tags : gmap string string := {[ "type"%string := "test"%string ]}.

Definition one : @HNSWIndex.t Flat.primitive :=
  (HNSWIndex.insert 0 [1; 2] "a" tags empty).1.
Definition two : @HNSWIndex.t Flat.primitive :=
  (HNSWIndex.insert 0 [3; 4] "b" ∅ one).1.
Definition three : @HNSWIndex.t Flat.primitive :=
  (HNSWIndex.insert 0 [5; 6] "c" ∅ two).1.

(** A clock reading: 2024-10-27 03:33:20 UTC in microseconds. *)
Definition now : Z := 1730000000000000.

Definition record (i : nat) : VectorData :=
  {| vd_id := ""; vd_values := [N.of_nat i; 7]; vd_metadata := ∅ |}.

(** Nine records inserted without ids: the key counter stands at 10. *)
Definition nine : @HNSWIndex.t Flat.primitive :=
  (HNSWIndex.batch_insert (fun _ => now) (map record (seq 0 9)) empty).1.

(** The caller has used up an id of the synthesized form. *)
Definition taken : @HNSWIndex.t Flat.primitive :=
  (HNSWIndex.insert 0 [3; 4] "6256d03762000-3" ∅ one).1.

Definition disk : filesystem :=
  {| fs_files := ∅; fs_can_write := fun _ => true |}.

Definition storage : @VectorStorage.t Flat.primitive :=
  {| VectorStorage.data_dir_ := "./data";
     VectorStorage.collections_ := {[ "docs"%string := one ]};
     VectorStorage.configs_ :=
       {[ "docs"%string := {| cc_name := "docs"; cc_dimension := 2; cc_metric := Cosine;
                              hnsw_config := config |} ]} |}.

End Demo.

(** Storages over the flat primitive. *)
Module DemoStorage.

Definition notes : CollectionConfig :=
  {| cc_name := "notes"; cc_dimension := 2; cc_metric := Euclidean;
     hnsw_config := Demo.config |}.

Definition bytes (_ : @HNSWIndex.t Flat.primitive) : N := 0.

(** A Euclidean collection whose index configuration says cosine. *)
Definition maps : CollectionConfig :=
  {| cc_name := "maps"; cc_dimension := 2; cc_metric := Euclidean;
     hnsw_config := Demo.config |}.

(** A storage just started on the directory of [Demo.storage]. *)
Definition blank : @VectorStorage.t Flat.primitive :=
  {| VectorStorage.data_dir_ := "./data";
     VectorStorage.collections_ := ∅;
     VectorStorage.configs_ := ∅ |}.

(** A storage whose one configuration has a dimension that is no [int]. *)
Definition wide : @VectorStorage.t Flat.primitive :=
  {| VectorStorage.data_dir_ := "./data";
     VectorStorage.collections_ := ∅;
     VectorStorage.configs_ :=
       {[ "wide"%string := {| cc_name := "wide"; cc_dimension := 2 ^ 31; cc_metric := Cosine;
                              hnsw_config := Demo.config |} ]} |}.

End DemoStorage.

(** An index over the bounded primitive, reserved for one element. *)
Module DemoBounded.

(** [HNSWIndex index(2, config)] *)
Definition empty : @HNSWIndex.t Bounded.primitive :=
  {| HNSWIndex.dimension_ := 2;
     HNSWIndex.config_ := Demo.config;
     HNSWIndex.num_elements_ := 0;
     HNSWIndex.next_key_ := 1;
     HNSWIndex.index_ :=
       ({| Bounded.capacity := 1;
           Bounded.flat := {| Flat.expansion := 1; Flat.nodes := [] |} |}
        : @index_t Bounded.primitive);
     HNSWIndex.data_ := ∅;
     HNSWIndex.id_to_key_ := ∅ |}.

Definition full : @HNSWIndex.t Bounded.primitive :=
  (HNSWIndex.insert 0 [1; 2] "a" Demo.tags empty).1.

(** A storage without collections on the directory ["./data"]. *)
Definition blank : @VectorStorage.t Bounded.primitive :=
  {| VectorStorage.data_dir_ := "./data";
     VectorStorage.collections_ := ∅;
     VectorStorage.configs_ := ∅ |}.

(** A primitive just made, reserved for [n] entries. *)
Definition reserved (n : N) : @index_t Bounded.primitive :=
  {| Bounded.capacity := n;
     Bounded.flat := {| Flat.expansion := 1; Flat.nodes := [] |} |}.

End DemoBounded.

(** * Theorems *)

(** ** Words and bytes *)

Example to_hex_255 : to_hex 255 = "ff"%string.
Proof. reflexivity. Qed.

Example to_dec_255 : to_dec 255 = "255"%string.
Proof. reflexivity. Qed.

Example to_hex_max : to_hex (u64_modulus - 1) = "ffffffffffffffff"%string.
Proof. vm_compute. reflexivity. Qed.

Example to_dec_max : to_dec (u64_modulus - 1) = "18446744073709551615"%string.
Proof. vm_compute. reflexivity. Qed.

Example to_hex_zero : to_hex 0 = "0"%string.
Proof. reflexivity. Qed.

Lemma byte_of_N_to_N (n : N) : Byte.to_N (byte_of_N n) = n mod 256.
Proof.
  unfold byte_of_N.
  destruct (Byte.of_N (n mod 256)) as [b|] eqn:E.
  - by apply Byte.to_of_N in E.
  - apply Byte.of_N_None_iff in E.
    pose proof (N.mod_upper_bound n 256). lia.
Qed.

Lemma length_le_bytes (w : nat) (n : N) : length (le_bytes w n) = w.
Proof. revert n. induction w as [|w IH]; intros n; simpl; [done | by rewrite IH]. Qed.

Lemma le_value_le_bytes (w : nat) (n : N) :
  n < 256 ^ N.of_nat w -> le_value (le_bytes w n) = n.
Proof.
  revert n. induction w as [|w IH]; intros n Hn.
  - simpl in *. lia.
  - cbn [le_bytes le_value]. rewrite byte_of_N_to_N, IH.
    + pose proof (N.div_mod n 256). lia.
    + rewrite Nat2N.inj_succ, N.pow_succ_r' in Hn.
      apply N.Div0.div_lt_upper_bound. lia.
Qed.

Lemma le_value_u64 (n : N) : n < u64_modulus -> le_value (le_bytes 8 n) = n.
Proof. intros Hn. apply le_value_le_bytes. exact Hn. Qed.

Lemma le_value_f32 (x : float) : x < 2 ^ 32 -> le_value (le_bytes 4 x) = x.
Proof. intros Hx. apply le_value_le_bytes. exact Hx. Qed.

(** ** The score order *)

Lemma f32_le_spec (a b : float) :
  f32_le a b = true <->
  f32_is_nan a = false /\ f32_is_nan b = false /\ (f32_ord a <= f32_ord b)%Z.
Proof.
  unfold f32_le. rewrite !andb_true_iff, !negb_true_iff, Z.leb_le. tauto.
Qed.

#[export] Instance score_le_transitive : Transitive score_le.
Proof.
  intros a b c Hab Hbc. unfold score_le in *.
  apply f32_le_spec in Hab as (Ha & _ & Hab).
  apply f32_le_spec in Hbc as (_ & Hc & Hbc).
  apply f32_le_spec. repeat split; [done | done | lia].
Qed.

Example score_zero_le_one : score_le f32_zero f32_one.
Proof. reflexivity. Qed.

Example score_nan_unordered : f32_le 0x7FC00000 0x7FC00000 = false.
Proof. reflexivity. Qed.

Example score_negative_zero : f32_le 0x80000000 0 = true /\ f32_le 0 0x80000000 = true.
Proof. split; reflexivity. Qed.

(** ** search *)

Section Search.
Context `{USearch}.

Lemma results_length (s : HNSWIndex.t) (hits : list (key_t * float)) :
  (length (omap (HNSWIndex.result_of s) hits) <= length hits)%nat.
Proof.
  induction hits as [|h hits IH]; cbn; [lia|].
  destruct (HNSWIndex.result_of s h); cbn; lia.
Qed.

Lemma result_of_distance (s : HNSWIndex.t) (h : key_t * float) (r : HNSWResult) :
  HNSWIndex.result_of s h = Some r -> r_distance r = h.2.
Proof.
  unfold HNSWIndex.result_of. destruct (HNSWIndex.data_ s !! h.1); [|done].
  by intros [= <-].
Qed.

Lemma results_scores_from_hits (s : HNSWIndex.t) (hits : list (key_t * float)) (x : float) :
  x ∈ map r_distance (omap (HNSWIndex.result_of s) hits) -> x ∈ map snd hits.
Proof.
  induction hits as [|h hits IH]; cbn; [done|].
  destruct (HNSWIndex.result_of s h) as [r|] eqn:E; cbn.
  - rewrite !elem_of_cons. intros [->|Hx]; [left | right; auto].
    by apply (result_of_distance s).
  - rewrite elem_of_cons. auto.
Qed.

(** Dropping hits keeps the order of the ones that stay. *)
Lemma results_strongly_sorted (s : HNSWIndex.t) (hits : list (key_t * float)) :
  StronglySorted score_le (map snd hits) ->
  StronglySorted score_le (map r_distance (omap (HNSWIndex.result_of s) hits)).
Proof.
  induction hits as [|h hits IH]; cbn; intros Hs; [constructor|].
  apply StronglySorted_inv in Hs as [Hs Hall].
  destruct (HNSWIndex.result_of s h) as [r|] eqn:E; cbn; [|by apply IH].
  constructor; [by apply IH|].
  rewrite (result_of_distance _ _ _ E).
  rewrite List.Forall_forall in Hall. apply List.Forall_forall. intros x Hx.
  apply Hall. apply list_elem_of_In, (results_scores_from_hits s), list_elem_of_In, Hx.
Qed.

Lemma results_ascending (s : HNSWIndex.t) (hits : list (key_t * float)) :
  ascending (map snd hits) ->
  ascending (map r_distance (omap (HNSWIndex.result_of s) hits)).
Proof.
  unfold ascending. intros Hs.
  apply StronglySorted_Sorted, results_strongly_sorted.
  by apply (Sorted_StronglySorted score_le).
Qed.

(** C1: a search with a query of the configured dimension returns a
    list; it has at most [min(k, size())] entries, its scores are
    non-decreasing, and it is empty when the index is empty.  The bound
    and the order are those of the primitive's result (at most the
    requested count, closest first), which dropping entries preserves. *)
Theorem search_bounded_ascending (query : list float) (k ef : N) (s : HNSWIndex.t) :
  search_contract ->
  len query = HNSWIndex.dimension_ s ->
  exists out : list HNSWResult,
    HNSWIndex.search query k ef s = Ok out /\
    (length out <= Nat.min (N.to_nat k) (N.to_nat (HNSWIndex.size s)))%nat /\
    ascending (map r_distance out) /\
    (HNSWIndex.size s = 0 -> out = []).
Proof.
  intros Hc Hdim. unfold HNSWIndex.search, HNSWIndex.size.
  rewrite Hdim, N.eqb_refl. simpl.
  destruct (N.eqb_spec (HNSWIndex.num_elements_ s) 0) as [E|E].
  - exists []. rewrite E. repeat split; [simpl; lia | constructor].
  - destruct (Hc (HNSWIndex.index_ s) query (N.min k (HNSWIndex.num_elements_ s)))
      as [Hlen Hasc].
    eexists. split; [reflexivity|]. repeat split.
    + etrans; [apply results_length|]. lia.
    + by apply results_ascending.
    + done.
Qed.

End Search.

(** The flat primitive honours the search contract. *)

Lemma zeros_ones_sorted (a b : nat) :
  StronglySorted score_le (replicate a f32_zero ++ replicate b f32_one).
Proof.
  induction a as [|a IHa]; simpl.
  - induction b as [|b IHb]; simpl; constructor; [done|].
    apply List.Forall_forall. intros x Hx%list_elem_of_In.
    apply elem_of_replicate in Hx as [-> _]. reflexivity.
  - constructor; [done|].
    apply List.Forall_forall. intros x Hx%list_elem_of_In.
    apply elem_of_app in Hx as [Hx|Hx]; apply elem_of_replicate in Hx as [-> _]; reflexivity.
Qed.

Lemma map_const_replicate {A B : Type} (c : B) (l : list A) :
  map (fun _ : A => c) l = replicate (length l) c.
Proof. induction l as [|x l IH]; simpl; [done | by rewrite IH]. Qed.

Lemma flat_hits_scores (q : list float) (window : list (key_t * list float)) :
  exists a b, map snd (Flat.hits q window) = replicate a f32_zero ++ replicate b f32_one.
Proof.
  unfold Flat.hits.
  exists (length (filter (fun n : key_t * list float => n.2 = q) window)),
         (length (filter (fun n : key_t * list float => n.2 ≠ q) window)).
  rewrite map_app, !map_map. simpl. by rewrite !map_const_replicate.
Qed.

Lemma flat_search_contract : @search_contract Flat.primitive.
Proof.
  intros g q wanted. simpl. unfold Flat.search. split.
  - rewrite length_take. lia.
  - unfold ascending. apply StronglySorted_Sorted.
    set (hits := Flat.hits q _).
    destruct (flat_hits_scores q (take (N.to_nat (N.max (Flat.expansion g) wanted)) (Flat.nodes g)))
      as (a & b & Hs). fold hits in Hs.
    change (map snd (take (N.to_nat wanted) hits)) with (snd <$> take (N.to_nat wanted) hits).
    rewrite fmap_take.
    apply (StronglySorted_app_1_l score_le _ (drop (N.to_nat wanted) (snd <$> hits))).
    rewrite take_drop. change (snd <$> hits) with (map snd hits). rewrite Hs.
    apply zeros_ones_sorted.
Qed.

(** Three stored vectors, a query with two components, [k = 2]. *)
Lemma search_bounded_ascending_witness :
  exists out : list HNSWResult,
    HNSWIndex.search [5; 6] 2 0 Demo.three = Ok out /\
    (length out <= Nat.min (N.to_nat 2) (N.to_nat (HNSWIndex.size Demo.three)))%nat /\
    ascending (map r_distance out) /\
    (HNSWIndex.size Demo.three = 0 -> out = []).
Proof.
  apply (search_bounded_ascending [5; 6] 2 0 Demo.three).
  - exact flat_search_contract.
  - reflexivity.
Defined.

(** ** insert and get *)

Section Insert.
Context `{USearch}.

Lemma actual_id_supplied (now : Z) (id : string) (s : HNSWIndex.t) :
  id <> ""%string -> actual_id now id s = id.
Proof.
  intros Hid. unfold actual_id. destruct (String.eqb_spec id ""); [done | reflexivity].
Qed.

Lemma insert_dimension_mismatch (now : Z) (v : list float) (id : string)
    (md : gmap string string) (s : HNSWIndex.t) :
  len v <> HNSWIndex.dimension_ s ->
  HNSWIndex.insert now v id md s = (s, Throw dimension_error).
Proof.
  intros Hd. unfold HNSWIndex.insert.
  by destruct (N.eqb_spec (len v) (HNSWIndex.dimension_ s)).
Qed.

Lemma insert_duplicate (now : Z) (v : list float) (id : string)
    (md : gmap string string) (s : HNSWIndex.t) :
  len v = HNSWIndex.dimension_ s ->
  is_Some (HNSWIndex.id_to_key_ s !! actual_id now id s) ->
  HNSWIndex.insert now v id md s = (s, Throw (duplicate_error (actual_id now id s))).
Proof.
  intros Hd Hm. unfold HNSWIndex.insert. rewrite Hd, N.eqb_refl. simpl.
  fold (actual_id now id s). by destruct (decide _).
Qed.

Lemma insert_primitive_throws (now : Z) (v : list float) (id : string)
    (md : gmap string string) (s : HNSWIndex.t) (e : exn) :
  len v = HNSWIndex.dimension_ s ->
  HNSWIndex.id_to_key_ s !! actual_id now id s = None ->
  us_add (HNSWIndex.next_key_ s) v (HNSWIndex.index_ s) = Throw e ->
  (HNSWIndex.insert now v id md s).2 = Throw e.
Proof.
  intros Hd Hm Ha. unfold HNSWIndex.insert. rewrite Hd, N.eqb_refl. simpl.
  fold (actual_id now id s). destruct (decide _) as [[k Hk]|_]; [congruence|].
  by rewrite Ha.
Qed.

Lemma insert_stores (now : Z) (v : list float) (id : string)
    (md : gmap string string) (s : HNSWIndex.t) (index : index_t) :
  len v = HNSWIndex.dimension_ s ->
  HNSWIndex.id_to_key_ s !! actual_id now id s = None ->
  us_add (HNSWIndex.next_key_ s) v (HNSWIndex.index_ s) = Ok index ->
  HNSWIndex.insert now v id md s =
    ({| HNSWIndex.dimension_ := HNSWIndex.dimension_ s;
        HNSWIndex.config_ := HNSWIndex.config_ s;
        HNSWIndex.num_elements_ := u64_succ (HNSWIndex.num_elements_ s);
        HNSWIndex.next_key_ := u64_succ (HNSWIndex.next_key_ s);
        HNSWIndex.index_ := index;
        HNSWIndex.data_ :=
          <[HNSWIndex.next_key_ s :=
              {| vd_id := actual_id now id s; vd_values := v; vd_metadata := md |}]>
            (HNSWIndex.data_ s);
        HNSWIndex.id_to_key_ :=
          <[actual_id now id s := HNSWIndex.next_key_ s]> (HNSWIndex.id_to_key_ s) |},
     Ok (actual_id now id s)).
Proof.
  intros Hd Hm Ha. unfold HNSWIndex.insert. rewrite Hd, N.eqb_refl. simpl.
  fold (actual_id now id s). destruct (decide _) as [[k Hk]|_]; [congruence|].
  by rewrite Ha.
Qed.

(** What a successful insert was given and what it left behind. *)
Lemma insert_Ok_inv (now : Z) (v : list float) (id : string)
    (md : gmap string string) (s s' : HNSWIndex.t) (rid : string) :
  HNSWIndex.insert now v id md s = (s', Ok rid) ->
  len v = HNSWIndex.dimension_ s /\
  rid = actual_id now id s /\
  HNSWIndex.id_to_key_ s !! rid = None /\
  HNSWIndex.data_ s' =
    <[HNSWIndex.next_key_ s := {| vd_id := rid; vd_values := v; vd_metadata := md |}]>
      (HNSWIndex.data_ s) /\
  HNSWIndex.id_to_key_ s' = <[rid := HNSWIndex.next_key_ s]> (HNSWIndex.id_to_key_ s) /\
  HNSWIndex.num_elements_ s' = u64_succ (HNSWIndex.num_elements_ s) /\
  HNSWIndex.next_key_ s' = u64_succ (HNSWIndex.next_key_ s).
Proof.
  destruct (N.eq_dec (len v) (HNSWIndex.dimension_ s)) as [Hd|Hd].
  2: { rewrite insert_dimension_mismatch by done. intros [= _ ?]. }
  destruct (HNSWIndex.id_to_key_ s !! actual_id now id s) as [k|] eqn:Hm.
  { rewrite insert_duplicate by (rewrite ?Hm; eauto). intros [= _ ?]. }
  destruct (us_add (HNSWIndex.next_key_ s) v (HNSWIndex.index_ s)) as [index|e] eqn:Ha.
  - rewrite (insert_stores _ _ _ _ _ index) by done. intros [= <- <-]. simpl.
    by repeat split.
  - intros Hi. pose proof (insert_primitive_throws now v id md s e Hd Hm Ha) as Ht.
    rewrite Hi in Ht. discriminate.
Qed.

(** C2: after a successful insert, [get] on the returned id gives the
    record made of that id, the inserted values and the metadata; the
    returned id is the caller's whenever the caller supplied one (a
    non-empty id). *)
Theorem insert_then_get (now : Z) (v : list float) (id : string)
    (md : gmap string string) (s s' : HNSWIndex.t) (rid : string) :
  HNSWIndex.insert now v id md s = (s', Ok rid) ->
  HNSWIndex.get rid s' = Some {| vd_id := rid; vd_values := v; vd_metadata := md |} /\
  (id <> ""%string ->
   rid = id /\
   HNSWIndex.get id s' = Some {| vd_id := id; vd_values := v; vd_metadata := md |}).
Proof.
  intros Hi. apply insert_Ok_inv in Hi as (_ & Hrid & _ & Hdata & Hids & _).
  assert (Hget : HNSWIndex.get rid s' =
                 Some {| vd_id := rid; vd_values := v; vd_metadata := md |}).
  { unfold HNSWIndex.get. rewrite Hids, lookup_insert_eq, Hdata. apply lookup_insert_eq. }
  split; [exact Hget|]. intros Hid.
  rewrite (actual_id_supplied now id s Hid) in Hrid. subst rid. by split.
Qed.

(** C3: an insert whose id (a supplied, non-empty one) is already mapped
    throws and leaves the whole index as it was; the exception is the
    duplicate-id one when the vector has the configured dimension.  An
    insert whose vector has another dimension throws the dimension
    error and changes nothing either. *)
Theorem insert_rejected_unchanged (now : Z) (v : list float) (id : string)
    (md : gmap string string) (s : HNSWIndex.t) :
  (id <> ""%string -> is_Some (HNSWIndex.id_to_key_ s !! id) ->
   exists e, HNSWIndex.insert now v id md s = (s, Throw e) /\
             (len v = HNSWIndex.dimension_ s -> e = duplicate_error id)) /\
  (len v <> HNSWIndex.dimension_ s ->
   HNSWIndex.insert now v id md s = (s, Throw dimension_error)).
Proof.
  split; [|apply insert_dimension_mismatch].
  intros Hid Hm.
  destruct (N.eq_dec (len v) (HNSWIndex.dimension_ s)) as [Hd|Hd].
  - exists (duplicate_error id). split; [|done].
    rewrite <- (actual_id_supplied now id s Hid) at 2.
    apply insert_duplicate; [done|]. by rewrite actual_id_supplied.
  - exists dimension_error. split; [by apply insert_dimension_mismatch | done].
Qed.

End Insert.

(** The first insert of the basic test: vector, id and one metadata
    pair. *)
Lemma insert_then_get_witness :
  HNSWIndex.get "a" Demo.one =
    Some {| vd_id := "a"; vd_values := [1; 2]; vd_metadata := Demo.tags |} /\
  ("a"%string <> ""%string ->
   "a"%string = "a"%string /\
   HNSWIndex.get "a" Demo.one =
     Some {| vd_id := "a"; vd_values := [1; 2]; vd_metadata := Demo.tags |}).
Proof.
  apply (insert_then_get 0 [1; 2] "a" Demo.tags Demo.empty Demo.one "a").
  vm_compute. reflexivity.
Defined.

(** A second insert under the id ["a"], and an insert of a vector with
    three components into an index of dimension two. *)
Lemma insert_rejected_unchanged_witness :
  (exists e, HNSWIndex.insert 0 [9; 9] "a" ∅ Demo.one = (Demo.one, Throw e) /\
             (len [9; 9] = HNSWIndex.dimension_ Demo.one -> e = duplicate_error "a")) /\
  HNSWIndex.insert 0 [1; 2; 3] "z" ∅ Demo.one = (Demo.one, Throw dimension_error).
Proof.
  destruct (insert_rejected_unchanged 0 [9; 9] "a" ∅ Demo.one) as [Hdup _].
  destruct (insert_rejected_unchanged 0 [1; 2; 3] "z" ∅ Demo.one) as [_ Hdim].
  split.
  - apply Hdup; [discriminate | vm_compute; eauto].
  - apply Hdim. vm_compute. discriminate.
Defined.

Section InsertReasons.
Context `{USearch}.

Lemma generate_id_nonempty (now : Z) (s : HNSWIndex.t) :
  HNSWIndex.generate_id now s <> ""%string.
Proof.
  unfold HNSWIndex.generate_id.
  destruct (to_hex (Z.to_N (now mod 2 ^ 64))); discriminate.
Qed.

Lemma actual_id_nonempty (now : Z) (id : string) (s : HNSWIndex.t) :
  actual_id now id s <> ""%string.
Proof.
  unfold actual_id. destruct (String.eqb_spec id ""); [apply generate_id_nonempty | done].
Qed.

Lemma insert_no_empty_id (now : Z) (v : list float) (id : string)
    (md : gmap string string) (s : HNSWIndex.t) :
  no_empty_id s -> no_empty_id (HNSWIndex.insert now v id md s).1.
Proof.
  intros Hs. unfold HNSWIndex.insert.
  destruct (negb _); [done|]. fold (actual_id now id s).
  destruct (decide _); [done|].
  destruct (us_add _ _ _) as [index|e]; [|done].
  intros key d. simpl. rewrite lookup_insert. case_decide.
  - intros [= <-]. simpl. apply actual_id_nonempty.
  - apply Hs.
Qed.

(** C10, as the code has it: an insert with the empty id works with the
    id [hex(now) "-" hex(next_key)] (both numbers in hexadecimal), which
    is never empty; when that id is free and the primitive accepts the
    vector, the record is stored under it and it is returned; when that
    id is already mapped the insert is rejected as a duplicate.  No
    insert, with or without an id, stores a record whose id is empty. *)
Theorem insert_without_id (now : Z) (v : list float) (md : gmap string string)
    (s : HNSWIndex.t) :
  let gid := (to_hex (Z.to_N (now mod 2 ^ 64)) +:+ "-" +:+ to_hex (HNSWIndex.next_key_ s))%string in
  gid <> ""%string /\
  (len v = HNSWIndex.dimension_ s ->
   HNSWIndex.id_to_key_ s !! gid = None ->
   forall index : index_t,
     us_add (HNSWIndex.next_key_ s) v (HNSWIndex.index_ s) = Ok index ->
     exists s' : HNSWIndex.t,
       HNSWIndex.insert now v "" md s = (s', Ok gid) /\
       HNSWIndex.get gid s' = Some {| vd_id := gid; vd_values := v; vd_metadata := md |}) /\
  (len v = HNSWIndex.dimension_ s ->
   is_Some (HNSWIndex.id_to_key_ s !! gid) ->
   HNSWIndex.insert now v "" md s = (s, Throw (duplicate_error gid))) /\
  (forall id : string,
     no_empty_id s -> no_empty_id (HNSWIndex.insert now v id md s).1).
Proof.
  intros gid.
  assert (Hgid : actual_id now "" s = gid) by reflexivity.
  split; [|split; [|split]].
  - apply (generate_id_nonempty now s).
  - intros Hd Hm index Ha. rewrite <- Hgid in *.
    eexists. split; [by apply (insert_stores _ _ _ _ _ index)|].
    unfold HNSWIndex.get. simpl. rewrite lookup_insert_eq. apply lookup_insert_eq.
  - intros Hd Hm. rewrite <- Hgid in *. by apply insert_duplicate.
  - intros id. apply insert_no_empty_id.
Qed.

End InsertReasons.

(** C10 as stated fails twice: with the key counter at 10 the
    synthesized id ends in ["-a"], not ["-10"]; and an insert without an
    id is rejected as a duplicate when the synthesized id is taken. *)
Lemma synthesized_id_hex_and_duplicate :
  HNSWIndex.next_key_ Demo.nine = 10 /\
  (HNSWIndex.insert Demo.now [0; 7] "" ∅ Demo.nine).2 = Ok "6256d03762000-a"%string /\
  Spec.generate_id Demo.now Demo.nine = "6256d03762000-10"%string /\
  HNSWIndex.insert Demo.now [5; 6] "" ∅ Demo.taken =
    (Demo.taken, Throw (duplicate_error "6256d03762000-3")).
Proof. vm_compute. repeat split. Qed.

Lemma insert_without_id_witness :
  exists s' : HNSWIndex.t,
    HNSWIndex.insert Demo.now [0; 7] "" ∅ Demo.one = (s', Ok "6256d03762000-2"%string) /\
    HNSWIndex.get "6256d03762000-2" s' =
      Some {| vd_id := "6256d03762000-2"; vd_values := [0; 7]; vd_metadata := ∅ |}.
Proof.
  destruct (insert_without_id Demo.now [0; 7] ∅ Demo.one) as (_ & Hok & _).
  apply (Hok eq_refl eq_refl
           {| Flat.expansion := 1; Flat.nodes := [(1, [1; 2]); (2, [0; 7])] |}).
  reflexivity.
Defined.

(** ** batch_insert *)

Section BatchInsert.
Context `{USearch}.

Lemma u64_succ_wrap (n : N) : u64_succ (wrap64 n) = wrap64 (n + 1).
Proof. unfold u64_succ, wrap64. by rewrite N.Div0.add_mod_idemp_l. Qed.

Lemma wrap64_small (n : N) : n < u64_modulus -> wrap64 n = n.
Proof. apply N.mod_small. Qed.

Lemma insert_run_length (clock : nat -> Z) (vectors : list VectorData) :
  forall (i : nat) (s : HNSWIndex.t),
    length (insert_run clock i vectors s).2 = length vectors.
Proof.
  induction vectors as [|v vectors IH]; intros i s; simpl; [done|].
  destruct (HNSWIndex.insert _ _ _ _ s) as [s1 r].
  specialize (IH (S i) s1). destruct (insert_run clock (S i) vectors s1). simpl in *.
  by rewrite IH.
Qed.

Lemma succeeded_le_length {A : Type} (rs : list (outcome A)) : succeeded rs <= len rs.
Proof.
  unfold succeeded, len. pose proof (List.filter_length_le is_ok rs). lia.
Qed.

(** The loop of [batch_insert] against the inserts run on their own. *)
Lemma batch_insert_from_run (clock : nat -> Z) (vectors : list VectorData) :
  forall (i : nat) (count : N) (s : HNSWIndex.t),
    HNSWIndex.batch_insert_from clock i vectors (wrap64 count) s =
      ((insert_run clock i vectors s).1,
       wrap64 (count + succeeded (insert_run clock i vectors s).2)).
Proof.
  induction vectors as [|v vectors IH]; intros i count s; simpl.
  - unfold succeeded. simpl. by rewrite N.add_0_r.
  - destruct (HNSWIndex.insert _ _ _ _ s) as [s1 [rid|e]].
    + rewrite u64_succ_wrap, IH.
      destruct (insert_run clock (S i) vectors s1) as [s2 rs]. simpl.
      f_equal. f_equal. unfold succeeded. simpl. lia.
    + rewrite IH.
      destruct (insert_run clock (S i) vectors s1) as [s2 rs]. simpl. done.
Qed.

Lemma insert_size_step (now : Z) (v : list float) (id : string)
    (md : gmap string string) (s : HNSWIndex.t) :
  HNSWIndex.size (HNSWIndex.insert now v id md s).1 =
    if is_ok (HNSWIndex.insert now v id md s).2 then u64_succ (HNSWIndex.size s)
    else HNSWIndex.size s.
Proof.
  unfold HNSWIndex.insert. destruct (negb _); [done|].
  destruct (decide _); [done|]. by destruct (us_add _ _ _).
Qed.

Lemma insert_run_size (clock : nat -> Z) (vectors : list VectorData) :
  forall (i : nat) (n : N) (s : HNSWIndex.t),
    HNSWIndex.size s = wrap64 n ->
    HNSWIndex.size (insert_run clock i vectors s).1 =
      wrap64 (n + succeeded (insert_run clock i vectors s).2).
Proof.
  induction vectors as [|v vectors IH]; intros i n s Hn; simpl.
  - unfold succeeded. simpl. by rewrite N.add_0_r.
  - pose proof (insert_size_step (clock i) (vd_values v) (vd_id v) (vd_metadata v) s) as Hstep.
    destruct (HNSWIndex.insert _ _ _ _ s) as [s1 [rid|e]]; simpl in Hstep.
    + rewrite Hn, u64_succ_wrap in Hstep. specialize (IH (S i) (n + 1) s1 Hstep).
      destruct (insert_run clock (S i) vectors s1) as [s2 rs]. simpl in *.
      rewrite IH. f_equal. unfold succeeded. simpl. lia.
    + rewrite Hn in Hstep. specialize (IH (S i) n s1 Hstep).
      by destruct (insert_run clock (S i) vectors s1) as [s2 rs].
Qed.

(** C8: [batch_insert] always returns a count, whatever the single
    inserts do: it leaves the index as the inserts run one after the
    other leave it, one attempt per record, and its count is the number
    of those inserts that succeeded; the element count has grown by as
    much. *)
Theorem batch_insert_counts (clock : nat -> Z) (vectors : list VectorData)
    (s : HNSWIndex.t) :
  let run := insert_run clock 0 vectors s in
  let done_ := HNSWIndex.batch_insert clock vectors s in
  done_.1 = run.1 /\
  length run.2 = length vectors /\
  done_.2 = wrap64 (succeeded run.2) /\
  (len vectors < u64_modulus ->
   done_.2 = succeeded run.2 /\ done_.2 <= len vectors) /\
  (HNSWIndex.size s < u64_modulus ->
   HNSWIndex.size done_.1 = wrap64 (HNSWIndex.size s + succeeded run.2)).
Proof.
  intros run done_. subst run done_. unfold HNSWIndex.batch_insert.
  pose proof (batch_insert_from_run clock vectors 0 0 s) as Hb.
  change (wrap64 0) with 0 in Hb. rewrite Hb. simpl. rewrite N.add_0_l.
  pose proof (insert_run_length clock vectors 0 s) as Hlen.
  pose proof (succeeded_le_length (insert_run clock 0 vectors s).2) as Hle.
  unfold len in Hle. rewrite Hlen in Hle. fold (len vectors) in Hle.
  repeat split; try done.
  - rewrite wrap64_small; [done | lia].
  - rewrite wrap64_small; [done | lia].
  - intros Hs. apply insert_run_size. by rewrite wrap64_small.
Qed.

End BatchInsert.

(** A batch of three: the second record repeats the id of the first, the
    third has the wrong dimension; one insert succeeds. *)
Lemma batch_insert_counts_witness :
  (HNSWIndex.batch_insert (fun _ => Demo.now)
     [ {| vd_id := "x"; vd_values := [1; 1]; vd_metadata := ∅ |};
       {| vd_id := "x"; vd_values := [2; 2]; vd_metadata := ∅ |};
       {| vd_id := "y"; vd_values := [3]; vd_metadata := ∅ |} ] Demo.one).2 = 1 /\
  HNSWIndex.size
    (HNSWIndex.batch_insert (fun _ => Demo.now)
       [ {| vd_id := "x"; vd_values := [1; 1]; vd_metadata := ∅ |};
         {| vd_id := "x"; vd_values := [2; 2]; vd_metadata := ∅ |};
         {| vd_id := "y"; vd_values := [3]; vd_metadata := ∅ |} ] Demo.one).1 = 2.
Proof.
  destruct (batch_insert_counts (fun _ => Demo.now)
     [ {| vd_id := "x"; vd_values := [1; 1]; vd_metadata := ∅ |};
       {| vd_id := "x"; vd_values := [2; 2]; vd_metadata := ∅ |};
       {| vd_id := "y"; vd_values := [3]; vd_metadata := ∅ |} ] Demo.one)
    as (_ & _ & _ & Hcount & Hsize).
  split.
  - destruct Hcount as [-> _]; [vm_compute; reflexivity | vm_compute; reflexivity].
  - rewrite Hsize; [vm_compute; reflexivity | vm_compute; reflexivity].
Defined.

(** ** The ef override *)

Section Override.
Context `{USearch}.

(** C6, as the code has it: [search] never reads [ef]: it hands the
    primitive the query and [min(k, size())] and nothing else, so every
    override gives the result of any other; the only candidate-list size
    the wrapper ever sets is [ef_search], when the index is made. *)
Theorem search_ignores_ef (query : list float) (k ef ef' : N) (s : HNSWIndex.t) :
  HNSWIndex.search query k ef s = HNSWIndex.search query k ef' s /\
  (len query = HNSWIndex.dimension_ s -> HNSWIndex.size s <> 0 ->
   HNSWIndex.search query k ef s =
     Ok (omap (HNSWIndex.result_of s)
              (us_search (HNSWIndex.index_ s) query (N.min k (HNSWIndex.size s))))) /\
  (forall (dimension : N) (config : HNSWConfig) (s0 : HNSWIndex.t),
     HNSWIndex.create dimension config = Ok s0 ->
     exists g : index_t,
       us_make dimension (HNSWIndex.metric_kind_of (metric config))
         {| connectivity := M config;
            expansion_add := ef_construction config;
            expansion_search := ef_search config |} = Some g /\
       HNSWIndex.index_ s0 = us_reserve (max_elements config) g).
Proof.
  split; [reflexivity|]. split.
  - intros Hd Hn. unfold HNSWIndex.search, HNSWIndex.size in *.
    rewrite Hd, N.eqb_refl. simpl.
    by destruct (N.eqb_spec (HNSWIndex.num_elements_ s) 0).
  - intros dimension config s0. unfold HNSWIndex.create, HNSWIndex.index_config_of.
    destruct (us_make _ _ _) as [g|]; [|done].
    intros [= <-]. by exists g.
Qed.

End Override.

(** C6 as stated fails: three vectors stored, [ef_search = 1], query equal
    to the third vector, [k = 1], override [ef = 3].  With the candidate
    list sized to [max(3, 1, 1) = 3] the flat scan reaches the third
    vector and scores it 0.0; the code returns the first vector at 1.0,
    as it does without any override. *)
Lemma ef_override_without_effect :
  ef_search (HNSWIndex.config_ Demo.three) = 1 /\
  Spec.effective_ef 3 (ef_search (HNSWIndex.config_ Demo.three)) 1 = 3 /\
  Spec.search [5; 6] 1 3 Demo.three =
    Ok [{| r_id := "c"; r_distance := f32_zero; r_data := 3 |}] /\
  HNSWIndex.search [5; 6] 1 3 Demo.three =
    Ok [{| r_id := "a"; r_distance := f32_one; r_data := 1 |}] /\
  HNSWIndex.search [5; 6] 1 3 Demo.three <> Spec.search [5; 6] 1 3 Demo.three /\
  HNSWIndex.search [5; 6] 1 3 Demo.three = HNSWIndex.search [5; 6] 1 0 Demo.three.
Proof. vm_compute. repeat split. discriminate. Qed.

Lemma search_ignores_ef_witness :
  HNSWIndex.search [5; 6] 1 3 Demo.three =
    Ok (omap (HNSWIndex.result_of Demo.three)
             (us_search (HNSWIndex.index_ Demo.three) [5; 6]
                        (N.min 1 (HNSWIndex.size Demo.three)))).
Proof.
  destruct (search_ignores_ef [5; 6] 1 3 0 Demo.three) as (_ & Hcall & _).
  apply Hcall; vm_compute; [reflexivity | discriminate].
Defined.

(** ** Unknown collections *)

Section Storage.
Context `{USearch}.

(** C9, as the code has it: [insert], [batch_insert], [search] and
    [batch_search] throw "Collection not found" for an unknown
    collection and leave the manager as it was; [remove] returns [false]
    and [get] returns null, which is also what they return for an
    existing collection that lacks the id. *)
Theorem unknown_collection_outcomes (st : VectorStorage.t) (collection : string) :
  VectorStorage.collections_ st !! collection = None ->
  (forall now v id md,
     VectorStorage.insert now collection v id md st =
       (st, Throw (VectorStorage.not_found collection))) /\
  (forall clock vectors,
     VectorStorage.batch_insert clock collection vectors st =
       (st, Throw (VectorStorage.not_found collection))) /\
  (forall query k ef,
     VectorStorage.search collection query k ef st =
       Throw (VectorStorage.not_found collection)) /\
  (forall hw interleave queries k ef,
     VectorStorage.batch_search hw interleave collection queries k ef st =
       Some (Throw (VectorStorage.not_found collection))) /\
  (forall id, VectorStorage.remove collection id st = (st, Ok false)) /\
  (forall id, VectorStorage.get collection id st = None) /\
  (forall (other id : string) (index : HNSWIndex.t),
     VectorStorage.collections_ st !! other = Some index ->
     HNSWIndex.id_to_key_ index !! id = None ->
     (VectorStorage.remove other id st).2 = Ok false /\
     VectorStorage.get other id st = None).
Proof.
  intros Hc.
  unfold VectorStorage.insert, VectorStorage.batch_insert, VectorStorage.search,
    VectorStorage.batch_search, VectorStorage.remove, VectorStorage.get.
  rewrite Hc. do 6 (split; [done|]).
  intros other id index Hother Hid. rewrite Hother.
  unfold HNSWIndex.remove, HNSWIndex.get. by rewrite Hid.
Qed.

End Storage.

(** C9 as stated fails: [remove] and [get] answer the same for the
    unknown collection ["nope"] as for the existing collection ["docs"]
    that has no record ["x"]. *)
Lemma remove_get_unknown_collection_indistinct :
  VectorStorage.collection_exists "nope" Demo.storage = false /\
  VectorStorage.collection_exists "docs" Demo.storage = true /\
  (VectorStorage.remove "nope" "x" Demo.storage).2 = Ok false /\
  (VectorStorage.remove "docs" "x" Demo.storage).2 = Ok false /\
  VectorStorage.get "nope" "x" Demo.storage = None /\
  VectorStorage.get "docs" "x" Demo.storage = None.
Proof. vm_compute. repeat split. Qed.

Lemma unknown_collection_outcomes_witness :
  VectorStorage.search "nope" [1; 2] 1 0 Demo.storage =
    Throw (VectorStorage.not_found "nope") /\
  VectorStorage.remove "nope" "x" Demo.storage = (Demo.storage, Ok false) /\
  (VectorStorage.remove "docs" "x" Demo.storage).2 = Ok false.
Proof.
  destruct (unknown_collection_outcomes Demo.storage "nope" eq_refl)
    as (_ & _ & Hsearch & _ & Hremove & _ & Hother).
  split; [apply Hsearch|]. split; [apply Hremove|].
  apply (Hother "docs"%string "x"%string Demo.one); reflexivity.
Defined.

(** ** batch_search *)

Lemma sequence_app {A : Type} (l1 l2 : list (outcome A)) :
  sequence (l1 ++ l2) =
    match sequence l1 with
    | Throw e => Throw e
    | Ok r1 =>
        match sequence l2 with
        | Ok r2 => Ok (r1 ++ r2)
        | Throw e => Throw e
        end
    end.
Proof.
  induction l1 as [|[a|e] l1 IH]; simpl.
  - by destruct (sequence l2).
  - rewrite IH. destruct (sequence l1); [|done]. by destruct (sequence l2).
  - done.
Qed.

Lemma sequence_Ok_length {A : Type} (l : list (outcome A)) (rs : list A) :
  sequence l = Ok rs -> length rs = length l.
Proof.
  revert rs. induction l as [|[a|e] l IH]; intros rs; simpl.
  - by intros [= <-].
  - destruct (sequence l); [|done]. intros [= <-]. simpl. f_equal. by apply IH.
  - done.
Qed.

Lemma sequence_Ok_lookup {A : Type} (l : list (outcome A)) (rs : list A) (i : nat)
    (o : outcome A) :
  sequence l = Ok rs -> l !! i = Some o -> exists r, rs !! i = Some r /\ o = Ok r.
Proof.
  revert rs i. induction l as [|[a|e] l IH]; intros rs i; simpl; [done| |done].
  destruct (sequence l) as [rs'|]; [|done]. intros [= <-].
  destruct i as [|i]; simpl.
  - intros [= <-]. by exists a.
  - by apply IH.
Qed.

Lemma sequence_all_Ok {A : Type} (l : list (outcome A)) :
  Forall (fun o => is_ok o = true) l -> exists rs, sequence l = Ok rs.
Proof.
  induction 1 as [|[a|e] l Ho _ [rs IH]]; simpl; [by eexists| |done].
  rewrite IH. by eexists.
Qed.

Section BatchSearch.
Context `{USearch}.
Variables (queries : list (list float)) (k ef : N) (s : HNSWIndex.t).

Local Abbreviation searches qs := (map (fun q : list float => HNSWIndex.search q k ef s) qs).

Lemma sequential_sequence (qs : list (list float)) :
  forall results : list (list HNSWResult),
    HNSWIndex.sequential k ef s qs results =
      match sequence (searches qs) with
      | Ok rs => Ok (results ++ rs)
      | Throw e => Throw e
      end.
Proof.
  induction qs as [|q qs IH]; intros results; simpl.
  - by rewrite app_nil_r.
  - destruct (HNSWIndex.search q k ef s) as [r|e]; [|done].
    rewrite IH. destruct (sequence _); [|done]. by rewrite <- app_assoc.
Qed.

Lemma worker_sequence (count : nat) :
  forall i : nat,
    (i + count <= length queries)%nat ->
    match sequence (searches (take count (drop i queries))) with
    | Ok rs => HNSWIndex.worker queries k ef s i count = (zip (seq i count) rs, Ok tt)
    | Throw e => (HNSWIndex.worker queries k ef s i count).2 = Throw e
    end.
Proof.
  induction count as [|count IH]; intros i Hi; simpl; [done|].
  destruct (queries !! i) as [q|] eqn:Hq.
  2: { apply lookup_ge_None in Hq. lia. }
  rewrite (drop_S _ _ _ Hq). simpl.
  destruct (HNSWIndex.search q k ef s) as [r|e]; [|done].
  specialize (IH (S i) ltac:(lia)).
  destruct (sequence _) as [rs|e].
  - by rewrite IH.
  - by destruct (HNSWIndex.worker queries k ef s (S i) count).
Qed.


Lemma drop_all_searches (n : nat) :
  (length queries <= n)%nat -> sequence (searches (drop n queries)) = Ok [].
Proof. intros Hn. by rewrite drop_ge. Qed.

(** The tasks launched from task [t] on cover the queries from index
    [t * chunk_size] on, in order. *)
Lemma tasks_sequence (chunk_size : N) (remaining : nat) :
  forall t : N,
    1 <= chunk_size ->
    len queries <= (t + N.of_nat remaining) * chunk_size ->
    let tasks :=
      map (fun r : N * N =>
             HNSWIndex.worker queries k ef s (N.to_nat r.1) (N.to_nat (r.2 - r.1)))
          (HNSWIndex.spawn (len queries) chunk_size t remaining) in
    match sequence (searches (drop (N.to_nat (t * chunk_size)) queries)) with
    | Ok rs =>
        HNSWIndex.join (map snd tasks) = Ok tt /\
        concat (map fst tasks) = zip (seq (N.to_nat (t * chunk_size)) (length rs)) rs
    | Throw e => HNSWIndex.join (map snd tasks) = Throw e
    end.
Proof.
  unfold len.
  induction remaining as [|remaining IH]; intros t Hc Hcover; simpl.
  - rewrite drop_all_searches by lia. done.
  - destruct (N.leb_spec (N.of_nat (length queries)) (t * chunk_size)) as [Hle|Hlt].
    { rewrite drop_all_searches by lia. done. }
    simpl.
    set (a := N.to_nat (t * chunk_size)).
    set (cnt := N.to_nat (N.min (t * chunk_size + chunk_size) (N.of_nat (length queries))
                          - t * chunk_size)).
    assert (Hrange : (a + cnt <= length queries)%nat) by (subst a cnt; lia).
    assert (Hnext : drop (N.to_nat ((t + 1) * chunk_size)) queries = drop (a + cnt) queries).
    { destruct (N.le_gt_cases (t * chunk_size + chunk_size) (N.of_nat (length queries))).
      - f_equal. subst a cnt. lia.
      - rewrite !drop_ge; [done | subst a cnt; lia | lia]. }
    specialize (IH (t + 1) Hc ltac:(lia)). simpl in IH. rewrite Hnext in IH.
    pose proof (worker_sequence cnt a Hrange) as Hw.
    rewrite <- (take_drop cnt (drop a queries)), map_app, sequence_app.
    rewrite drop_drop.
    destruct (sequence (searches (take cnt (drop a queries)))) as [rs1|e] eqn:E1.
    2: { by rewrite Hw. }
    rewrite Hw. simpl.
    destruct (sequence (searches (drop (a + cnt) queries))) as [rs2|e] eqn:E2; [|done].
    destruct IH as [Hjoin Hwrites]. split; [done|].
    rewrite Hwrites.
    apply sequence_Ok_length in E1 as Hl1. rewrite length_map, length_take, length_drop in Hl1.
    apply sequence_Ok_length in E2 as Hl2. rewrite length_map, length_drop in Hl2.
    rewrite length_app, seq_app, zip_with_app by (rewrite length_seq; lia).
    assert (Hcnt : length rs1 = cnt) by lia. rewrite Hcnt. f_equal.
    destruct rs2 as [|r2 rs2]; [done|]. simpl in Hl2.
    replace (N.to_nat ((t + 1) * chunk_size)) with (a + cnt)%nat; [done|].
    subst a cnt. lia.
Qed.

End BatchSearch.

(** Index-disjoint writes: the order in which they reach [results] does
    not matter. *)
Section Writes.
Implicit Types (ws : list (nat * list HNSWResult)) (init rs : list (list HNSWResult)).
Local Abbreviation put := HNSWIndex.store.

Lemma foldl_put_length ws : forall init, length (foldl put init ws) = length init.
Proof.
  induction ws as [|w ws IH]; intros init; simpl; [done|].
  rewrite IH. apply length_insert.
Qed.

Lemma foldl_put_other ws (j : nat) :
  forall init, j ∉ ws.*1 -> foldl put init ws !! j = init !! j.
Proof.
  induction ws as [|[i x] ws IH]; intros init Hj; simpl; [done|].
  rewrite fmap_cons, not_elem_of_cons in Hj. destruct Hj as [Hne Hj]. simpl in Hne.
  rewrite IH by done. unfold HNSWIndex.store. simpl. by rewrite list_lookup_insert_ne.
Qed.

Lemma foldl_put_lookup ws (j : nat) (r : list HNSWResult) :
  forall init,
    NoDup ws.*1 -> (j, r) ∈ ws -> (j < length init)%nat ->
    foldl put init ws !! j = Some r.
Proof.
  induction ws as [|[i x] ws IH]; intros init Hnd Hin Hj; simpl.
  - by apply elem_of_nil in Hin.
  - rewrite fmap_cons in Hnd. apply NoDup_cons in Hnd as [Hi Hnd]. simpl in Hi.
    apply elem_of_cons in Hin as [[= -> ->]|Hin].
    + rewrite foldl_put_other by done. unfold HNSWIndex.store. simpl.
      by apply list_lookup_insert_eq.
    + apply IH; [done | done |]. unfold HNSWIndex.store. by rewrite length_insert.
Qed.

Lemma foldl_put_permutation ws init rs :
  length init = length rs ->
  ws ≡ₚ zip (seq 0 (length rs)) rs ->
  foldl put init ws = rs.
Proof.
  intros Hlen Hperm. apply list_eq. intros j.
  destruct (rs !! j) as [r|] eqn:Hr.
  - apply foldl_put_lookup.
    + rewrite Hperm, fst_zip by (rewrite length_seq; lia). apply NoDup_seq.
    + rewrite Hperm. apply list_elem_of_lookup. exists j.
      rewrite lookup_zip_with, lookup_seq_lt by (by apply lookup_lt_Some in Hr).
      simpl. by rewrite Hr.
    + apply lookup_lt_Some in Hr. lia.
  - apply lookup_ge_None. rewrite foldl_put_length.
    apply lookup_ge_None in Hr. lia.
Qed.

End Writes.

Lemma chunks_cover (n threads : N) :
  1 <= threads -> 1 <= n ->
  1 <= (n + threads - 1) / threads /\ n <= (0 + threads) * ((n + threads - 1) / threads).
Proof.
  intros Ht Hn.
  pose proof (N.div_mod (n + threads - 1) threads ltac:(lia)) as Hdm.
  pose proof (N.mod_upper_bound (n + threads - 1) threads ltac:(lia)) as Hm.
  split.
  - apply N.div_le_lower_bound; lia.
  - lia.
Qed.

Section BatchSearchTheorem.
Context `{USearch}.

(** C5: [batch_search] returns what searching the queries one by one
    returns: the list of the single results in the order of the queries,
    or the exception of the first query that fails.  This holds for the
    sequential path and, when the platform reports at least one hardware
    thread, for the parallel path, in whatever order the writes of the
    worker tasks land. *)
Theorem batch_search_pointwise (hardware_concurrency : N)
    (interleave : list (list (nat * list HNSWResult)) -> list (nat * list HNSWResult))
    (queries : list (list float)) (k ef : N) (s : HNSWIndex.t) :
  (forall ws, interleave ws ≡ₚ concat ws) ->
  1 <= hardware_concurrency \/ len queries <= 100 ->
  let single := map (fun q : list float => HNSWIndex.search q k ef s) queries in
  HNSWIndex.batch_search hardware_concurrency interleave queries k ef s =
    Some (sequence single) /\
  (forall rs : list (list HNSWResult),
     sequence single = Ok rs ->
     length rs = length queries /\
     forall (i : nat) (q : list float),
       queries !! i = Some q ->
       exists r, rs !! i = Some r /\ HNSWIndex.search q k ef s = Ok r) /\
  (Forall (fun q : list float => len q = HNSWIndex.dimension_ s) queries ->
   exists rs : list (list HNSWResult), sequence single = Ok rs).
Proof.
  intros Hperm Hhw single. split; [|split].
  - unfold HNSWIndex.batch_search.
    destruct (N.leb_spec (len queries) 100) as [Hsmall|Hlarge].
    { rewrite sequential_sequence. fold single. by destruct (sequence single). }
    destruct Hhw as [Hhw|Hhw]; [|lia].
    set (threads := N.min (N.min hardware_concurrency (N.max 1 (len queries / 100))) 32).
    assert (Hthreads : 1 <= threads).
    { subst threads. pose proof (N.div_le_lower_bound (len queries) 100 1). lia. }
    destruct (N.eqb_spec threads 0) as [?|_]; [lia|].
    destruct (chunks_cover (len queries) threads Hthreads ltac:(lia)) as [Hc Hcover].
    pose proof (tasks_sequence queries k ef s _ (N.to_nat threads) 0 Hc) as Htasks.
    rewrite N2Nat.id in Htasks. specialize (Htasks Hcover). simpl in Htasks.
    rewrite N.mul_0_l in Htasks. change (N.to_nat 0) with 0%nat in Htasks.
    rewrite drop_0 in Htasks. fold single in Htasks. f_equal.
    destruct (sequence single) as [rs|e] eqn:Hseq.
    + destruct Htasks as [-> Hwrites]. f_equal.
      apply sequence_Ok_length in Hseq as Hlen. subst single. rewrite length_map in Hlen.
      apply foldl_put_permutation.
      * rewrite length_replicate. unfold len. lia.
      * by rewrite Hperm, Hwrites.
    + by rewrite Htasks.
  - intros rs Hseq. split.
    + apply sequence_Ok_length in Hseq. subst single. by rewrite length_map in Hseq.
    + intros i q Hq.
      apply (sequence_Ok_lookup _ _ i (HNSWIndex.search q k ef s) Hseq).
      subst single.
      change (map ?f queries) with (f <$> queries). by rewrite list_lookup_fmap, Hq.
  - intros Hdim. apply sequence_all_Ok. subst single.
    apply Forall_map. eapply Forall_impl; [exact Hdim|].
    intros q Hq. simpl. unfold HNSWIndex.search. rewrite Hq, N.eqb_refl. simpl.
    by destruct (_ =? 0).
Qed.

End BatchSearchTheorem.

(** Where the platform reports no hardware thread count, the parallel
    path computes its chunk size by a division by zero. *)
Lemma batch_search_zero_concurrency `{USearch}
    (interleave : list (list (nat * list HNSWResult)) -> list (nat * list HNSWResult))
    (queries : list (list float)) (k ef : N) (s : HNSWIndex.t) :
  100 < len queries ->
  HNSWIndex.batch_search 0 interleave queries k ef s = None.
Proof.
  intros Hn. unfold HNSWIndex.batch_search.
  destruct (N.leb_spec (len queries) 100); [lia|].
  by rewrite N.min_0_l.
Qed.

(** 250 queries on four hardware threads (two tasks of 125 queries),
    the writes landing in the reverse of the launch order. *)
Lemma batch_search_pointwise_witness :
  HNSWIndex.batch_search 4 (fun ws => reverse (concat ws))
    (replicate 125 [5; 6] ++ replicate 125 [1; 2]) 1 0 Demo.three =
  Some (sequence (map (fun q : list float => HNSWIndex.search q 1 0 Demo.three)
                      (replicate 125 [5; 6] ++ replicate 125 [1; 2]))).
Proof.
  apply (batch_search_pointwise 4 (fun ws => reverse (concat ws))
           (replicate 125 [5; 6] ++ replicate 125 [1; 2]) 1 0 Demo.three).
  - intros ws. apply reverse_Permutation.
  - left. lia.
Defined.

Example batch_search_parallel_run :
  HNSWIndex.batch_search 4 (fun ws => reverse (concat ws))
    (replicate 125 [5; 6] ++ replicate 125 [1; 2]) 1 0 Demo.three =
  Some (Ok (replicate 125 [{| r_id := "a"; r_distance := f32_one; r_data := 1 |}] ++
            replicate 125 [{| r_id := "a"; r_distance := f32_zero; r_data := 1 |}])).
Proof. vm_compute. reflexivity. Qed.

(** ** save and load *)

(** *** Reading back what was written *)

#[local] Arguments le_bytes : simpl never.
#[local] Arguments le_value : simpl never.
#[local] Arguments list_byte_of_string : simpl never.
#[local] Arguments string_of_list_byte : simpl never.
#[local] Arguments ifs_read : simpl never.
#[local] Arguments read_u64 : simpl never.
#[local] Arguments read_string : simpl never.

Lemma ifs_read_app (bs rest : list byte) (n : nat) :
  n = length bs -> ifs_read n (bs ++ rest) = Some (bs, rest).
Proof.
  intros ->. unfold ifs_read. rewrite decide_True by (rewrite length_app; lia).
  by rewrite take_app_length, drop_app_length.
Qed.

Lemma read_u64_le_bytes (n : N) (rest : list byte) :
  n < u64_modulus -> read_u64 (le_bytes 8 n ++ rest) = Some (n, rest).
Proof.
  intros Hn. unfold read_u64.
  rewrite ifs_read_app by (by rewrite length_le_bytes). cbn.
  by rewrite (le_value_u64 n Hn).
Qed.

Lemma length_list_byte_of_string (s : string) :
  length (list_byte_of_string s) = String.length s.
Proof.
  unfold list_byte_of_string. rewrite length_map.
  induction s as [|a s IH]; cbn; [done | by rewrite IH].
Qed.

Lemma read_string_bytes (s : string) (rest : list byte) :
  read_string (str_size s) (list_byte_of_string s ++ rest) = Some (s, rest).
Proof.
  unfold read_string, str_size. rewrite Nat2N.id.
  rewrite ifs_read_app by (by rewrite length_list_byte_of_string). cbn.
  by rewrite string_of_list_byte_of_string.
Qed.

Lemma length_bytes_of_floats (vs : list float) :
  length (bytes_of_floats vs) = (4 * length vs)%nat.
Proof.
  unfold bytes_of_floats. induction vs as [|v vs IH]; [done|].
  cbn [map concat]. rewrite length_app, length_le_bytes, IH. simpl. lia.
Qed.

Lemma floats_of_bytes_of_floats (vs : list float) :
  Forall (fun x : float => x < 2 ^ 32) vs ->
  floats_of_bytes (length vs) (bytes_of_floats vs) = vs.
Proof.
  unfold bytes_of_floats. induction 1 as [|v vs Hv _ IH]; [done|].
  cbn [map concat length floats_of_bytes].
  rewrite (take_app_length' (le_bytes 4 v)), (drop_app_length' (le_bytes 4 v))
    by (by rewrite length_le_bytes).
  by rewrite (le_value_f32 v Hv), IH.
Qed.

#[local] Arguments bytes_of_floats : simpl never.
#[local] Arguments floats_of_bytes : simpl never.

Lemma string_append_ne (path suffix : string) :
  suffix <> ""%string -> path +:+ suffix <> path.
Proof.
  intros Hs. induction path as [|a path IH]; simpl; [done|].
  intros [= Heq]. by apply IH.
Qed.

Lemma foldl_insert_permutation `{Countable K} {A : Type} (m : gmap K A) (l : list (K * A)) :
  l ≡ₚ map_to_list m ->
  foldl (fun (acc : gmap K A) (kv : K * A) => <[kv.1 := kv.2]> acc) ∅ l = m.
Proof.
  intros Hperm.
  assert (Hfold : forall l' : list (K * A),
            foldl (fun (acc : gmap K A) (kv : K * A) => <[kv.1 := kv.2]> acc) ∅ l' =
            list_to_map (reverse l')).
  { induction l' as [|[k a] l' IH] using rev_ind; [done|].
    by rewrite foldl_snoc, reverse_snoc, IH. }
  rewrite Hfold, <- (list_to_map_to_list m).
  apply list_to_map_proper.
  - rewrite fmap_reverse, reverse_Permutation, Hperm. apply NoDup_fst_map_to_list.
  - by rewrite reverse_Permutation.
Qed.

Ltac bind_step := cbn [mbind option_bind].

Section Sidecar.
Variable meta_order : gmap string string -> list (string * string).
Hypothesis meta_order_permutation : forall md, meta_order md ≡ₚ map_to_list md.

Lemma load_metadata_layout (pairs : list (string * string)) :
  forall (rest : list byte) (md0 : gmap string string),
    Forall pair_fits pairs ->
    HNSWIndex.load_metadata (length pairs) (concat (map Spec.pair_layout pairs) ++ rest) md0 =
      Some (foldl (fun (acc : gmap string string) (kv : string * string) =>
                     <[kv.1 := kv.2]> acc) md0 pairs, rest).
Proof.
  induction pairs as [|[k v] pairs IH]; intros rest md0 Hfit; [done|].
  apply Forall_cons in Hfit as [[Hk Hv] Hfit]. cbn [fst snd] in Hk, Hv.
  cbn [length map concat HNSWIndex.load_metadata foldl]. unfold Spec.pair_layout.
  cbn [fst snd]. rewrite <- !app_assoc.
  rewrite read_u64_le_bytes by done. bind_step.
  rewrite read_string_bytes. bind_step.
  rewrite read_u64_le_bytes by done. bind_step.
  rewrite read_string_bytes. bind_step.
  by apply IH.
Qed.

Lemma meta_order_fits (md : gmap string string) :
  map_Forall (fun k v : string => str_size k < u64_modulus /\ str_size v < u64_modulus) md ->
  Forall pair_fits (meta_order md).
Proof.
  intros Hmd. rewrite meta_order_permutation.
  apply map_Forall_to_list in Hmd. eapply Forall_impl; [exact Hmd|].
  by intros [k v].
Qed.

Lemma meta_order_length (md : gmap string string) :
  length (meta_order md) = base.size md.
Proof. by rewrite meta_order_permutation, length_map_to_list. Qed.

Lemma load_records_layout (records : list (key_t * VectorData)) :
  forall (rest : list byte) (data : gmap key_t VectorData) (ids : gmap string key_t),
    Forall entry_fits records ->
    HNSWIndex.load_records (length records)
      (concat (map (fun entry : key_t * VectorData =>
                      Spec.record_layout (meta_order (vd_metadata entry.2)) entry) records)
       ++ rest) data ids =
      Some (foldl (fun (acc : gmap key_t VectorData) (e : key_t * VectorData) =>
                     <[e.1 := e.2]> acc) data records,
            foldl (fun (acc : gmap string key_t) (e : key_t * VectorData) =>
                     <[vd_id e.2 := e.1]> acc) ids records,
            rest).
Proof.
  induction records as [|[key [id values md]] records IH]; intros rest data ids Hfit; [done|].
  apply Forall_cons in Hfit as [[Hkey (Hid & Hvs & Hfl & Hmd & Hpairs)] Hfit].
  cbn [fst snd vd_id vd_values vd_metadata] in Hkey, Hid, Hvs, Hfl, Hmd, Hpairs.
  cbn [length map concat HNSWIndex.load_records foldl]. unfold Spec.record_layout.
  cbn [fst snd vd_id vd_values vd_metadata]. rewrite <- !app_assoc.
  rewrite read_u64_le_bytes by done. bind_step.
  rewrite read_u64_le_bytes by done. bind_step.
  rewrite read_string_bytes. bind_step.
  rewrite read_u64_le_bytes by (unfold len in *; lia). bind_step.
  rewrite (wrap64_small _ Hvs).
  fold (bytes_of_floats values).
  rewrite ifs_read_app by (rewrite length_bytes_of_floats; unfold len; lia). bind_step.
  rewrite read_u64_le_bytes by (unfold len; rewrite meta_order_length; done). bind_step.
  unfold len. rewrite !Nat2N.id.
  rewrite load_metadata_layout by (by apply meta_order_fits). bind_step.
  rewrite (foldl_insert_permutation md) by apply meta_order_permutation.
  rewrite floats_of_bytes_of_floats by done.
  by apply IH.
Qed.


(** *** What save writes *)

Lemma save_meta_pairs_layout (pairs : list (string * string)) :
  forall ofs : list byte,
    foldl HNSWIndex.save_meta_pair ofs pairs = ofs ++ concat (map Spec.pair_layout pairs).
Proof.
  induction pairs as [|[k v] pairs IH]; intros ofs; cbn [foldl map concat].
  - by rewrite app_nil_r.
  - rewrite IH. unfold HNSWIndex.save_meta_pair, Spec.pair_layout, ofs_write.
    cbn [fst snd]. by rewrite <- !app_assoc.
Qed.

Lemma save_record_layout (ofs : list byte) (entry : key_t * VectorData) :
  len (vd_values entry.2) * 4 < u64_modulus ->
  HNSWIndex.save_record meta_order ofs entry =
    ofs ++ Spec.record_layout (meta_order (vd_metadata entry.2)) entry.
Proof.
  intros Hvs. unfold HNSWIndex.save_record, Spec.record_layout, ofs_write.
  rewrite save_meta_pairs_layout, (wrap64_small _ Hvs).
  rewrite take_ge by (rewrite length_bytes_of_floats; unfold len; lia).
  unfold len at 3. rewrite meta_order_length.
  unfold bytes_of_floats. by rewrite <- !app_assoc.
Qed.

Lemma save_records_layout (records : list (key_t * VectorData)) :
  forall ofs : list byte,
    Forall entry_fits records ->
    foldl (HNSWIndex.save_record meta_order) ofs records =
      ofs ++ concat (map (fun entry : key_t * VectorData =>
                            Spec.record_layout (meta_order (vd_metadata entry.2)) entry)
                         records).
Proof.
  induction records as [|entry records IH]; intros ofs Hfit; cbn [foldl map concat].
  - by rewrite app_nil_r.
  - apply Forall_cons in Hfit as [[_ (_ & Hvs & _)] Hfit].
    rewrite IH, save_record_layout by done. by rewrite <- app_assoc.
Qed.

End Sidecar.

(** *** The id map read back *)

Section RoundTrip.
Context `{USearch}.

Lemma consistent_ids_injective (s : HNSWIndex.t) (e1 e2 : key_t * VectorData) :
  consistent s ->
  e1 ∈ map_to_list (HNSWIndex.data_ s) -> e2 ∈ map_to_list (HNSWIndex.data_ s) ->
  vd_id e1.2 = vd_id e2.2 -> e1 = e2.
Proof.
  intros Hc. destruct e1 as [k1 d1], e2 as [k2 d2]. simpl.
  rewrite !elem_of_map_to_list. intros H1 H2 Hid.
  assert (Hk1 : HNSWIndex.id_to_key_ s !! vd_id d1 = Some k1) by (apply Hc; eauto).
  assert (Hk2 : HNSWIndex.id_to_key_ s !! vd_id d1 = Some k2) by (apply Hc; eauto).
  rewrite Hk1 in Hk2. injection Hk2 as <-. congruence.
Qed.

Lemma ids_read_back (s : HNSWIndex.t) (records : list (key_t * VectorData)) :
  consistent s ->
  records ≡ₚ map_to_list (HNSWIndex.data_ s) ->
  foldl (fun (acc : gmap string key_t) (e : key_t * VectorData) =>
           <[vd_id e.2 := e.1]> acc) ∅ records = HNSWIndex.id_to_key_ s.
Proof.
  intros Hc Hperm.
  set (swap := fun e : key_t * VectorData => (vd_id e.2, e.1)).
  assert (Hfold : forall l : list (key_t * VectorData),
            foldl (fun (acc : gmap string key_t) (e : key_t * VectorData) =>
                     <[vd_id e.2 := e.1]> acc) ∅ l =
            list_to_map (reverse (swap <$> l))).
  { induction l as [|e l IH] using rev_ind; [done|].
    by rewrite foldl_snoc, fmap_snoc, reverse_snoc, IH. }
  rewrite Hfold. apply map_eq. intros id. apply option_eq. intros key.
  assert (Hnd : NoDup (reverse (swap <$> records)).*1).
  { rewrite fmap_reverse, reverse_Permutation, <- list_fmap_compose, Hperm.
    apply NoDup_fmap_2_strong; [|apply NoDup_map_to_list].
    intros e1 e2 He1 He2 Hid. by apply (consistent_ids_injective s). }
  rewrite <- elem_of_list_to_map by done.
  rewrite elem_of_reverse, list_elem_of_fmap, (Hc id key).
  split.
  - intros ([k d] & [= -> ->] & Hin). rewrite Hperm in Hin.
    apply elem_of_map_to_list in Hin. eauto.
  - intros (d & Hd & <-). exists (key, d). split; [done|].
    rewrite Hperm. by apply elem_of_map_to_list.
Qed.



End RoundTrip.

(** *** The states the operations build satisfy the invariants *)

Section Invariants.
Context `{USearch}.

Lemma keys_below_counter_fresh (s : HNSWIndex.t) :
  keys_below_counter s -> HNSWIndex.data_ s !! HNSWIndex.next_key_ s = None.
Proof.
  intros Hk. destruct (HNSWIndex.data_ s !! HNSWIndex.next_key_ s) eqn:E; [|done].
  specialize (Hk (HNSWIndex.next_key_ s) ltac:(eauto)). lia.
Qed.

Lemma insert_consistent (now : Z) (v : list float) (id : string)
    (md : gmap string string) (s : HNSWIndex.t) :
  consistent s ->
  HNSWIndex.data_ s !! HNSWIndex.next_key_ s = None ->
  consistent (HNSWIndex.insert now v id md s).1.
Proof.
  intros Hc Hfresh.
  destruct (HNSWIndex.insert now v id md s) as [s' [rid|e]] eqn:Hi.
  - apply insert_Ok_inv in Hi as (_ & _ & Hfree & Hdata & Hids & _). simpl.
    intros id0 k0. rewrite Hdata, Hids, !lookup_insert. split.
    + case_decide as Hid.
      * intros [= <-]. subst id0. rewrite decide_True by done. eauto.
      * intros Hk0. apply Hc in Hk0 as (d0 & Hd0 & Hid0).
        rewrite decide_False by congruence. eauto.
    + intros (d0 & Hd0 & Hid0). case_decide as Hk.
      * injection Hd0 as <-. simpl in Hid0. subst. by rewrite decide_True.
      * assert (Hk0 : HNSWIndex.id_to_key_ s !! id0 = Some k0) by (apply Hc; eauto).
        rewrite decide_False by congruence. done.
  - unfold HNSWIndex.insert in Hi.
    destruct (negb _); [by injection Hi as <- _|].
    destruct (decide _); [by injection Hi as <- _|].
    destruct (us_add _ _ _); [done|]. by injection Hi as <- _.
Qed.

Lemma insert_keys_below_counter (now : Z) (v : list float) (id : string)
    (md : gmap string string) (s : HNSWIndex.t) :
  keys_below_counter s ->
  HNSWIndex.next_key_ s + 1 < u64_modulus ->
  keys_below_counter (HNSWIndex.insert now v id md s).1.
Proof.
  intros Hk Hn. unfold HNSWIndex.insert.
  destruct (negb _); [done|]. destruct (decide _); [done|].
  assert (Hsucc : u64_succ (HNSWIndex.next_key_ s) = HNSWIndex.next_key_ s + 1)
    by (by apply wrap64_small).
  destruct (us_add _ _ _); intros key; simpl; rewrite Hsucc.
  - rewrite lookup_insert. case_decide; [lia|]. intros Hs. specialize (Hk key Hs). lia.
  - intros Hs. specialize (Hk key Hs). lia.
Qed.

Lemma remove_consistent (id : string) (s : HNSWIndex.t) :
  consistent s -> consistent (HNSWIndex.remove id s).1.
Proof.
  intros Hc. unfold HNSWIndex.remove.
  destruct (HNSWIndex.id_to_key_ s !! id) as [key|] eqn:Hid; [|done].
  destruct (us_remove _ _); [|done]. simpl.
  apply Hc in Hid as Hkey. destruct Hkey as (d & Hd & Hdid).
  intros id0 k0. simpl. rewrite !lookup_delete. split.
  - case_decide as Hne; [done|]. intros Hk0.
    apply Hc in Hk0 as (d0 & Hd0 & Hid0).
    case_decide as Hk; [|eauto]. subst k0. congruence.
  - intros (d0 & Hd0 & Hid0). case_decide as Hk; [done|].
    assert (Hk0 : HNSWIndex.id_to_key_ s !! id0 = Some k0) by (apply Hc; eauto).
    case_decide as Hne; [|done]. subst id0. congruence.
Qed.

Lemma insert_next_key (now : Z) (v : list float) (id : string)
    (md : gmap string string) (s : HNSWIndex.t) :
  HNSWIndex.next_key_ s + 1 < u64_modulus ->
  HNSWIndex.next_key_ (HNSWIndex.insert now v id md s).1 <= HNSWIndex.next_key_ s + 1.
Proof.
  intros Hn. unfold HNSWIndex.insert.
  destruct (negb _); [simpl; lia|]. destruct (decide _); [simpl; lia|].
  assert (Hsucc : u64_succ (HNSWIndex.next_key_ s) = HNSWIndex.next_key_ s + 1)
    by (by apply wrap64_small).
  destruct (us_add _ _ _); simpl; lia.
Qed.

Lemma remove_keys_below_counter (id : string) (s : HNSWIndex.t) :
  keys_below_counter s ->
  keys_below_counter (HNSWIndex.remove id s).1 /\
  HNSWIndex.next_key_ (HNSWIndex.remove id s).1 = HNSWIndex.next_key_ s.
Proof.
  intros Hk. unfold HNSWIndex.remove.
  destruct (HNSWIndex.id_to_key_ s !! id) as [key|]; [|done].
  destruct (us_remove _ _); [|done]. split; [|done].
  intros k. simpl. rewrite lookup_delete. case_decide; [by intros [? ?]|]. apply Hk.
Qed.

Lemma create_invariants (dimension : N) (config : HNSWConfig) (s : HNSWIndex.t) :
  HNSWIndex.create dimension config = Ok s ->
  consistent s /\ keys_below_counter s /\ HNSWIndex.next_key_ s = 1.
Proof.
  unfold HNSWIndex.create. destruct (us_make _ _ _); [|done]. intros [= <-].
  split; [|split; [|done]].
  - intros id key. simpl. rewrite lookup_empty. split; [done|].
    intros (d & Hd & _). by rewrite lookup_empty in Hd.
  - intros key. simpl. rewrite lookup_empty. by intros [? ?].
Qed.

(** Inserts and removes keep the id map the inverse of the payload
    store, as long as the key counter does not wrap. *)
Lemma run_invariants (ops : list operation) :
  forall s : HNSWIndex.t,
    consistent s -> keys_below_counter s ->
    HNSWIndex.next_key_ s + len ops < u64_modulus ->
    consistent (run ops s) /\ keys_below_counter (run ops s) /\
    HNSWIndex.next_key_ (run ops s) <= HNSWIndex.next_key_ s + len ops.
Proof.
  unfold run, len.
  induction ops as [|o ops IH]; intros s Hc Hk Hn; cbn [foldl length] in *.
  - split; [done|]. split; [done | lia].
  - assert (Hstep : consistent (apply_operation s o) /\
                    keys_below_counter (apply_operation s o) /\
                    HNSWIndex.next_key_ (apply_operation s o) <= HNSWIndex.next_key_ s + 1).
    { destruct o as [now v id md|id]; cbn [apply_operation].
      - split; [|split].
        + apply insert_consistent; [done | by apply keys_below_counter_fresh].
        + apply insert_keys_below_counter; [done | lia].
        + apply insert_next_key. lia.
      - destruct (remove_keys_below_counter id s Hk) as [Hk' Hn'].
        split; [by apply remove_consistent|]. split; [done | lia]. }
    destruct Hstep as (Hc' & Hk' & Hn').
    destruct (IH (apply_operation s o) Hc' Hk' ltac:(lia)) as (Hc'' & Hk'' & Hn'').
    split; [done|]. split; [done | lia].
Qed.

(** Every index built from a new one by fewer than 2^64 - 1 inserts
    and removes has a consistent id map. *)
Lemma reachable_consistent (dimension : N) (config : HNSWConfig) (s0 : HNSWIndex.t)
    (ops : list operation) :
  HNSWIndex.create dimension config = Ok s0 ->
  1 + len ops < u64_modulus ->
  consistent (run ops s0).
Proof.
  intros Hnew Hn. apply create_invariants in Hnew as (Hc & Hk & Hone).
  apply run_invariants; [done | done | lia].
Qed.

End Invariants.

Lemma demo_empty_consistent : consistent Demo.empty.
Proof. intros id key. simpl. rewrite lookup_empty. split; [done|]. by intros (d & Hd & _). Qed.

Lemma demo_one_consistent : consistent Demo.one.
Proof. apply insert_consistent; [apply demo_empty_consistent | reflexivity]. Qed.

Lemma demo_one_representable : representable Demo.one.
Proof.
  split; [vm_compute; reflexivity|]. split; [vm_compute; reflexivity|].
  assert (Hdata : HNSWIndex.data_ Demo.one =
            {[ 1 := {| vd_id := "a"; vd_values := [1; 2]; vd_metadata := Demo.tags |} ]})
    by (vm_compute; reflexivity).
  intros key d. rewrite Hdata. intros [<- <-]%lookup_singleton_Some.
  split; [vm_compute; reflexivity|].
  split; [vm_compute; reflexivity|]. split; [vm_compute; reflexivity|].
  split; [repeat constructor|]. split; [vm_compute; reflexivity|].
  intros k v. unfold Demo.tags. cbn [vd_metadata]. intros [<- <-]%lookup_singleton_Some.
  split; vm_compute; reflexivity.
Qed.


(** ** remove *)

Section Remove.
Context `{USearch}.

Lemma consistent_get (s : HNSWIndex.t) (id : string) (d : VectorData) :
  consistent s ->
  HNSWIndex.get id s = Some d <->
  exists key, HNSWIndex.id_to_key_ s !! id = Some key /\
              HNSWIndex.data_ s !! key = Some d /\ vd_id d = id.
Proof.
  intros Hc. unfold HNSWIndex.get. split.
  - destruct (HNSWIndex.id_to_key_ s !! id) as [key|] eqn:Hid; [|done].
    intros Hd. exists key. split; [done|]. split; [done|].
    apply Hc in Hid as (d' & Hd' & Hid'). congruence.
  - intros (key & -> & Hd & _). done.
Qed.

Lemma remove_true_inv (id : string) (s s' : HNSWIndex.t) :
  HNSWIndex.remove id s = (s', Ok true) ->
  exists key : key_t,
    HNSWIndex.id_to_key_ s !! id = Some key /\
    HNSWIndex.id_to_key_ s' = delete id (HNSWIndex.id_to_key_ s) /\
    HNSWIndex.data_ s' = delete key (HNSWIndex.data_ s) /\
    HNSWIndex.num_elements_ s' = u64_pred (HNSWIndex.num_elements_ s) /\
    HNSWIndex.next_key_ s' = HNSWIndex.next_key_ s /\
    HNSWIndex.dimension_ s' = HNSWIndex.dimension_ s.
Proof.
  unfold HNSWIndex.remove.
  destruct (HNSWIndex.id_to_key_ s !! id) as [key|]; [|by intros [= _ ?]].
  destruct (us_remove _ _); [|done]. intros [= <-]. by exists key.
Qed.

Lemma remove_present (id : string) (s : HNSWIndex.t) (key : key_t) (index : index_t) :
  HNSWIndex.id_to_key_ s !! id = Some key ->
  us_remove key (HNSWIndex.index_ s) = Ok index ->
  (HNSWIndex.remove id s).2 = Ok true.
Proof. intros Hid Hrm. unfold HNSWIndex.remove. by rewrite Hid, Hrm. Qed.

Lemma remove_true_get (id : string) (s s' : HNSWIndex.t) :
  consistent s ->
  HNSWIndex.remove id s = (s', Ok true) ->
  HNSWIndex.get id s' = None /\
  forall other : string, other <> id -> HNSWIndex.get other s' = HNSWIndex.get other s.
Proof.
  intros Hc Hrm. apply remove_true_inv in Hrm as (key & Hid & Hids & Hdata & _).
  unfold HNSWIndex.get. rewrite Hids, Hdata. split.
  - by rewrite lookup_delete_eq.
  - intros other Hne. rewrite lookup_delete_ne by done.
    destruct (HNSWIndex.id_to_key_ s !! other) as [k|] eqn:Hother; [|done].
    apply lookup_delete_ne. intros <-.
    apply Hc in Hid as (d & Hd & Hdid). apply Hc in Hother as (d' & Hd' & Hdid').
    congruence.
Qed.

(** X1: removing a stored id returns [true]; afterwards [get] on it is
    absent, the element count is one lower, the key counter is where it
    was, every other id reads as before, and the id map still mirrors
    the payload store.  Removing an id that is not stored returns
    [false] and changes nothing. *)
Theorem remove_erases (id : string) (s : HNSWIndex.t) :
  (forall (key : key_t) (index : index_t),
     consistent s ->
     HNSWIndex.id_to_key_ s !! id = Some key ->
     us_remove key (HNSWIndex.index_ s) = Ok index ->
     (HNSWIndex.remove id s).2 = Ok true /\
     HNSWIndex.get id (HNSWIndex.remove id s).1 = None /\
     HNSWIndex.size (HNSWIndex.remove id s).1 = u64_pred (HNSWIndex.size s) /\
     HNSWIndex.next_key_ (HNSWIndex.remove id s).1 = HNSWIndex.next_key_ s /\
     (forall other : string,
        other <> id ->
        HNSWIndex.get other (HNSWIndex.remove id s).1 = HNSWIndex.get other s) /\
     consistent (HNSWIndex.remove id s).1) /\
  (HNSWIndex.id_to_key_ s !! id = None -> HNSWIndex.remove id s = (s, Ok false)).
Proof.
  split.
  - intros key index Hc Hid Hrm.
    pose proof (remove_present id s key index Hid Hrm) as Htrue.
    pose proof (remove_consistent id s Hc) as Hc'.
    destruct (HNSWIndex.remove id s) as [s' r] eqn:Hr. cbn [fst snd] in *. subst r.
    destruct (remove_true_get id s s' Hc Hr) as [Hgone Hothers].
    apply remove_true_inv in Hr as (_ & _ & _ & _ & Hnum & Hnext & _).
    by repeat (split; [done|]).
  - intros Hid. unfold HNSWIndex.remove. by rewrite Hid.
Qed.

End Remove.

Lemma remove_erases_witness :
  (HNSWIndex.remove "a" Demo.two).2 = Ok true /\
  HNSWIndex.get "a" (HNSWIndex.remove "a" Demo.two).1 = None /\
  HNSWIndex.size (HNSWIndex.remove "a" Demo.two).1 = u64_pred (HNSWIndex.size Demo.two) /\
  HNSWIndex.next_key_ (HNSWIndex.remove "a" Demo.two).1 = HNSWIndex.next_key_ Demo.two /\
  (forall other : string,
     other <> "a"%string ->
     HNSWIndex.get other (HNSWIndex.remove "a" Demo.two).1 = HNSWIndex.get other Demo.two) /\
  consistent (HNSWIndex.remove "a" Demo.two).1.
Proof.
  destruct (remove_erases "a" Demo.two) as [Hpresent _].
  apply (Hpresent 1 {| Flat.expansion := 1; Flat.nodes := [(2, [3; 4])] |}).
  - apply insert_consistent; [apply demo_one_consistent | reflexivity].
  - reflexivity.
  - reflexivity.
Defined.

(** ** What search can return *)

Section SearchStored.
Context `{USearch}.

(** X2: every result of a search carries the id of a record that is in
    the payload store under the key the result points at, whatever the
    primitive answered; with a consistent id map, [get] on the result's
    id gives that record.  Hence once [remove] has returned [true] for
    an id, no search returns it. *)
Theorem search_results_stored (query : list float) (k ef : N) (s : HNSWIndex.t)
    (out : list HNSWResult) :
  HNSWIndex.search query k ef s = Ok out ->
  (forall r : HNSWResult,
     r ∈ out ->
     exists d : VectorData,
       HNSWIndex.data_ s !! r_data r = Some d /\ vd_id d = r_id r /\
       (consistent s -> HNSWIndex.get (r_id r) s = Some d)) /\
  (forall (id : string) (s0 : HNSWIndex.t),
     consistent s0 ->
     HNSWIndex.remove id s0 = (s, Ok true) ->
     forall r : HNSWResult, r ∈ out -> r_id r <> id).
Proof.
  intros Hsearch.
  assert (Hstored : forall r : HNSWResult,
            r ∈ out ->
            exists d : VectorData,
              HNSWIndex.data_ s !! r_data r = Some d /\ vd_id d = r_id r /\
              (consistent s -> HNSWIndex.get (r_id r) s = Some d)).
  { unfold HNSWIndex.search in Hsearch.
    destruct (negb _); [done|]. destruct (_ =? 0).
    { injection Hsearch as <-. intros r Hr. by apply elem_of_nil in Hr. }
    injection Hsearch as <-. intros r Hr.
    apply list_elem_of_omap in Hr as (hit & _ & Hres).
    unfold HNSWIndex.result_of in Hres.
    destruct (HNSWIndex.data_ s !! hit.1) as [d|] eqn:Hd; [|done].
    injection Hres as <-. cbn [r_data r_id]. exists d. split; [done|]. split; [done|].
    intros Hc. apply consistent_get; [done|]. exists hit.1. split; [|done].
    apply Hc. eauto. }
  split; [exact Hstored|].
  intros id s0 Hc0 Hrm r Hr Heq.
  destruct (Hstored r Hr) as (d & _ & _ & Hget).
  assert (Hc : consistent s).
  { replace s with (HNSWIndex.remove id s0).1 by (by rewrite Hrm).
    by apply remove_consistent. }
  destruct (remove_true_get id s0 s Hc0 Hrm) as [Hgone _].
  rewrite <- Heq, (Hget Hc) in Hgone. done.
Qed.

End SearchStored.

(** A search in the index of three records after ["a"] was removed. *)
Lemma search_results_stored_witness :
  exists d : VectorData,
    HNSWIndex.data_ (HNSWIndex.remove "a" Demo.three).1 !! 2 = Some d /\
    vd_id d = "b"%string /\
    "b"%string <> "a"%string.
Proof.
  destruct (search_results_stored [3; 4] 2 0 (HNSWIndex.remove "a" Demo.three).1
              [ {| r_id := "b"; r_distance := f32_zero; r_data := 2 |};
                {| r_id := "c"; r_distance := f32_one; r_data := 3 |} ])
    as [Hstored Hremoved].
  - vm_compute. reflexivity.
  - destruct (Hstored {| r_id := "b"; r_distance := f32_zero; r_data := 2 |})
      as (d & Hd & Hid & _); [apply list_elem_of_here|].
    exists d. split; [exact Hd|]. split; [exact Hid|].
    apply (Hremoved "a"%string Demo.three
             ltac:(do 2 (apply insert_consistent; [|reflexivity]); apply demo_one_consistent)
             ltac:(vm_compute; reflexivity)
             {| r_id := "b"; r_distance := f32_zero; r_data := 2 |}).
    apply list_elem_of_here.
Defined.

(** ** Counters *)

Section Counters.
Context `{USearch}.

Lemma insert_counted (now : Z) (v : list float) (id : string)
    (md : gmap string string) (s : HNSWIndex.t) :
  counted s -> keys_below_counter s ->
  HNSWIndex.next_key_ s + 1 < u64_modulus ->
  counted (HNSWIndex.insert now v id md s).1.
Proof.
  intros (Hnum & Hsizes & Hbelow) Hk Hn.
  pose proof (keys_below_counter_fresh s Hk) as Hfresh.
  assert (Hsucc : u64_succ (HNSWIndex.next_key_ s) = HNSWIndex.next_key_ s + 1)
    by (by apply wrap64_small).
  unfold HNSWIndex.insert. destruct (negb _); [done|].
  destruct (decide _) as [|Hfree]; [done|].
  apply eq_None_not_Some in Hfree.
  destruct (us_add _ _ _); unfold counted; cbn; rewrite Hsucc.
  - rewrite !map_size_insert_None by done.
    rewrite Hnum. unfold u64_succ. rewrite wrap64_small by lia. lia.
  - lia.
Qed.

Lemma remove_counted (id : string) (s : HNSWIndex.t) :
  counted s -> consistent s -> HNSWIndex.next_key_ s < u64_modulus ->
  counted (HNSWIndex.remove id s).1.
Proof.
  intros (Hnum & Hsizes & Hbelow) Hc Hn. unfold HNSWIndex.remove.
  destruct (HNSWIndex.id_to_key_ s !! id) as [key|] eqn:Hid; [|done].
  destruct (us_remove _ _); [|done].
  apply Hc in Hid as Hdata. destruct Hdata as (d & Hd & _).
  unfold counted. cbn.
  rewrite !map_size_delete_Some by eauto.
  assert (Hpos : (0 < base.size (HNSWIndex.data_ s))%nat).
  { destruct (base.size (HNSWIndex.data_ s)) eqn:E; [|lia].
    apply map_size_empty_inv in E. rewrite E, lookup_empty in Hd. done. }
  rewrite Hnum. unfold u64_pred.
  replace (N.of_nat (base.size (HNSWIndex.data_ s)) + (u64_modulus - 1))
    with (N.of_nat (Nat.pred (base.size (HNSWIndex.data_ s))) + 1 * u64_modulus)
    by (unfold u64_modulus in *; lia).
  unfold wrap64. rewrite N.Div0.mod_add, N.mod_small by lia. lia.
Qed.

Lemma run_counted (ops : list operation) :
  forall s : HNSWIndex.t,
    counted s -> consistent s -> keys_below_counter s ->
    HNSWIndex.next_key_ s + len ops < u64_modulus ->
    counted (run ops s).
Proof.
  unfold run, len.
  induction ops as [|o ops IH]; intros s Hcnt Hc Hk Hn; cbn [foldl length] in *; [done|].
  destruct (run_invariants [o] s Hc Hk ltac:(unfold len; simpl; lia)) as (Hc' & Hk' & Hn').
  unfold run, len in Hc', Hk', Hn'. cbn [foldl length] in Hc', Hk', Hn'.
  apply IH; [|done|done|lia].
  destruct o as [now v id md|id]; cbn [apply_operation].
  - apply insert_counted; [done | done | lia].
  - apply remove_counted; [done | done | lia].
Qed.

(** X3: in every index built from a new one by inserts and removes
    (fewer than 2^64 - 1 of them), [size()] is the number of payload
    entries, which is the number of mapped ids. *)
Theorem size_counts_records (dimension : N) (config : HNSWConfig) (s0 : HNSWIndex.t)
    (ops : list operation) :
  HNSWIndex.create dimension config = Ok s0 ->
  1 + len ops < u64_modulus ->
  HNSWIndex.size (run ops s0) = N.of_nat (base.size (HNSWIndex.data_ (run ops s0))) /\
  base.size (HNSWIndex.data_ (run ops s0)) = base.size (HNSWIndex.id_to_key_ (run ops s0)).
Proof.
  intros Hnew Hn.
  assert (Hcnt : counted s0).
  { unfold HNSWIndex.create in Hnew. destruct (us_make _ _ _); [|done].
    injection Hnew as <-. unfold counted. cbn. rewrite !map_size_empty. lia. }
  apply create_invariants in Hnew as (Hc & Hk & Hone).
  destruct (run_counted ops s0 Hcnt Hc Hk ltac:(lia)) as (Hnum & Hsizes & _).
  done.
Qed.

End Counters.

Lemma size_counts_records_witness :
  HNSWIndex.size (run [op_insert 0 [1; 2] "a" ∅; op_insert 0 [3; 4] "b" ∅; op_remove "a"]
                      Demo.empty) =
    N.of_nat (base.size (HNSWIndex.data_
      (run [op_insert 0 [1; 2] "a" ∅; op_insert 0 [3; 4] "b" ∅; op_remove "a"] Demo.empty))) /\
  base.size (HNSWIndex.data_
      (run [op_insert 0 [1; 2] "a" ∅; op_insert 0 [3; 4] "b" ∅; op_remove "a"] Demo.empty)) =
  base.size (HNSWIndex.id_to_key_
      (run [op_insert 0 [1; 2] "a" ∅; op_insert 0 [3; 4] "b" ∅; op_remove "a"] Demo.empty)).
Proof.
  apply (size_counts_records 2 Demo.config Demo.empty).
  - reflexivity.
  - vm_compute. reflexivity.
Defined.

(** ** Internal keys *)

Section Keys.
Context `{USearch}.

Lemma apply_operation_next_key (o : operation) (s : HNSWIndex.t) :
  HNSWIndex.next_key_ s + 1 < u64_modulus ->
  HNSWIndex.next_key_ s <= HNSWIndex.next_key_ (apply_operation s o) <=
    HNSWIndex.next_key_ s + 1.
Proof.
  intros Hn.
  assert (Hsucc : u64_succ (HNSWIndex.next_key_ s) = HNSWIndex.next_key_ s + 1)
    by (by apply wrap64_small).
  destruct o as [now v id md|id]; cbn [apply_operation].
  - unfold HNSWIndex.insert. destruct (negb _); [simpl; lia|].
    destruct (decide _); [simpl; lia|]. destruct (us_add _ _ _); simpl; lia.
  - unfold HNSWIndex.remove. destruct (_ !! id); [|simpl; lia].
    destruct (us_remove _ _); simpl; lia.
Qed.

Lemma run_next_key (ops : list operation) :
  forall s : HNSWIndex.t,
    HNSWIndex.next_key_ s + len ops < u64_modulus ->
    HNSWIndex.next_key_ s <= HNSWIndex.next_key_ (run ops s) <=
      HNSWIndex.next_key_ s + len ops.
Proof.
  unfold run, len.
  induction ops as [|o ops IH]; intros s Hn; cbn [foldl length] in *; [lia|].
  pose proof (apply_operation_next_key o s ltac:(lia)) as Hstep.
  specialize (IH (apply_operation s o) ltac:(lia)). lia.
Qed.

(** X4: internal keys are never reused: the key under which a
    successful insert stores its record is larger than the key of every
    earlier successful insert, whatever inserts and removes happened in
    between (as long as the 64-bit counter has not wrapped). *)
Theorem keys_never_reused (s s1 s2 : HNSWIndex.t) (ops : list operation)
    (now1 now2 : Z) (v1 v2 : list float) (id1 id2 rid1 rid2 : string)
    (md1 md2 : gmap string string) :
  HNSWIndex.next_key_ s + len ops + 2 < u64_modulus ->
  HNSWIndex.insert now1 v1 id1 md1 s = (s1, Ok rid1) ->
  HNSWIndex.insert now2 v2 id2 md2 (run ops s1) = (s2, Ok rid2) ->
  exists k1 k2 : key_t,
    HNSWIndex.id_to_key_ s1 !! rid1 = Some k1 /\
    HNSWIndex.id_to_key_ s2 !! rid2 = Some k2 /\
    k1 < k2.
Proof.
  intros Hn H1 H2.
  apply insert_Ok_inv in H1 as (_ & _ & _ & _ & Hids1 & _ & Hnext1).
  apply insert_Ok_inv in H2 as (_ & _ & _ & _ & Hids2 & _ & _).
  exists (HNSWIndex.next_key_ s), (HNSWIndex.next_key_ (run ops s1)).
  rewrite Hids1, Hids2, !lookup_insert_eq. split; [done|]. split; [done|].
  assert (Hsucc : HNSWIndex.next_key_ s1 = HNSWIndex.next_key_ s + 1)
    by (rewrite Hnext1; apply wrap64_small; lia).
  pose proof (run_next_key ops s1 ltac:(lia)). lia.
Qed.

End Keys.

(** Insert ["a"], remove it, insert ["b"]: the second insert gets key 2. *)
Lemma keys_never_reused_witness :
  exists k1 k2 : key_t,
    HNSWIndex.id_to_key_ Demo.one !! "a"%string = Some k1 /\
    HNSWIndex.id_to_key_
      (HNSWIndex.insert 0 [3; 4] "b" ∅ (run [op_remove "a"] Demo.one)).1 !! "b"%string =
      Some k2 /\
    k1 < k2.
Proof.
  apply (keys_never_reused Demo.empty Demo.one _ [op_remove "a"] 0 0 [1; 2] [3; 4]
           "a" "b" "a" "b" Demo.tags ∅).
  - vm_compute. reflexivity.
  - vm_compute. reflexivity.
  - vm_compute. reflexivity.
Defined.

(** ** Inserts leave the other records alone; updates *)

Section Frame.
Context `{USearch}.

Lemma insert_Ok_get_other (now : Z) (v : list float) (id : string)
    (md : gmap string string) (s s' : HNSWIndex.t) (rid : string) :
  consistent s -> keys_below_counter s ->
  HNSWIndex.insert now v id md s = (s', Ok rid) ->
  forall other : string, other <> rid -> HNSWIndex.get other s' = HNSWIndex.get other s.
Proof.
  intros Hc Hk Hi other Hne.
  pose proof (keys_below_counter_fresh s Hk) as Hfresh.
  apply insert_Ok_inv in Hi as (_ & _ & _ & Hdata & Hids & _).
  unfold HNSWIndex.get. rewrite Hids, Hdata, lookup_insert_ne by done.
  destruct (HNSWIndex.id_to_key_ s !! other) as [k|] eqn:Hother; [|done].
  apply lookup_insert_ne. intros <-.
  apply Hc in Hother as (d & Hd & _). congruence.
Qed.

(** X5: in an index whose keys are all below the key counter, a
    successful insert adds exactly one element and leaves every other id
    reading as before. *)
Theorem insert_frames_others (now : Z) (v : list float) (id : string)
    (md : gmap string string) (s s' : HNSWIndex.t) (rid : string) :
  consistent s -> keys_below_counter s ->
  HNSWIndex.insert now v id md s = (s', Ok rid) ->
  (forall other : string, other <> rid -> HNSWIndex.get other s' = HNSWIndex.get other s) /\
  HNSWIndex.get rid s = None /\
  base.size (HNSWIndex.data_ s') = S (base.size (HNSWIndex.data_ s)) /\
  HNSWIndex.size s' = u64_succ (HNSWIndex.size s).
Proof.
  intros Hc Hk Hi. split; [by apply (insert_Ok_get_other now v id md)|].
  pose proof (keys_below_counter_fresh s Hk) as Hfresh.
  apply insert_Ok_inv in Hi as (_ & _ & Hfree & Hdata & _ & Hnum & _).
  split; [unfold HNSWIndex.get; by rewrite Hfree|].
  split; [rewrite Hdata; by apply map_size_insert_None | exact Hnum].
Qed.

(** X6: update as the callers do it, [remove] then [insert] under the
    same id.  When both succeed the id reads as the new record, under a
    new internal key, and every other id reads as before; when the
    re-insert is rejected for its dimension the record stays deleted. *)
Theorem remove_then_insert (now : Z) (v : list float) (id : string)
    (md : gmap string string) (s s1 : HNSWIndex.t) :
  consistent s -> keys_below_counter s ->
  id <> ""%string ->
  HNSWIndex.remove id s = (s1, Ok true) ->
  (forall s2 : HNSWIndex.t,
     HNSWIndex.insert now v id md s1 = (s2, Ok id) ->
     HNSWIndex.get id s2 = Some {| vd_id := id; vd_values := v; vd_metadata := md |} /\
     HNSWIndex.id_to_key_ s2 !! id = Some (HNSWIndex.next_key_ s) /\
     HNSWIndex.id_to_key_ s !! id <> Some (HNSWIndex.next_key_ s) /\
     forall other : string, other <> id -> HNSWIndex.get other s2 = HNSWIndex.get other s) /\
  (len v <> HNSWIndex.dimension_ s ->
   HNSWIndex.insert now v id md s1 = (s1, Throw dimension_error) /\
   HNSWIndex.get id s1 = None).
Proof.
  intros Hc Hk Hid Hrm.
  destruct (remove_true_get id s s1 Hc Hrm) as [Hgone Hothers].
  assert (Hc1 : consistent s1).
  { replace s1 with (HNSWIndex.remove id s).1 by (by rewrite Hrm). by apply remove_consistent. }
  assert (Hk1 : keys_below_counter s1 /\ HNSWIndex.next_key_ s1 = HNSWIndex.next_key_ s).
  { replace s1 with (HNSWIndex.remove id s).1 by (by rewrite Hrm).
    by apply remove_keys_below_counter. }
  destruct Hk1 as [Hk1 Hnext].
  apply remove_true_inv in Hrm as (key & Hkey & _ & _ & _ & _ & Hdim).
  split.
  - intros s2 Hi.
    pose proof (insert_Ok_get_other now v id md s1 s2 id Hc1 Hk1 Hi) as Hframe.
    apply insert_Ok_inv in Hi as (_ & _ & _ & Hdata & Hids & _).
    split; [|split; [|split]].
    + unfold HNSWIndex.get. rewrite Hids, lookup_insert_eq, Hdata. apply lookup_insert_eq.
    + by rewrite Hids, lookup_insert_eq, Hnext.
    + rewrite Hkey. intros [= ->].
      apply Hc in Hkey as (d & Hd & _).
      specialize (Hk (HNSWIndex.next_key_ s) ltac:(eauto)). lia.
    + intros other Hne. rewrite Hframe by done. by apply Hothers.
  - intros Hlen. split; [|done].
    apply insert_dimension_mismatch. by rewrite Hdim.
Qed.

End Frame.

Lemma insert_frames_others_witness :
  (forall other : string,
     other <> "b"%string -> HNSWIndex.get other Demo.two = HNSWIndex.get other Demo.one) /\
  HNSWIndex.get "b" Demo.one = None /\
  base.size (HNSWIndex.data_ Demo.two) = S (base.size (HNSWIndex.data_ Demo.one)) /\
  HNSWIndex.size Demo.two = u64_succ (HNSWIndex.size Demo.one).
Proof.
  apply (insert_frames_others 0 [3; 4] "b" ∅ Demo.one Demo.two "b").
  - apply demo_one_consistent.
  - apply insert_keys_below_counter; [|vm_compute; reflexivity].
    intros key. simpl. rewrite lookup_empty. by intros [? ?].
  - vm_compute. reflexivity.
Defined.

(** The record ["a"] replaced by a vector of the right dimension, and by
    one with three components. *)
Lemma remove_then_insert_witness :
  HNSWIndex.get "a" (HNSWIndex.insert 0 [7; 8] "a" ∅ (HNSWIndex.remove "a" Demo.one).1).1 =
    Some {| vd_id := "a"; vd_values := [7; 8]; vd_metadata := ∅ |} /\
  HNSWIndex.get "a" (HNSWIndex.insert 0 [7; 8; 9] "a" ∅ (HNSWIndex.remove "a" Demo.one).1).1 =
    None.
Proof.
  destruct (remove_then_insert 0 [7; 8] "a" ∅ Demo.one (HNSWIndex.remove "a" Demo.one).1)
    as [Hok _].
  { apply demo_one_consistent. }
  { apply insert_keys_below_counter; [|vm_compute; reflexivity].
    intros key. simpl. rewrite lookup_empty. by intros [? ?]. }
  { discriminate. }
  { vm_compute. reflexivity. }
  destruct (remove_then_insert 0 [7; 8; 9] "a" ∅ Demo.one (HNSWIndex.remove "a" Demo.one).1)
    as [_ Hbad].
  { apply demo_one_consistent. }
  { apply insert_keys_below_counter; [|vm_compute; reflexivity].
    intros key. simpl. rewrite lookup_empty. by intros [? ?]. }
  { discriminate. }
  { vm_compute. reflexivity. }
  split.
  - apply (Hok (HNSWIndex.insert 0 [7; 8] "a" ∅ (HNSWIndex.remove "a" Demo.one).1).1).
    vm_compute. reflexivity.
  - destruct Hbad as [Hrej Hgone]; [vm_compute; discriminate|].
    rewrite Hrej. exact Hgone.
Defined.

(** ** Capacity *)

Section Capacity.
Context `{USearch}.
Variables (keys : index_t -> gset key_t) (reserved : index_t -> N) (refusal : exn).
Hypothesis honoured : capacity_contract keys reserved refusal.

Lemma create_tracks (dimension : N) (config : HNSWConfig) (s : HNSWIndex.t) :
  HNSWIndex.create dimension config = Ok s ->
  tracks keys reserved s /\ HNSWIndex.config_ s = config /\
  HNSWIndex.dimension_ s = dimension /\ counted s.
Proof.
  destruct honoured as [Hmake Hreserve _ _ _].
  unfold HNSWIndex.create. destruct (us_make _ _ _) as [g|] eqn:Hg; [|done].
  intros [= <-]. destruct (Hreserve (max_elements config) g) as [Hr Hk].
  split; [|split; [done|split; [done|]]].
  - split; cbn; [|done]. by rewrite Hk, (Hmake _ _ _ _ Hg), dom_empty_L.
  - unfold counted. cbn. rewrite !map_size_empty. lia.
Qed.

Lemma apply_operation_tracks (o : operation) (s : HNSWIndex.t) :
  tracks keys reserved s ->
  tracks keys reserved (apply_operation s o) /\
  HNSWIndex.config_ (apply_operation s o) = HNSWIndex.config_ s /\
  HNSWIndex.dimension_ (apply_operation s o) = HNSWIndex.dimension_ s.
Proof.
  destruct honoured as [_ _ _ Hholds Hdrops]. intros [Hkeys Hres].
  destruct o as [now v id md|id]; cbn [apply_operation].
  - unfold HNSWIndex.insert. destruct (negb _); [done|]. destruct (decide _); [done|].
    destruct (us_add _ _ _) as [g|e] eqn:Hadd; [|done].
    apply Hholds in Hadd as [Hk Hr]. split; [|done]. split; cbn.
    + by rewrite Hk, Hkeys, dom_insert_L.
    + by rewrite Hr.
  - unfold HNSWIndex.remove. destruct (HNSWIndex.id_to_key_ s !! id) as [key|]; [|done].
    destruct (us_remove _ _) as [g|e] eqn:Hrem; [|done].
    apply Hdrops in Hrem as [Hk Hr]. split; [|done]. split; cbn.
    + by rewrite Hk, Hkeys, dom_delete_L.
    + by rewrite Hr.
Qed.

Lemma run_tracks (ops : list operation) :
  forall s : HNSWIndex.t,
    tracks keys reserved s ->
    tracks keys reserved (run ops s) /\
    HNSWIndex.config_ (run ops s) = HNSWIndex.config_ s /\
    HNSWIndex.dimension_ (run ops s) = HNSWIndex.dimension_ s.
Proof.
  unfold run. induction ops as [|o ops IH]; intros s Ht; cbn [foldl]; [done|].
  destruct (apply_operation_tracks o s Ht) as (Ht' & Hc & Hd).
  destruct (IH _ Ht') as (Ht'' & Hc' & Hd').
  split; [done|]. split; congruence.
Qed.

(** In an index built from a new one, the primitive's [add] of the next
    key is refused exactly when [size()] has reached [max_elements]. *)
Lemma add_at_capacity (dimension : N) (config : HNSWConfig) (s0 : HNSWIndex.t)
    (ops : list operation) (v : list float) :
  HNSWIndex.create dimension config = Ok s0 ->
  1 + len ops < u64_modulus ->
  HNSWIndex.dimension_ (run ops s0) = dimension /\
  if max_elements config <=? HNSWIndex.size (run ops s0)
  then us_add (HNSWIndex.next_key_ (run ops s0)) v (HNSWIndex.index_ (run ops s0)) =
         Throw refusal
  else is_ok (us_add (HNSWIndex.next_key_ (run ops s0)) v
                (HNSWIndex.index_ (run ops s0))) = true.
Proof.
  intros Hnew Hn.
  destruct (create_tracks _ _ _ Hnew) as (Ht0 & Hcfg & Hdim & Hcnt0).
  destruct (run_tracks ops s0 Ht0) as ([Hkeys Hres] & Hcfg' & Hdim').
  apply create_invariants in Hnew as (Hc & Hk & Hone).
  destruct (run_invariants ops s0 Hc Hk ltac:(lia)) as (_ & Hk' & _).
  destruct (run_counted ops s0 Hcnt0 Hc Hk ltac:(lia)) as (Hnum & _ & _).
  split; [congruence|].
  destruct honoured as [_ _ Hadd _ _].
  specialize (Hadd (HNSWIndex.next_key_ (run ops s0)) v (HNSWIndex.index_ (run ops s0))).
  rewrite Hkeys, Hres, Hcfg', Hcfg, size_dom in Hadd.
  unfold HNSWIndex.size. rewrite Hnum. apply Hadd.
  apply not_elem_of_dom. by apply keys_below_counter_fresh.
Qed.


End Capacity.

(** The bounded primitive keeps to its reservation. *)
Lemma bounded_honours_reserve :
  @capacity_contract Bounded.primitive Bounded.keys Bounded.capacity Bounded.refusal.
Proof.
  split.
  - intros dimension kind config g [= <-]. reflexivity.
  - intros n g. split; reflexivity.
  - intros key v g Hkey. cbn. unfold Bounded.add.
    destruct (decide _); [done|].
    by destruct (Bounded.capacity g <=? _).
  - intros key v g g'. cbn. unfold Bounded.add.
    destruct (decide _); [done|]. destruct (_ <=? _); [done|].
    intros [= <-]. split; [|done]. unfold Bounded.keys. cbn.
    rewrite map_app, list_to_set_app_L. cbn.
    rewrite union_empty_r_L. apply (comm_L (∪)).
  - intros key g g'. cbn. unfold Bounded.remove. cbn. intros [= <-].
    split; [|done]. unfold Bounded.keys. cbn.
    apply set_eq. intros k.
    rewrite elem_of_difference, !elem_of_list_to_set, !list_elem_of_fmap.
    split.
    + intros (n & Hk & Hn). apply list_elem_of_filter in Hn as [Hne Hn].
      split; [eauto|]. intros Hin%elem_of_singleton. congruence.
    + intros [(n & Hk & Hn) Hne]. exists n. split; [done|].
      apply list_elem_of_filter. split; [|done].
      intros Heq. apply Hne, elem_of_singleton. congruence.
Qed.


(** ** Synthesized ids *)

Lemma hex_digit_spec (d : N) :
  d < 16 -> hex_digit_value (hex_digit d) = d /\ Ascii.eqb (hex_digit d) "-" = false.
Proof.
  intros Hd. unfold hex_digit.
  assert (Hn : (N.to_nat d < 16)%nat) by lia.
  rewrite <- (N2Nat.id d) at 2.
  generalize dependent (N.to_nat d). intros n Hn.
  do 16 (destruct n as [|n]; [split; reflexivity|]). lia.
Qed.

Lemma hex_digits_fields (fuel : nat) :
  forall (n : N) (rest : string),
    n < 16 ^ N.of_nat fuel ->
    synthesized_fields (hex_digits fuel n rest) 0 = synthesized_fields rest n /\
    hex_value (hex_digits fuel n rest) 0 = hex_value rest n.
Proof.
  induction fuel as [|fuel IH]; intros n rest Hn.
  - simpl in Hn. assert (n = 0) as -> by lia. done.
  - cbn [hex_digits]. destruct (N.ltb_spec n 16) as [Hsmall|Hbig].
    + cbn [synthesized_fields hex_value].
      destruct (hex_digit_spec n Hsmall) as [-> ->]. by rewrite N.mul_0_r, N.add_0_l.
    + rewrite Nat2N.inj_succ, N.pow_succ_r' in Hn.
      destruct (IH (n / 16) (String (hex_digit (n mod 16)) rest)) as [-> ->].
      { apply N.Div0.div_lt_upper_bound. lia. }
      cbn [synthesized_fields hex_value].
      destruct (hex_digit_spec (n mod 16)) as [-> ->].
      { apply N.mod_upper_bound. lia. }
      pose proof (N.div_mod n 16 ltac:(lia)) as Hdm.
      by rewrite <- Hdm.
Qed.

Lemma wrap64_bound (n : N) : wrap64 n < 16 ^ N.of_nat 16.
Proof. unfold wrap64. apply N.mod_upper_bound. done. Qed.

Section Synthesized.
Context `{USearch}.

Lemma generate_id_fields (now : Z) (s : HNSWIndex.t) :
  synthesized_fields (HNSWIndex.generate_id now s) 0 =
    (wrap64 (Z.to_N (now mod 2 ^ 64)), wrap64 (HNSWIndex.next_key_ s)).
Proof.
  unfold HNSWIndex.generate_id, to_hex.
  assert (Happ : forall (fuel : nat) (n : N) (acc rest : string),
            (hex_digits fuel n acc +:+ rest)%string = hex_digits fuel n (acc +:+ rest)).
  { induction fuel as [|fuel IH]; intros n acc rest; cbn [hex_digits]; [done|].
    destruct (n <? 16); [done|]. by rewrite IH. }
  rewrite Happ.
  change ("" +:+ "-" +:+ hex_digits 16 (wrap64 (HNSWIndex.next_key_ s)) "")%string
    with (String "-" (hex_digits 16 (wrap64 (HNSWIndex.next_key_ s)) "")).
  destruct (hex_digits_fields 16 (wrap64 (Z.to_N (now mod 2 ^ 64)))
              (String "-" (hex_digits 16 (wrap64 (HNSWIndex.next_key_ s)) "")))
    as [-> _]; [apply wrap64_bound|].
  change (synthesized_fields (String "-" ?r) ?a) with (a, hex_value r 0).
  destruct (hex_digits_fields 16 (wrap64 (HNSWIndex.next_key_ s)) "") as [_ ->];
    [apply wrap64_bound|].
  done.
Qed.

(** X7: a synthesized id determines the clock reading and the key
    counter it was made from (both as 64-bit values): two synthesized
    ids are equal only if both numbers agree. *)
Theorem generate_id_injective (now now' : Z) (s s' : HNSWIndex.t) :
  HNSWIndex.generate_id now s = HNSWIndex.generate_id now' s' ->
  wrap64 (HNSWIndex.next_key_ s) = wrap64 (HNSWIndex.next_key_ s') /\
  (now mod 2 ^ 64 = now' mod 2 ^ 64)%Z.
Proof.
  intros Heq.
  pose proof (generate_id_fields now s) as Hs.
  rewrite Heq, generate_id_fields in Hs. injection Hs as Hnow Hkey.
  split; [done|].
  assert (Hrange : forall z : Z, Z.to_N (z mod 2 ^ 64) < u64_modulus).
  { intros z. pose proof (Z.mod_pos_bound z (2 ^ 64) ltac:(lia)). unfold u64_modulus. lia. }
  rewrite !wrap64_small in Hnow by apply Hrange.
  pose proof (Z.mod_pos_bound now (2 ^ 64) ltac:(lia)).
  pose proof (Z.mod_pos_bound now' (2 ^ 64) ltac:(lia)). lia.
Qed.

Lemma apply_operation_synthesized (o : operation) (s : HNSWIndex.t) :
  ids_omitted [o] ->
  synthesized_below s ->
  HNSWIndex.next_key_ s + 1 < u64_modulus ->
  synthesized_below (apply_operation s o).
Proof.
  intros Ho Hs Hn. apply Forall_cons in Ho as [Ho _].
  assert (Hsucc : u64_succ (HNSWIndex.next_key_ s) = HNSWIndex.next_key_ s + 1)
    by (by apply wrap64_small).
  destruct o as [now v id md|id]; cbn [apply_operation].
  - subst id. unfold HNSWIndex.insert. destruct (negb _); [done|].
    change (if String.eqb "" "" then HNSWIndex.generate_id now s else ""%string)
      with (HNSWIndex.generate_id now s).
    destruct (decide _); [done|].
    destruct (us_add _ _ _); intros id key; cbn; rewrite Hsucc.
    + rewrite lookup_insert. case_decide as Hid.
      * intros _. subst id. rewrite generate_id_fields. cbn [snd].
        rewrite wrap64_small by lia. lia.
      * intros Hk. specialize (Hs id key Hk). lia.
    + intros Hk. specialize (Hs id key Hk). lia.
  - unfold HNSWIndex.remove. destruct (HNSWIndex.id_to_key_ s !! id) eqn:E; [|done].
    destruct (us_remove _ _); [|done].
    intros id' key. cbn. rewrite lookup_delete. case_decide; [done|]. apply Hs.
Qed.

Lemma run_synthesized (ops : list operation) :
  forall s : HNSWIndex.t,
    ids_omitted ops ->
    synthesized_below s ->
    HNSWIndex.next_key_ s + len ops < u64_modulus ->
    synthesized_below (run ops s).
Proof.
  unfold run, len.
  induction ops as [|o ops IH]; intros s Ho Hs Hn; cbn [foldl length] in *; [done|].
  apply Forall_cons in Ho as [Ho Hops].
  pose proof (apply_operation_next_key o s ltac:(lia)) as Hstep.
  apply IH; [done | | lia].
  apply apply_operation_synthesized; [by constructor | done | lia].
Qed.

(** X8: while callers leave the id to the index (every insert passes
    the empty id), the id the index synthesizes next is never one
    already mapped: an insert without id is rejected only for its
    dimension or by the primitive, never as a duplicate. *)
Theorem omitted_ids_never_collide (dimension : N) (config : HNSWConfig)
    (s0 : HNSWIndex.t) (ops : list operation) (now : Z) (v : list float)
    (md : gmap string string) :
  HNSWIndex.create dimension config = Ok s0 ->
  ids_omitted ops ->
  1 + len ops < u64_modulus ->
  HNSWIndex.id_to_key_ (run ops s0) !! HNSWIndex.generate_id now (run ops s0) = None /\
  forall e : exn,
    (HNSWIndex.insert now v "" md (run ops s0)).2 = Throw e ->
    e = dimension_error \/
    us_add (HNSWIndex.next_key_ (run ops s0)) v (HNSWIndex.index_ (run ops s0)) = Throw e.
Proof.
  intros Hnew Ho Hn.
  assert (Hs0 : synthesized_below s0 /\ HNSWIndex.next_key_ s0 = 1).
  { unfold HNSWIndex.create in Hnew. destruct (us_make _ _ _); [|done].
    injection Hnew as <-. split; [|done]. intros id key. cbn. by rewrite lookup_empty. }
  destruct Hs0 as [Hs0 Hone].
  pose proof (run_synthesized ops s0 Ho Hs0 ltac:(lia)) as Hs.
  pose proof (run_next_key ops s0 ltac:(lia)) as Hnext.
  set (s := run ops s0) in *.
  assert (Hfree : HNSWIndex.id_to_key_ s !! HNSWIndex.generate_id now s = None).
  { destruct (HNSWIndex.id_to_key_ s !! HNSWIndex.generate_id now s) as [key|] eqn:E; [|done].
    specialize (Hs _ _ E). rewrite generate_id_fields in Hs. cbn [snd] in Hs.
    rewrite wrap64_small in Hs by lia. lia. }
  split; [done|]. intros e He.
  destruct (N.eq_dec (len v) (HNSWIndex.dimension_ s)) as [Hd|Hd].
  - right.
    destruct (us_add (HNSWIndex.next_key_ s) v (HNSWIndex.index_ s)) as [index|e'] eqn:Ha.
    + rewrite (insert_stores now v "" md s index Hd Hfree Ha) in He. discriminate.
    + rewrite (insert_primitive_throws now v "" md s e' Hd Hfree Ha) in He.
      by injection He as <-.
  - left. rewrite (insert_dimension_mismatch now v "" md s Hd) in He. by injection He as <-.
Qed.

End Synthesized.

Lemma generate_id_injective_witness :
  wrap64 (HNSWIndex.next_key_ Demo.nine) = wrap64 (HNSWIndex.next_key_ Demo.nine) /\
  (Demo.now mod 2 ^ 64 = Demo.now mod 2 ^ 64)%Z.
Proof. apply (generate_id_injective Demo.now Demo.now Demo.nine Demo.nine). reflexivity. Defined.

(** Nine inserts without id, then a tenth. *)
Lemma omitted_ids_never_collide_witness :
  HNSWIndex.id_to_key_
    (run (map (fun i : nat => op_insert Demo.now [N.of_nat i; 7] "" ∅) (seq 0 9)) Demo.empty)
  !! HNSWIndex.generate_id Demo.now
       (run (map (fun i : nat => op_insert Demo.now [N.of_nat i; 7] "" ∅) (seq 0 9))
            Demo.empty) = None.
Proof.
  destruct (omitted_ids_never_collide 2 Demo.config Demo.empty
              (map (fun i : nat => op_insert Demo.now [N.of_nat i; 7] "" ∅) (seq 0 9))
              Demo.now [0; 7] ∅) as [Hfree _].
  - reflexivity.
  - repeat constructor.
  - vm_compute. reflexivity.
  - exact Hfree.
Defined.

(** ** batch_search as a whole *)

Section BatchSearchWhole.
Context `{USearch}.

Lemma batch_search_as_sequence (hardware_concurrency : N)
    (interleave : list (list (nat * list HNSWResult)) -> list (nat * list HNSWResult))
    (queries : list (list float)) (k ef : N) (s : HNSWIndex.t) :
  (forall ws, interleave ws ≡ₚ concat ws) ->
  1 <= hardware_concurrency \/ len queries <= 100 ->
  HNSWIndex.batch_search hardware_concurrency interleave queries k ef s =
    Some (sequence (map (fun q : list float => HNSWIndex.search q k ef s) queries)).
Proof.
  intros Hperm Hhw.
  set (single := map (fun q : list float => HNSWIndex.search q k ef s) queries).
  unfold HNSWIndex.batch_search.
  destruct (N.leb_spec (len queries) 100) as [Hsmall|Hlarge].
  { rewrite sequential_sequence. fold single. by destruct (sequence single). }
  destruct Hhw as [Hhw|Hhw]; [|lia].
  set (threads := N.min (N.min hardware_concurrency (N.max 1 (len queries / 100))) 32).
  assert (Hthreads : 1 <= threads).
  { subst threads. pose proof (N.div_le_lower_bound (len queries) 100 1). lia. }
  destruct (N.eqb_spec threads 0) as [?|_]; [lia|].
  destruct (chunks_cover (len queries) threads Hthreads ltac:(lia)) as [Hc Hcover].
  pose proof (tasks_sequence queries k ef s _ (N.to_nat threads) 0 Hc) as Htasks.
  rewrite N2Nat.id in Htasks. specialize (Htasks Hcover). simpl in Htasks.
  rewrite N.mul_0_l in Htasks. change (N.to_nat 0) with 0%nat in Htasks.
  rewrite drop_0 in Htasks. fold single in Htasks. f_equal.
  destruct (sequence single) as [rs|e] eqn:Hseq.
  - destruct Htasks as [-> Hwrites]. f_equal.
    apply sequence_Ok_length in Hseq as Hlen. subst single. rewrite length_map in Hlen.
    apply foldl_put_permutation.
    + rewrite length_replicate. unfold len. lia.
    + by rewrite Hperm, Hwrites.
  - by rewrite Htasks.
Qed.

Lemma search_throws (q : list float) (k ef : N) (s : HNSWIndex.t) (e : exn) :
  HNSWIndex.search q k ef s = Throw e ->
  e = query_dimension_error /\ len q <> HNSWIndex.dimension_ s.
Proof.
  unfold HNSWIndex.search.
  destruct (N.eqb_spec (len q) (HNSWIndex.dimension_ s)) as [Hd|Hd]; cbn [negb].
  - by destruct (_ =? 0).
  - by intros [= <-].
Qed.

Lemma search_wrong_dimension (q : list float) (k ef : N) (s : HNSWIndex.t) :
  len q <> HNSWIndex.dimension_ s ->
  HNSWIndex.search q k ef s = Throw query_dimension_error.
Proof.
  intros Hd. unfold HNSWIndex.search.
  by destruct (N.eqb_spec (len q) (HNSWIndex.dimension_ s)).
Qed.

Lemma search_right_dimension (q : list float) (k ef : N) (s : HNSWIndex.t) :
  len q = HNSWIndex.dimension_ s ->
  exists r, HNSWIndex.search q k ef s = Ok r.
Proof.
  intros Hd. unfold HNSWIndex.search. rewrite Hd, N.eqb_refl. cbn [negb].
  destruct (_ =? 0); by eexists.
Qed.

Lemma sequence_searches (queries : list (list float)) (k ef : N) (s : HNSWIndex.t) :
  match sequence (map (fun q : list float => HNSWIndex.search q k ef s) queries) with
  | Ok rs =>
      length rs = length queries /\
      Forall (fun q : list float => len q = HNSWIndex.dimension_ s) queries
  | Throw e =>
      e = query_dimension_error /\
      Exists (fun q : list float => len q <> HNSWIndex.dimension_ s) queries
  end.
Proof.
  induction queries as [|q queries IH]; cbn [map sequence]; [by split|].
  destruct (HNSWIndex.search q k ef s) as [r|e] eqn:Hq.
  - destruct (sequence _) as [rs|e].
    + destruct IH as [Hl Hall]. split; [cbn; by f_equal|].
      constructor; [|done].
      destruct (N.eq_dec (len q) (HNSWIndex.dimension_ s)) as [|Hd]; [done|].
      by rewrite (search_wrong_dimension q k ef s Hd) in Hq.
    + destruct IH as [-> Hex]. split; [done|]. by apply Exists_cons_tl.
  - apply search_throws in Hq as [-> Hd]. split; [done|]. by apply Exists_cons_hd.
Qed.

(** X9: a batch search is all or nothing.  If every query has the
    index's dimension the call returns one result list per query; if any
    query has another length the whole call throws "Query dimension
    mismatch" and the results of the other queries are lost.  (On the
    parallel path this needs a platform that reports at least one
    hardware thread.) *)
Theorem batch_search_all_or_nothing (hardware_concurrency : N)
    (interleave : list (list (nat * list HNSWResult)) -> list (nat * list HNSWResult))
    (queries : list (list float)) (k ef : N) (s : HNSWIndex.t) :
  (forall ws, interleave ws ≡ₚ concat ws) ->
  1 <= hardware_concurrency \/ len queries <= 100 ->
  (Forall (fun q : list float => len q = HNSWIndex.dimension_ s) queries ->
   exists rs : list (list HNSWResult),
     HNSWIndex.batch_search hardware_concurrency interleave queries k ef s = Some (Ok rs) /\
     length rs = length queries) /\
  (Exists (fun q : list float => len q <> HNSWIndex.dimension_ s) queries ->
   HNSWIndex.batch_search hardware_concurrency interleave queries k ef s =
     Some (Throw query_dimension_error)).
Proof.
  intros Hperm Hhw.
  rewrite (batch_search_as_sequence _ _ _ _ _ _ Hperm Hhw).
  pose proof (sequence_searches queries k ef s) as Hseq.
  destruct (sequence _) as [rs|e].
  - destruct Hseq as [Hl Hall]. split.
    + intros _. by exists rs.
    + intros Hex. apply Exists_exists in Hex as (q & Hin & Hq).
      rewrite Forall_forall in Hall. by specialize (Hall q Hin).
  - destruct Hseq as [-> Hex]. split; [|done].
    intros Hall. apply Exists_exists in Hex as (q & Hin & Hq).
    rewrite Forall_forall in Hall. by specialize (Hall q Hin).
Qed.

(** X10: on an index that holds no record, a batch search of queries
    of the right dimension returns an empty result list for each query. *)
Theorem batch_search_empty_index (hardware_concurrency : N)
    (interleave : list (list (nat * list HNSWResult)) -> list (nat * list HNSWResult))
    (queries : list (list float)) (k ef : N) (s : HNSWIndex.t) :
  (forall ws, interleave ws ≡ₚ concat ws) ->
  1 <= hardware_concurrency \/ len queries <= 100 ->
  HNSWIndex.num_elements_ s = 0 ->
  Forall (fun q : list float => len q = HNSWIndex.dimension_ s) queries ->
  HNSWIndex.batch_search hardware_concurrency interleave queries k ef s =
    Some (Ok (replicate (length queries) [])).
Proof.
  intros Hperm Hhw Hzero Hall.
  rewrite (batch_search_as_sequence _ _ _ _ _ _ Hperm Hhw). f_equal. clear Hhw.
  induction Hall as [|q queries Hq Hall IH]; [done|].
  cbn [map sequence length replicate].
  rewrite IH.
  unfold HNSWIndex.search. rewrite Hq, N.eqb_refl, Hzero. done.
Qed.

End BatchSearchWhole.

(** 249 good queries and one of length three on four hardware threads. *)
Lemma batch_search_all_or_nothing_witness :
  HNSWIndex.batch_search 4 (fun ws => reverse (concat ws))
    (replicate 249 [5; 6] ++ [[1; 2; 3]]) 1 0 Demo.three =
  Some (Throw query_dimension_error).
Proof.
  apply (batch_search_all_or_nothing 4 (fun ws => reverse (concat ws))
           (replicate 249 [5; 6] ++ [[1; 2; 3]]) 1 0 Demo.three).
  - intros ws. apply reverse_Permutation.
  - left. lia.
  - apply Exists_app. right. apply Exists_cons_hd. vm_compute. discriminate.
Defined.

Lemma batch_search_empty_index_witness :
  HNSWIndex.batch_search 4 (fun ws => reverse (concat ws))
    (replicate 150 [5; 6]) 3 0 Demo.empty =
  Some (Ok (replicate (length (replicate 150 [5; 6])) [])).
Proof.
  apply (batch_search_empty_index 4 (fun ws => reverse (concat ws))
           (replicate 150 [5; 6]) 3 0 Demo.empty).
  - intros ws. apply reverse_Permutation.
  - left. lia.
  - reflexivity.
  - apply Forall_replicate. reflexivity.
Defined.

(** ** Collections *)

Lemma string_app_inv_head (p a b : string) : (p +:+ a = p +:+ b)%string -> a = b.
Proof. induction p as [|c p IH]; cbn; [done|]. intros [= Heq]. by apply IH. Qed.

Lemma string_app_assoc (a b c : string) : ((a +:+ b) +:+ c = a +:+ (b +:+ c))%string.
Proof.
  induction a as [|x a IH]; [done|].
  change (String x ((a +:+ b) +:+ c) = String x (a +:+ (b +:+ c))). by f_equal.
Qed.

Section Collections.
Context `{USearch}.
Implicit Types (collections_order : gmap string HNSWIndex.t -> list (string * HNSWIndex.t))
  (memory_usage : HNSWIndex.t -> N).

Lemma list_collections_exists collections_order (st : VectorStorage.t) (name : string) :
  (forall m, collections_order m ≡ₚ map_to_list m) ->
  name ∈ VectorStorage.list_collections collections_order st <->
  VectorStorage.collection_exists name st = true.
Proof.
  intros collections_order_permutation.
  unfold VectorStorage.list_collections, VectorStorage.collection_exists.
  change (map fst ?l) with (l.*1).
  rewrite collections_order_permutation, bool_decide_eq_true, list_elem_of_fmap.
  split.
  - intros ([n index] & -> & Hin). apply elem_of_map_to_list in Hin. eauto.
  - intros [index Hi]. exists (name, index). split; [done|]. by apply elem_of_map_to_list.
Qed.

Lemma created_index (dimension : N) (config : HNSWConfig) (index : HNSWIndex.t) :
  HNSWIndex.create dimension config = Ok index ->
  HNSWIndex.dimension_ index = dimension /\
  HNSWIndex.num_elements_ index = 0 /\
  HNSWIndex.data_ index = ∅ /\
  HNSWIndex.id_to_key_ index = ∅ /\
  HNSWIndex.next_key_ index = 1.
Proof.
  unfold HNSWIndex.create. destruct (us_make _ _ _); [|done]. by intros [= <-].
Qed.

(** X11: creating a collection under a new name returns true and
    leaves an empty collection of the configured dimension, whose index
    is the one the constructor makes from [hnsw_config]: it is
    listed, [get] finds no id in it, a search of the right dimension
    returns no results, its statistics show no vectors.  The other
    collections are left as they were, and the configuration is on
    disk if its file could be opened.  Under a name in use the call
    returns false and changes neither the storage nor the files. *)
Theorem create_collection_new collections_order memory_usage
    (config : CollectionConfig) (st : VectorStorage.t)
    (fs : filesystem) (index : HNSWIndex.t) :
  (forall m, collections_order m ≡ₚ map_to_list m) ->
  HNSWIndex.create (cc_dimension config) (hnsw_config config) = Ok index ->
  let name := cc_name config in
  let created := VectorStorage.create_collection config st fs in
  (is_Some (VectorStorage.collections_ st !! name) -> created = (st, fs, Ok false)) /\
  (VectorStorage.collections_ st !! name = None ->
   created.2 = Ok true /\
   VectorStorage.collections_ created.1.1 !! name = Some index /\
   (name ∈ VectorStorage.list_collections collections_order created.1.1) /\
   (forall id, VectorStorage.get name id created.1.1 = None) /\
   (forall q k ef, len q = cc_dimension config ->
                   VectorStorage.search name q k ef created.1.1 = Ok []) /\
   VectorStorage.get_stats memory_usage name created.1.1 =
     Returns (Some {| vector_count := 0;
                      cs_memory_usage := memory_usage index;
                      cs_dimension := cc_dimension config;
                      cs_metric := VectorStorage.metric_str (cc_metric config) |}) /\
   (forall other, other <> name ->
      VectorStorage.collections_ created.1.1 !! other =
        VectorStorage.collections_ st !! other) /\
   (fs_can_write fs (VectorStorage.config_path st name) = true ->
    fs_files created.1.2 !! VectorStorage.config_path st name =
      Some (list_byte_of_string (VectorStorage.config_text config)))).
Proof.
  intros Horder Hnew name created. subst created. unfold VectorStorage.create_collection.
  fold name. split.
  { intros Hin. by rewrite bool_decide_eq_true_2. }
  intros Hfree. rewrite bool_decide_eq_false_2 by (rewrite Hfree; by intros [? ?]).
  rewrite Hnew. cbn [fst snd].
  destruct (created_index _ _ _ Hnew) as (Hdim & Hnum & Hdata & Hids & _).
  split; [done|]. split; [cbn; apply lookup_insert_eq|].
  split; [|split; [|split; [|split; [|split]]]].
  - apply list_collections_exists; [done|]. unfold VectorStorage.collection_exists.
    cbn. rewrite lookup_insert_eq. by apply bool_decide_eq_true_2.
  - intros id. unfold VectorStorage.get. cbn. rewrite lookup_insert_eq.
    unfold HNSWIndex.get. by rewrite Hids, lookup_empty.
  - intros q k ef Hq. unfold VectorStorage.search. cbn. rewrite lookup_insert_eq.
    unfold HNSWIndex.search. by rewrite Hdim, Hq, N.eqb_refl, Hnum.
  - unfold VectorStorage.get_stats. cbn. rewrite !lookup_insert_eq.
    unfold HNSWIndex.size, HNSWIndex.dimension. by rewrite Hnum, Hdim.
  - intros other Hne. cbn. by rewrite lookup_insert_ne.
  - intros Hw. unfold VectorStorage.save_config. cbn [VectorStorage.configs_].
    rewrite lookup_insert_eq. unfold VectorStorage.config_path in *.
    cbn [VectorStorage.data_dir_]. fold name. rewrite Hw. cbn [negb fst].
    unfold fs_put. cbn [fs_files]. apply lookup_insert_eq.
Qed.

Lemma suffix_json_meta (p : string) : (p +:+ ".json" <> (p +:+ ".hnsw") +:+ ".meta")%string.
Proof.
  rewrite string_app_assoc. intros Heq. by apply string_app_inv_head in Heq.
Qed.


(** What each call leaves of the collections it was not aimed at. *)
Lemma insert_other_collection (now : Z) (collection : string) (v : list float) (id : string)
    (md : gmap string string) (st : VectorStorage.t) (other : string) :
  other <> collection ->
  VectorStorage.collections_ (VectorStorage.insert now collection v id md st).1 !! other =
    VectorStorage.collections_ st !! other.
Proof.
  intros Hne. unfold VectorStorage.insert.
  destruct (VectorStorage.collections_ st !! collection); [|done].
  destruct (HNSWIndex.insert _ _ _ _ _). cbn. by rewrite lookup_insert_ne.
Qed.

Lemma batch_insert_other_collection (clock : nat -> Z) (collection : string)
    (vectors : list VectorData) (st : VectorStorage.t) (other : string) :
  other <> collection ->
  VectorStorage.collections_ (VectorStorage.batch_insert clock collection vectors st).1
    !! other = VectorStorage.collections_ st !! other.
Proof.
  intros Hne. unfold VectorStorage.batch_insert.
  destruct (VectorStorage.collections_ st !! collection); [|done].
  destruct (HNSWIndex.batch_insert _ _ _). cbn. by rewrite lookup_insert_ne.
Qed.

Lemma remove_other_collection (collection id : string) (st : VectorStorage.t)
    (other : string) :
  other <> collection ->
  VectorStorage.collections_ (VectorStorage.remove collection id st).1 !! other =
    VectorStorage.collections_ st !! other.
Proof.
  intros Hne. unfold VectorStorage.remove.
  destruct (VectorStorage.collections_ st !! collection); [|done].
  destruct (HNSWIndex.remove _ _). cbn. by rewrite lookup_insert_ne.
Qed.

Lemma create_other_collection (config : CollectionConfig) (st : VectorStorage.t)
    (fs : filesystem) (other : string) :
  other <> cc_name config ->
  VectorStorage.collections_ (VectorStorage.create_collection config st fs).1.1 !! other =
    VectorStorage.collections_ st !! other.
Proof.
  intros Hne. unfold VectorStorage.create_collection.
  destruct (bool_decide _); [done|].
  destruct (HNSWIndex.create _ _); [|done]. cbn. by rewrite lookup_insert_ne.
Qed.

Lemma delete_other_collection (name : string) (st : VectorStorage.t)
    (fs : filesystem) (other : string) :
  other <> name ->
  VectorStorage.collections_ (VectorStorage.delete_collection name st fs).1.1 !! other =
    VectorStorage.collections_ st !! other.
Proof.
  intros Hne. unfold VectorStorage.delete_collection.
  destruct (VectorStorage.collections_ st !! name); [|done]. cbn. by rewrite lookup_delete_ne.
Qed.

Lemma apply_other_collection (o : storage_operation) (st : VectorStorage.t)
    (fs : filesystem) (other : string) :
  other <> target o ->
  VectorStorage.collections_ (apply_storage_operation (st, fs) o).1 !! other =
    VectorStorage.collections_ st !! other.
Proof.
  destruct o; cbn [target apply_storage_operation fst snd]; intros Hne.
  - by apply create_other_collection.
  - by apply delete_other_collection.
  - by apply insert_other_collection.
  - by apply batch_insert_other_collection.
  - by apply remove_other_collection.
Qed.

(** X13: collections are isolated from each other.  Whatever is
    created, deleted, inserted or removed under other names, a
    collection answers [get], [search], [batch_search] and
    [collection_exists] as before. *)
Theorem collections_isolated (ops : list storage_operation) (st : VectorStorage.t)
    (fs : filesystem) (name : string) :
  Forall (fun o => target o <> name) ops ->
  let st' := (storage_run ops st fs).1 in
  (forall id, VectorStorage.get name id st' = VectorStorage.get name id st) /\
  (forall q k ef, VectorStorage.search name q k ef st' = VectorStorage.search name q k ef st) /\
  (forall hardware_concurrency interleave queries k ef,
     VectorStorage.batch_search hardware_concurrency interleave name queries k ef st' =
       VectorStorage.batch_search hardware_concurrency interleave name queries k ef st) /\
  VectorStorage.collection_exists name st' = VectorStorage.collection_exists name st.
Proof.
  intros Hops st'.
  assert (Hsame : VectorStorage.collections_ st' !! name =
                  VectorStorage.collections_ st !! name).
  { subst st'. unfold storage_run. revert st fs.
    induction Hops as [|o ops Ho Hops IH]; intros st fs; cbn [foldl]; [done|].
    destruct (apply_storage_operation (st, fs) o) as [st1 fs1] eqn:Hstep.
    rewrite IH. pose proof (apply_other_collection o st fs name ltac:(done)) as Hone.
    by rewrite Hstep in Hone. }
  unfold VectorStorage.get, VectorStorage.search, VectorStorage.batch_search,
    VectorStorage.collection_exists.
  by rewrite Hsame.
Qed.

(** X14: a vector of the configured dimension inserted into a
    collection that was just created is accepted (if the primitive
    takes it), under the caller's id when one is given; [get] returns
    it and the statistics count one vector of the configured
    dimension. *)
Theorem create_insert_get memory_usage (config : CollectionConfig) (st : VectorStorage.t)
    (fs : filesystem) (index : HNSWIndex.t) (graph : index_t)
    (now : Z) (v : list float) (id : string) (md : gmap string string) :
  VectorStorage.collections_ st !! cc_name config = None ->
  HNSWIndex.create (cc_dimension config) (hnsw_config config) = Ok index ->
  len v = cc_dimension config ->
  us_add 1 v (HNSWIndex.index_ index) = Ok graph ->
  let name := cc_name config in
  let st1 := (VectorStorage.create_collection config st fs).1.1 in
  let inserted := VectorStorage.insert now name v id md st1 in
  exists rid : string,
    inserted.2 = Ok rid /\
    (id <> ""%string -> rid = id) /\
    VectorStorage.get name rid inserted.1 =
      Some {| vd_id := rid; vd_values := v; vd_metadata := md |} /\
    exists stats : CollectionStats,
      VectorStorage.get_stats memory_usage name inserted.1 = Returns (Some stats) /\
      vector_count stats = 1 /\
      cs_dimension stats = cc_dimension config /\
      cs_metric stats = VectorStorage.metric_str (cc_metric config).
Proof.
  intros Hfree Hnew Hv Hadd name st1 inserted. subst name.
  set (name := cc_name config) in *.
  destruct (created_index _ _ _ Hnew) as (Hdim & Hnum & Hdata & Hids & Hnext).
  assert (Hst1 : st1 =
            {| VectorStorage.data_dir_ := VectorStorage.data_dir_ st;
               VectorStorage.collections_ := <[name := index]> (VectorStorage.collections_ st);
               VectorStorage.configs_ := <[name := config]> (VectorStorage.configs_ st) |}).
  { subst st1. unfold VectorStorage.create_collection. fold name.
    rewrite bool_decide_eq_false_2 by (rewrite Hfree; by intros [? ?]).
    by rewrite Hnew. }
  clearbody name.
  assert (Hins : HNSWIndex.insert now v id md index =
            ({| HNSWIndex.dimension_ := HNSWIndex.dimension_ index;
                HNSWIndex.config_ := HNSWIndex.config_ index;
                HNSWIndex.num_elements_ := u64_succ (HNSWIndex.num_elements_ index);
                HNSWIndex.next_key_ := u64_succ (HNSWIndex.next_key_ index);
                HNSWIndex.index_ := graph;
                HNSWIndex.data_ :=
                  <[HNSWIndex.next_key_ index :=
                      {| vd_id := actual_id now id index; vd_values := v;
                         vd_metadata := md |}]> (HNSWIndex.data_ index);
                HNSWIndex.id_to_key_ :=
                  <[actual_id now id index := HNSWIndex.next_key_ index]>
                    (HNSWIndex.id_to_key_ index) |},
             Ok (actual_id now id index))).
  { apply insert_stores; [congruence | by rewrite Hids, lookup_empty | by rewrite Hnext]. }
  exists (actual_id now id index).
  subst inserted. rewrite Hst1. unfold VectorStorage.insert.
  cbn [VectorStorage.collections_]. rewrite lookup_insert_eq, Hins. cbn [fst snd].
  split; [done|]. split; [by apply actual_id_supplied|]. split.
  - unfold VectorStorage.get, VectorStorage.with_collection.
    cbn [VectorStorage.collections_]. rewrite lookup_insert_eq.
    unfold HNSWIndex.get. cbn [HNSWIndex.id_to_key_ HNSWIndex.data_].
    by rewrite !lookup_insert_eq.
  - eexists. unfold VectorStorage.get_stats, VectorStorage.with_collection.
    cbn [VectorStorage.collections_ VectorStorage.configs_].
    rewrite !lookup_insert_eq. split; [reflexivity|].
    cbn. rewrite Hnum, Hdim. done.
Qed.

Lemma insert_keeps_configs (now : Z) (collection : string) (v : list float) (id : string)
    (md : gmap string string) (st : VectorStorage.t) :
  VectorStorage.configs_ (VectorStorage.insert now collection v id md st).1 =
    VectorStorage.configs_ st /\
  dom (VectorStorage.collections_ (VectorStorage.insert now collection v id md st).1) =
    dom (VectorStorage.collections_ st).
Proof.
  unfold VectorStorage.insert.
  destruct (VectorStorage.collections_ st !! collection) eqn:Hc; [|done].
  destruct (HNSWIndex.insert _ _ _ _ _). cbn. split; [done|].
  rewrite dom_insert_L. apply subseteq_union_1_L, singleton_subseteq_l.
  by apply elem_of_dom_2 in Hc.
Qed.

Lemma batch_insert_keeps_configs (clock : nat -> Z) (collection : string)
    (vectors : list VectorData) (st : VectorStorage.t) :
  VectorStorage.configs_ (VectorStorage.batch_insert clock collection vectors st).1 =
    VectorStorage.configs_ st /\
  dom (VectorStorage.collections_ (VectorStorage.batch_insert clock collection vectors st).1) =
    dom (VectorStorage.collections_ st).
Proof.
  unfold VectorStorage.batch_insert.
  destruct (VectorStorage.collections_ st !! collection) eqn:Hc; [|done].
  destruct (HNSWIndex.batch_insert _ _ _). cbn. split; [done|].
  rewrite dom_insert_L. apply subseteq_union_1_L, singleton_subseteq_l.
  by apply elem_of_dom_2 in Hc.
Qed.

Lemma remove_keeps_configs (collection id : string) (st : VectorStorage.t) :
  VectorStorage.configs_ (VectorStorage.remove collection id st).1 =
    VectorStorage.configs_ st /\
  dom (VectorStorage.collections_ (VectorStorage.remove collection id st).1) =
    dom (VectorStorage.collections_ st).
Proof.
  unfold VectorStorage.remove.
  destruct (VectorStorage.collections_ st !! collection) eqn:Hc; [|done].
  destruct (HNSWIndex.remove _ _). cbn. split; [done|].
  rewrite dom_insert_L. apply subseteq_union_1_L, singleton_subseteq_l.
  by apply elem_of_dom_2 in Hc.
Qed.

Lemma configured_dom (st : VectorStorage.t) :
  configured st <-> dom (VectorStorage.collections_ st) ⊆ dom (VectorStorage.configs_ st).
Proof.
  unfold configured. split.
  - intros Hc name Hin. apply elem_of_dom. apply Hc. by apply elem_of_dom.
  - intros Hsub name Hin. apply elem_of_dom. apply Hsub. by apply elem_of_dom.
Qed.

Lemma apply_configured (o : storage_operation) (st : VectorStorage.t) (fs : filesystem) :
  configured st -> configured (apply_storage_operation (st, fs) o).1.
Proof.
  rewrite !configured_dom. intros Hc.
  destruct o as [config|name|now collection v id md|clock collection vectors|collection id];
    cbn [apply_storage_operation fst snd].
  - unfold VectorStorage.create_collection. destruct (bool_decide _); [done|].
    destruct (HNSWIndex.create _ _); [|done]. cbn. rewrite !dom_insert_L. by apply union_mono_l.
  - unfold VectorStorage.delete_collection.
    destruct (VectorStorage.collections_ st !! name); [|done].
    cbn. rewrite !dom_delete_L. by apply difference_mono_r.
  - destruct (insert_keeps_configs now collection v id md st) as [-> ->]. done.
  - destruct (batch_insert_keeps_configs clock collection vectors st) as [-> ->]. done.
  - destruct (remove_keeps_configs collection id st) as [-> ->]. done.
Qed.

(** X15: every collection keeps a configuration through creations,
    deletions, inserts and removes, so [get_stats] never throws: it
    returns statistics for the names that exist and nothing for the
    others. *)
Theorem get_stats_never_throws memory_usage (ops : list storage_operation) (st : VectorStorage.t)
    (fs : filesystem) (name : string) :
  configured st ->
  let st' := (storage_run ops st fs).1 in
  configured st' /\
  match VectorStorage.get_stats memory_usage name st' with
  | Returns (Some stats) => VectorStorage.collection_exists name st' = true
  | Returns None => VectorStorage.collection_exists name st' = false
  | Raises _ => False
  end.
Proof.
  intros Hc st'.
  assert (Hc' : configured st').
  { subst st'. unfold storage_run. revert st fs Hc.
    induction ops as [|o ops IH]; intros st fs Hc; cbn [foldl]; [done|].
    pose proof (apply_configured o st fs Hc) as Hstep.
    destruct (apply_storage_operation (st, fs) o) as [st1 fs1]. by apply IH. }
  split; [done|].
  unfold VectorStorage.get_stats, VectorStorage.collection_exists.
  destruct (VectorStorage.collections_ st' !! name) as [index|] eqn:Hin.
  - destruct (Hc' name ltac:(eauto)) as [config ->]. by apply bool_decide_eq_true_2.
  - apply bool_decide_eq_false_2. by intros [? ?].
Qed.

End Collections.

(** *** On the flat primitive *)

Lemma create_collection_new_witness :
  (VectorStorage.create_collection DemoStorage.notes Demo.storage Demo.disk).2 = Ok true /\
  VectorStorage.create_collection
    {| cc_name := "docs"; cc_dimension := 7; cc_metric := Euclidean;
       hnsw_config := Demo.config |} Demo.storage Demo.disk =
    (Demo.storage, Demo.disk, Ok false).
Proof.
  split.
  - destruct (create_collection_new map_to_list DemoStorage.bytes
                DemoStorage.notes Demo.storage Demo.disk Demo.empty)
      as [_ Hnew]; [done | reflexivity |].
    destruct (Hnew eq_refl) as [Hr _]. exact Hr.
  - destruct (create_collection_new map_to_list DemoStorage.bytes
                {| cc_name := "docs"; cc_dimension := 7; cc_metric := Euclidean;
                   hnsw_config := Demo.config |} Demo.storage Demo.disk
                {| HNSWIndex.dimension_ := 7;
                   HNSWIndex.config_ := Demo.config;
                   HNSWIndex.num_elements_ := 0;
                   HNSWIndex.next_key_ := 1;
                   HNSWIndex.index_ :=
                     ({| Flat.expansion := 1; Flat.nodes := [] |} : @index_t Flat.primitive);
                   HNSWIndex.data_ := ∅;
                   HNSWIndex.id_to_key_ := ∅ |})
      as [Hold _]; [done | reflexivity |].
    apply Hold. vm_compute. eauto.
Defined.


Lemma collections_isolated_witness :
  VectorStorage.get "docs" "a"
    (storage_run [st_create DemoStorage.notes; st_insert 0 "notes" [8; 9] "a" ∅;
                  st_delete "notes"] Demo.storage Demo.disk).1 =
  VectorStorage.get "docs" "a" Demo.storage.
Proof.
  destruct (collections_isolated
              [st_create DemoStorage.notes; st_insert 0 "notes" [8; 9] "a" ∅;
               st_delete "notes"] Demo.storage Demo.disk "docs") as [Hget _].
  - repeat constructor; discriminate.
  - apply Hget.
Defined.

Lemma create_insert_get_witness :
  exists rid : string,
    (VectorStorage.insert 0 "notes" [8; 9] "n1" Demo.tags
       (VectorStorage.create_collection DemoStorage.notes Demo.storage Demo.disk).1.1).2 =
      Ok rid /\ rid = "n1"%string.
Proof.
  destruct (create_insert_get DemoStorage.bytes DemoStorage.notes Demo.storage Demo.disk
              Demo.empty {| Flat.expansion := 1; Flat.nodes := [(1, [8; 9])] |}
              0 [8; 9] "n1" Demo.tags) as (rid & Hr & Hid & _).
  - reflexivity.
  - reflexivity.
  - reflexivity.
  - reflexivity.
  - exists rid. split; [exact Hr|]. by apply Hid.
Defined.

Lemma demo_one_keys_below_counter : keys_below_counter Demo.one.
Proof.
  apply insert_keys_below_counter; [|vm_compute; reflexivity].
  intros key. cbn. rewrite lookup_empty. by intros [? ?].
Qed.

Lemma demo_storage_configured : configured Demo.storage.
Proof.
  intros name [index Hin]. unfold Demo.storage in *. cbn in *.
  apply lookup_singleton_Some in Hin as [<- _]. rewrite lookup_singleton_eq. eauto.
Qed.

Lemma get_stats_never_throws_witness :
  VectorStorage.collection_exists "notes"
    (storage_run [st_create DemoStorage.notes; st_delete "docs"]
       Demo.storage Demo.disk).1 = true /\
  VectorStorage.collection_exists "docs"
    (storage_run [st_create DemoStorage.notes; st_delete "docs"]
       Demo.storage Demo.disk).1 = false.
Proof.
  split.
  - exact (proj2 (get_stats_never_throws DemoStorage.bytes
                    [st_create DemoStorage.notes; st_delete "docs"]
                    Demo.storage Demo.disk "notes" demo_storage_configured)).
  - exact (proj2 (get_stats_never_throws DemoStorage.bytes
                    [st_create DemoStorage.notes; st_delete "docs"]
                    Demo.storage Demo.disk "docs" demo_storage_configured)).
Defined.

(** ** Configuration files *)

(** *** Searching a text *)

Lemma prefix_cons (a b : ascii) (p s : string) :
  String.prefix (String a p) (String b s) = if Ascii.eqb a b then String.prefix p s else false.
Proof.
  cbn [String.prefix]. destruct (ascii_dec a b) as [->|Hne].
  - by rewrite Ascii.eqb_refl.
  - by destruct (Ascii.eqb_spec a b).
Qed.

Lemma prefix_nil (p : string) : String.prefix p "" = match p with "" => true | _ => false end%string.
Proof. by destruct p. Qed.

Lemma str_size_cons (c : ascii) (s : string) : str_size (String c s) = str_size s + 1.
Proof. unfold str_size. cbn [String.length]. lia. Qed.

Lemma str_size_app (a b : string) : str_size (a +:+ b) = str_size a + str_size b.
Proof.
  induction a as [|c a IH]; [done|].
  change (String c a +:+ b)%string with (String c (a +:+ b)).
  rewrite !str_size_cons, IH. lia.
Qed.

Lemma from_app (a b : string) (n : nat) :
  StdString.from (String.length a + n) (a +:+ b) = StdString.from n b.
Proof. induction a as [|c a IH]; [done|]. exact IH. Qed.

Lemma free_app (c : ascii) (a b : string) :
  ConfigText.free c (a +:+ b) = ConfigText.free c a && ConfigText.free c b.
Proof.
  induction a as [|x a IH]; [done|].
  change (String x a +:+ b)%string with (String x (a +:+ b)).
  cbn [ConfigText.free]. rewrite IH. by rewrite andb_assoc.
Qed.

(** A text without the first character of the pattern is skipped. *)
Lemma find_from_free (c : ascii) (p a rest : string) (pos : N) :
  ConfigText.free c a = true ->
  StdString.find_from (String c p) (a +:+ rest) pos =
    StdString.find_from (String c p) rest (pos + str_size a).
Proof.
  revert pos. induction a as [|x a IH]; intros pos Hfree.
  - change ("" +:+ rest)%string with rest. f_equal. unfold str_size. cbn. lia.
  - cbn [ConfigText.free] in Hfree. apply andb_true_iff in Hfree as [Hx Hfree].
    apply negb_true_iff in Hx.
    change (String x a +:+ rest)%string with (String x (a +:+ rest)).
    cbn [StdString.find_from]. rewrite prefix_cons.
    rewrite Ascii.eqb_sym, Hx. rewrite IH by done. f_equal. rewrite str_size_cons. lia.
Qed.

Lemma find_from_free_none (c : ascii) (p a : string) (pos : N) :
  ConfigText.free c a = true -> StdString.find_from (String c p) a pos = None.
Proof.
  revert pos. induction a as [|x a IH]; intros pos Hfree; [done|].
  cbn [ConfigText.free] in Hfree. apply andb_true_iff in Hfree as [Hx Hfree].
  apply negb_true_iff in Hx.
  cbn [StdString.find_from]. rewrite prefix_cons, Ascii.eqb_sym, Hx. by apply IH.
Qed.

(** A quoted key against a quoted piece. *)
Lemma prefix_key (k r s rest : string) :
  ConfigText.quote_free k = true -> ConfigText.quote_free s = true ->
  String.prefix (k +:+ String StdString.quote r) (s +:+ String StdString.quote rest) =
    String.eqb s k && String.prefix r rest.
Proof.
  unfold ConfigText.quote_free.
  revert s. induction k as [|a k IH]; intros s Hk Hs.
  - change ("" +:+ ?x)%string with x. destruct s as [|c s].
    + change ("" +:+ ?x)%string with x. by rewrite prefix_cons, Ascii.eqb_refl.
    + change (String c s +:+ ?x)%string with (String c (s +:+ x)).
      cbn [ConfigText.free] in Hs. apply andb_true_iff in Hs as [Hc _].
      apply negb_true_iff in Hc. by rewrite prefix_cons, Ascii.eqb_sym, Hc.
  - change (String a k +:+ ?x)%string with (String a (k +:+ x)).
    cbn [ConfigText.free] in Hk. apply andb_true_iff in Hk as [Ha Hk].
    apply negb_true_iff in Ha. destruct s as [|c s].
    + change ("" +:+ ?x)%string with x. by rewrite prefix_cons, Ha.
    + change (String c s +:+ ?x)%string with (String c (s +:+ x)).
      cbn [ConfigText.free] in Hs. apply andb_true_iff in Hs as [_ Hs].
      rewrite prefix_cons. cbn [String.eqb]. rewrite (Ascii.eqb_sym c a).
      destruct (Ascii.eqb a c); [|done]. by apply IH.
Qed.

Lemma prefix_key_unquoted (k r s : string) :
  ConfigText.quote_free s = true ->
  String.prefix (k +:+ String StdString.quote r) s = false.
Proof.
  unfold ConfigText.quote_free.
  revert s. induction k as [|a k IH]; intros s Hs.
  - change ("" +:+ ?x)%string with x. destruct s as [|c s]; [done|].
    cbn [ConfigText.free] in Hs. apply andb_true_iff in Hs as [Hc _].
    apply negb_true_iff in Hc. by rewrite prefix_cons, Ascii.eqb_sym, Hc.
  - change (String a k +:+ ?x)%string with (String a (k +:+ x)).
    destruct s as [|c s]; [done|].
    cbn [ConfigText.free] in Hs. apply andb_true_iff in Hs as [_ Hs].
    rewrite prefix_cons. destruct (Ascii.eqb a c); [|done]. by apply IH.
Qed.

Lemma prefix_colon_join (s : string) (more : list string) :
  String.prefix ":" (ConfigText.join (s :: more)) = ConfigText.starts_with_colon s.
Proof.
  destruct s as [|c s].
  - destruct more; reflexivity.
  - assert (Hhead : exists t, ConfigText.join (String c s :: more) = String c t).
    { destruct more; [by eexists|]. cbn [ConfigText.join].
      by eexists. }
    destruct Hhead as [t ->]. rewrite prefix_cons. cbn [ConfigText.starts_with_colon].
    rewrite (Ascii.eqb_sym ":" c). destruct (Ascii.eqb c ":"); [|done]. by destruct t.
Qed.

(** [find] on a text cut at its quotes. *)
Lemma find_from_locate (key : string) (pieces : list string) :
  ConfigText.quote_free key = true ->
  Forall (fun s => ConfigText.quote_free s = true) pieces ->
  forall pos : N,
    match ConfigText.locate key pieces pos with
    | Some (p, tail) =>
        StdString.find_from (String StdString.quote (key +:+ String StdString.quote ":"))
          (ConfigText.join pieces) pos = Some p /\
        exists a : string,
          p = pos + str_size a /\
          ConfigText.join pieces =
            (a +:+ String StdString.quote (key +:+ String StdString.quote tail))%string
    | None =>
        StdString.find_from (String StdString.quote (key +:+ String StdString.quote ":"))
          (ConfigText.join pieces) pos = None
    end.
Proof.
  intros Hkey Hall.
  induction Hall as [|s0 pieces Hs0 Hall IH]; intros pos; [done|].
  cbn [ConfigText.locate].
  destruct pieces as [|s1 pieces].
  { cbn [ConfigText.join]. by apply find_from_free_none. }
  assert (Hjoin : ConfigText.join (s0 :: s1 :: pieces) =
                  (s0 +:+ String StdString.quote (ConfigText.join (s1 :: pieces)))%string)
    by reflexivity.
  rewrite Hjoin, (find_from_free _ _ _ _ _ Hs0).
  cbn [StdString.find_from]. rewrite prefix_cons, Ascii.eqb_refl.
  apply Forall_cons in Hall as [Hs1 Hall'].
  destruct pieces as [|s2 pieces].
  { cbn [ConfigText.join]. rewrite prefix_key_unquoted by done.
    by apply find_from_free_none. }
  assert (Hjoin1 : ConfigText.join (s1 :: s2 :: pieces) =
                   (s1 +:+ String StdString.quote (ConfigText.join (s2 :: pieces)))%string)
    by reflexivity.
  assert (Hpre : String.prefix (key +:+ String StdString.quote ":")
                   (ConfigText.join (s1 :: s2 :: pieces)) =
                 String.eqb s1 key && ConfigText.starts_with_colon s2).
  { rewrite Hjoin1, prefix_key by done. by rewrite prefix_colon_join. }
  rewrite Hpre.
  specialize (IH (pos + str_size s0 + 1)).
  destruct (ConfigText.starts_with_colon s2).
  - destruct (String.eqb_spec s1 key) as [->|Hne]; cbn [andb].
    + split; [done|]. exists s0. split; [done|]. by rewrite Hjoin1.
    + destruct (ConfigText.locate key (s1 :: s2 :: pieces) _) as [[p tail]|].
      * destruct IH as [-> (a & -> & Hrest)]. split; [done|].
        exists (s0 +:+ String StdString.quote a)%string. split.
        -- rewrite str_size_app, str_size_cons. lia.
        -- rewrite Hrest. rewrite string_app_assoc. done.
      * done.
  - rewrite andb_false_r.
    destruct (ConfigText.locate key (s1 :: s2 :: pieces) _) as [[p tail]|].
    + destruct IH as [-> (a & -> & Hrest)]. split; [done|].
      exists (s0 +:+ String StdString.quote a)%string. split.
      * rewrite str_size_app, str_size_cons. lia.
      * rewrite Hrest. rewrite string_app_assoc. done.
    + done.
Qed.

Lemma locate_skip (key s0 s1 s2 : string) (rest : list string) (pos : N) :
  String.eqb s1 key = false ->
  ConfigText.locate key (s0 :: s1 :: s2 :: rest) pos =
    ConfigText.locate key (s1 :: s2 :: rest) (pos + str_size s0 + 1).
Proof. intros Hne. cbn [ConfigText.locate]. rewrite Hne. by destruct (_ s2). Qed.

Lemma locate_skip_colon (key s0 s1 s2 : string) (rest : list string) (pos : N) :
  ConfigText.starts_with_colon s2 = false ->
  ConfigText.locate key (s0 :: s1 :: s2 :: rest) pos =
    ConfigText.locate key (s1 :: s2 :: rest) (pos + str_size s0 + 1).
Proof. intros Hne. cbn [ConfigText.locate]. by rewrite Hne. Qed.

Lemma locate_hit (key s0 s2 : string) (rest : list string) (pos : N) :
  ConfigText.starts_with_colon s2 = true ->
  ConfigText.locate key (s0 :: key :: s2 :: rest) pos =
    Some (pos + str_size s0, ConfigText.join (s2 :: rest)).
Proof. intros Hc. cbn [ConfigText.locate]. by rewrite Hc, String.eqb_refl. Qed.

(** *** [extract_int] where the key stands *)

Lemma find_zero (pat s : string) : StdString.find pat s 0 = StdString.find_from pat s 0.
Proof. unfold StdString.find. by destruct (N.ltb_spec (str_size s) 0); [lia|]. Qed.

Lemma prefix_empty (s : string) : String.prefix "" s = true.
Proof. by destruct s. Qed.

Lemma extract_int_located (content a key rest : string) :
  content = (a +:+ String StdString.quote
                     (key +:+ String StdString.quote (String ":" rest)))%string ->
  StdString.find_from (String StdString.quote (key +:+ String StdString.quote ":"))
    content 0 = Some (str_size a) ->
  ConfigText.free ":" key = true ->
  str_size content < u64_modulus ->
  VectorStorage.extract_int content key = StdString.stoi rest.
Proof.
  intros Hcontent Hfind Hkey Hsize. unfold VectorStorage.extract_int.
  change (String StdString.quote "" +:+ key +:+ String StdString.quote "" +:+ ":")%string
    with (String StdString.quote (key +:+ String StdString.quote ":")).
  rewrite find_zero, Hfind.
  assert (Hlen : str_size content = str_size a + str_size key + str_size rest + 3).
  { rewrite Hcontent, str_size_app, str_size_cons, str_size_app, !str_size_cons. lia. }
  assert (Hfrom : forall n : nat,
            StdString.from (String.length a + n) content =
            StdString.from n (String StdString.quote
                                (key +:+ String StdString.quote (String ":" rest)))).
  { intros n. rewrite Hcontent. apply from_app. }
  assert (Hcolon : StdString.find ":" content (str_size a) =
                   Some (str_size a + str_size key + 2)).
  { unfold StdString.find. destruct (N.ltb_spec (str_size content) (str_size a)); [lia|].
    replace (N.to_nat (str_size a)) with (String.length a + 0)%nat
      by (unfold str_size; lia).
    rewrite Hfrom. cbn [StdString.from StdString.find_from].
    rewrite prefix_cons. change (Ascii.eqb ":" StdString.quote) with false. cbv iota.
    rewrite (find_from_free ":" "" key _ _ Hkey).
    cbn [StdString.find_from]. rewrite prefix_cons.
    change (Ascii.eqb ":" StdString.quote) with false. cbv iota.
    rewrite prefix_cons, Ascii.eqb_refl, prefix_empty. f_equal. lia. }
  rewrite Hcolon.
  assert (Hwrap : wrap64 (str_size a + str_size key + 2 + 1) = str_size a + str_size key + 3).
  { rewrite wrap64_small by lia. lia. }
  rewrite Hwrap. unfold StdString.substr.
  destruct (N.ltb_spec (str_size content) (str_size a + str_size key + 3)); [lia|].
  replace (N.to_nat (str_size a + str_size key + 3))
    with (String.length a + S (String.length key + 2))%nat by (unfold str_size; lia).
  rewrite Hfrom. cbn [StdString.from].
  rewrite (from_app key _ 2). cbn [StdString.from]. done.
Qed.

(** *** Decimal numbers read back *)

Lemma dec_digit_spec (d : N) :
  StdString.is_digit (dec_digit d) = true /\
  (d < 10 -> N_of_ascii (dec_digit d) - 48 = d).
Proof.
  unfold dec_digit.
  destruct (N.lt_ge_cases d 10) as [Hd|Hd].
  - assert (Hn : (N.to_nat d < 10)%nat) by lia.
    rewrite <- (N2Nat.id d). clear Hd.
    generalize dependent (N.to_nat d). intros n Hn. rewrite Nat2N.id.
    do 10 (destruct n as [|n]; [split; [reflexivity | intros _; reflexivity]|]). lia.
  - split; [|lia]. rewrite nth_overflow; [reflexivity | cbn; lia].
Qed.

Lemma is_digit_range (c : ascii) :
  StdString.is_digit c = true -> 48 <= N_of_ascii c <= 57.
Proof.
  unfold StdString.is_digit. cbv zeta. intros Hc.
  apply andb_true_iff in Hc as [Hlo Hhi]. apply N.leb_le in Hlo, Hhi. lia.
Qed.

Lemma digit_is_no_space (c : ascii) :
  StdString.is_digit c = true -> StdString.is_space c = false.
Proof.
  intros Hc. apply is_digit_range in Hc. unfold StdString.is_space. cbv zeta.
  destruct (N.eqb_spec (N_of_ascii c) 32); [lia|].
  destruct (N.leb_spec 9 (N_of_ascii c)); [|done].
  destruct (N.leb_spec (N_of_ascii c) 13); [lia | done].
Qed.

Lemma digit_is (c x : ascii) :
  StdString.is_digit c = true -> StdString.is_digit x = false -> Ascii.eqb c x = false.
Proof. intros Hc Hx. destruct (Ascii.eqb_spec c x) as [->|]; [congruence | done]. Qed.

Lemma dec_digits_app (fuel : nat) :
  forall (n : N) (acc rest : string),
    (dec_digits fuel n acc +:+ rest)%string = dec_digits fuel n (acc +:+ rest).
Proof.
  induction fuel as [|fuel IH]; intros n acc rest; cbn [dec_digits]; [done|].
  destruct (n <? 10); [done|]. by rewrite IH.
Qed.

Lemma dec_digits_head (fuel : nat) :
  forall (n : N) (acc : string),
    exists (c : ascii) (s : string),
      dec_digits (S fuel) n acc = String c s /\ StdString.is_digit c = true.
Proof.
  induction fuel as [|fuel IH]; intros n acc.
  - cbn [dec_digits]. destruct (n <? 10); eexists _, _; (split; [done|]);
      apply dec_digit_spec.
  - cbn [dec_digits]. destruct (n <? 10).
    + eexists _, _. split; [done|]. apply dec_digit_spec.
    + apply IH.
Qed.

Lemma dec_digits_value (fuel : nat) :
  forall (n : N) (rest : string),
    n < 10 ^ N.of_nat fuel ->
    StdString.digits_value (dec_digits fuel n rest) 0 = StdString.digits_value rest n.
Proof.
  induction fuel as [|fuel IH]; intros n rest Hn.
  - cbn in Hn. assert (n = 0) as -> by lia. done.
  - cbn [dec_digits]. destruct (N.ltb_spec n 10) as [Hsmall|Hbig].
    + cbn [StdString.digits_value].
      destruct (dec_digit_spec n) as [-> Hv]. rewrite Hv by done.
      by rewrite N.mul_0_r, N.add_0_l.
    + rewrite Nat2N.inj_succ, N.pow_succ_r' in Hn.
      rewrite IH by (apply N.Div0.div_lt_upper_bound; lia).
      cbn [StdString.digits_value].
      destruct (dec_digit_spec (n mod 10)) as [-> Hv].
      rewrite Hv by (apply N.mod_upper_bound; lia).
      pose proof (N.div_mod n 10 ltac:(lia)) as Hdm. by rewrite <- Hdm.
Qed.

Lemma dec_digits_free (c : ascii) (fuel : nat) :
  StdString.is_digit c = false ->
  forall (n : N) (acc : string),
    ConfigText.free c acc = true -> ConfigText.free c (dec_digits fuel n acc) = true.
Proof.
  intros Hc. induction fuel as [|fuel IH]; intros n acc Hacc; cbn [dec_digits]; [done|].
  destruct (n <? 10).
  - cbn [ConfigText.free]. rewrite Hacc, andb_true_r. apply negb_true_iff.
    apply digit_is; [apply dec_digit_spec | done].
  - apply IH. cbn [ConfigText.free]. rewrite Hacc, andb_true_r. apply negb_true_iff.
    apply digit_is; [apply dec_digit_spec | done].
Qed.

Lemma to_dec_free (c : ascii) (n : N) :
  StdString.is_digit c = false -> ConfigText.free c (to_dec n) = true.
Proof. intros Hc. by apply dec_digits_free. Qed.

Lemma digits_value_end (rest : string) (n : N) :
  ConfigText.number_ends rest = true -> StdString.digits_value rest n = n.
Proof.
  destruct rest as [|c rest]; [done|]. cbn [ConfigText.number_ends StdString.digits_value].
  intros Hc. apply negb_true_iff in Hc. by rewrite Hc.
Qed.

(** [stoi] on a blank, a number as [operator<<] prints it, and more
    text. *)
Lemma stoi_to_dec (n : N) (rest : string) :
  n < u64_modulus ->
  ConfigText.number_ends rest = true ->
  StdString.stoi (String " " (to_dec n +:+ rest)) =
    if n <? 2 ^ 31 then Returns (Z.of_N n) else Raises std_out_of_range.
Proof.
  intros Hn Hrest. unfold StdString.stoi.
  change (StdString.skip_spaces (String " " ?s)) with (StdString.skip_spaces s).
  unfold to_dec. rewrite wrap64_small by done. rewrite dec_digits_app.
  change ("" +:+ rest)%string with rest.
  destruct (dec_digits_head 19 n rest) as (c & s & Hhead & Hc).
  assert (Hvalue : StdString.digits_value (dec_digits 20 n rest) 0 = n).
  { rewrite dec_digits_value by (unfold u64_modulus in Hn; lia).
    by apply digits_value_end. }
  rewrite Hhead in *.
  cbn [StdString.skip_spaces]. rewrite (digit_is_no_space c Hc).
  unfold StdString.strip_sign.
  rewrite (digit_is c "-" Hc eq_refl), (digit_is c "+" Hc eq_refl).
  rewrite Hc, Hvalue.
  destruct (N.ltb_spec n (2 ^ 31)) as [Hsmall|Hbig].
  - rewrite (proj2 (andb_true_iff _ _)); [done|]. split; lia.
  - rewrite (proj2 (andb_false_iff _ _)); [done|]. right. lia.
Qed.

(** *** The text of a configuration *)

Lemma config_text_join (config : CollectionConfig) :
  VectorStorage.config_text config = ConfigText.join (ConfigText.pieces config).
Proof.
  unfold VectorStorage.config_text, ConfigText.pieces. cbv zeta.
  cbn [ConfigText.join]. rewrite !string_app_assoc. reflexivity.
Qed.

Lemma number_piece_free (v : N) (rest : string) :
  ConfigText.quote_free rest = true ->
  ConfigText.quote_free (": " +:+ to_dec v +:+ rest) = true.
Proof.
  intros Hrest. unfold ConfigText.quote_free in *.
  change (": " +:+ to_dec v +:+ rest)%string with (String ":" (String " " (to_dec v +:+ rest))).
  cbn [ConfigText.free]. change (Ascii.eqb ":" StdString.quote) with false.
  change (Ascii.eqb " " StdString.quote) with false. cbn [negb andb].
  rewrite free_app, Hrest, andb_true_r. by apply to_dec_free.
Qed.

Lemma pieces_quote_free (config : CollectionConfig) :
  ConfigText.quote_free (cc_name config) = true ->
  Forall (fun s => ConfigText.quote_free s = true) (ConfigText.pieces config).
Proof.
  intros Hname. unfold ConfigText.pieces. cbv zeta.
  repeat (apply Forall_cons; split;
          [first [reflexivity | exact Hname | by apply number_piece_free]|]).
  apply Forall_nil. done.
Qed.

Lemma extract_int_piece (key : string) (pieces : list string) (p v : N) (tail rest : string) :
  ConfigText.quote_free key = true ->
  ConfigText.free ":" key = true ->
  Forall (fun s => ConfigText.quote_free s = true) pieces ->
  ConfigText.locate key pieces 0 = Some (p, tail) ->
  tail = String ":" (String " " (to_dec v +:+ rest)) ->
  ConfigText.number_ends rest = true ->
  v < u64_modulus ->
  str_size (ConfigText.join pieces) < u64_modulus ->
  VectorStorage.extract_int (ConfigText.join pieces) key =
    if v <? 2 ^ 31 then Returns (Z.of_N v) else Raises std_out_of_range.
Proof.
  intros Hq Hc Hall Hloc -> Hrest Hv Hsize.
  pose proof (find_from_locate key pieces Hq Hall 0) as Hfind.
  rewrite Hloc in Hfind. destruct Hfind as [Hfind (a & -> & Hjoin)].
  rewrite N.add_0_l in Hfind.
  rewrite (extract_int_located _ a key _ Hjoin Hfind Hc Hsize).
  by apply stoi_to_dec.
Qed.

Ltac locate_key :=
  unfold ConfigText.pieces; cbv zeta;
  repeat first [ rewrite locate_skip by reflexivity
               | rewrite locate_skip_colon by reflexivity ];
  rewrite locate_hit by reflexivity; reflexivity.

Section ConfigFile.
Context `{USearch}.

Lemma extract_dimension (config : CollectionConfig) :
  ConfigText.quote_free (cc_name config) = true ->
  str_size (VectorStorage.config_text config) < u64_modulus ->
  cc_dimension config < u64_modulus ->
  VectorStorage.extract_int (VectorStorage.config_text config) "dimension" =
    if cc_dimension config <? 2 ^ 31 then Returns (Z.of_N (cc_dimension config))
    else Raises std_out_of_range.
Proof.
  intros Hname Hsize Hv. rewrite config_text_join in *.
  eapply extract_int_piece; [reflexivity | reflexivity | by apply pieces_quote_free
                            | locate_key | | | done | done].
  - cbn [ConfigText.join]. rewrite !string_app_assoc. reflexivity.
  - reflexivity.
Qed.

Lemma extract_metric (config : CollectionConfig) :
  ConfigText.quote_free (cc_name config) = true ->
  str_size (VectorStorage.config_text config) < u64_modulus ->
  VectorStorage.extract_int (VectorStorage.config_text config) "metric" =
    Returns (Z.of_N (VectorStorage.int_of_metric (cc_metric config))).
Proof.
  intros Hname Hsize. rewrite config_text_join in *.
  transitivity (if VectorStorage.int_of_metric (cc_metric config) <? 2 ^ 31
                then Returns (Z.of_N (VectorStorage.int_of_metric (cc_metric config)))
                else @Raises Z std_out_of_range).
  - eapply extract_int_piece; [reflexivity | reflexivity | by apply pieces_quote_free
                              | locate_key | | | | done].
    + cbn [ConfigText.join]. rewrite ?string_app_assoc. reflexivity.
    + reflexivity.
    + by destruct (cc_metric config).
  - by destruct (cc_metric config).
Qed.

Lemma extract_M (config : CollectionConfig) :
  ConfigText.quote_free (cc_name config) = true ->
  str_size (VectorStorage.config_text config) < u64_modulus ->
  M (hnsw_config config) < 2 ^ 31 ->
  VectorStorage.extract_int (VectorStorage.config_text config) "M" =
    Returns (Z.of_N (M (hnsw_config config))).
Proof.
  intros Hname Hsize Hv. rewrite config_text_join in *.
  transitivity (if M (hnsw_config config) <? 2 ^ 31
                then Returns (Z.of_N (M (hnsw_config config)))
                else @Raises Z std_out_of_range).
  - eapply extract_int_piece; [reflexivity | reflexivity | by apply pieces_quote_free
                              | locate_key | | | | done].
    + cbn [ConfigText.join]. rewrite ?string_app_assoc. reflexivity.
    + reflexivity.
    + unfold u64_modulus. lia.
  - by destruct (N.ltb_spec (M (hnsw_config config)) (2 ^ 31)); [|lia].
Qed.

Lemma extract_ef_construction (config : CollectionConfig) :
  ConfigText.quote_free (cc_name config) = true ->
  str_size (VectorStorage.config_text config) < u64_modulus ->
  ef_construction (hnsw_config config) < 2 ^ 31 ->
  VectorStorage.extract_int (VectorStorage.config_text config) "ef_construction" =
    Returns (Z.of_N (ef_construction (hnsw_config config))).
Proof.
  intros Hname Hsize Hv. rewrite config_text_join in *.
  transitivity (if ef_construction (hnsw_config config) <? 2 ^ 31
                then Returns (Z.of_N (ef_construction (hnsw_config config)))
                else @Raises Z std_out_of_range).
  - eapply extract_int_piece; [reflexivity | reflexivity | by apply pieces_quote_free
                              | locate_key | | | | done].
    + cbn [ConfigText.join]. rewrite ?string_app_assoc. reflexivity.
    + reflexivity.
    + unfold u64_modulus. lia.
  - by destruct (N.ltb_spec (ef_construction (hnsw_config config)) (2 ^ 31)); [|lia].
Qed.

Lemma extract_ef_search (config : CollectionConfig) :
  ConfigText.quote_free (cc_name config) = true ->
  str_size (VectorStorage.config_text config) < u64_modulus ->
  ef_search (hnsw_config config) < 2 ^ 31 ->
  VectorStorage.extract_int (VectorStorage.config_text config) "ef_search" =
    Returns (Z.of_N (ef_search (hnsw_config config))).
Proof.
  intros Hname Hsize Hv. rewrite config_text_join in *.
  transitivity (if ef_search (hnsw_config config) <? 2 ^ 31
                then Returns (Z.of_N (ef_search (hnsw_config config)))
                else @Raises Z std_out_of_range).
  - eapply extract_int_piece; [reflexivity | reflexivity | by apply pieces_quote_free
                              | locate_key | | | | done].
    + cbn [ConfigText.join]. rewrite ?string_app_assoc. reflexivity.
    + reflexivity.
    + unfold u64_modulus. lia.
  - by destruct (N.ltb_spec (ef_search (hnsw_config config)) (2 ^ 31)); [|lia].
Qed.

Lemma size_t_of_int_of_N (n : N) : n < u64_modulus -> size_t_of_int (Z.of_N n) = n.
Proof.
  intros Hn. unfold size_t_of_int, u64_modulus in *.
  rewrite Z.mod_small by lia. lia.
Qed.

Lemma metric_of_int_of_metric (m : DistanceMetric) :
  VectorStorage.metric_of_int (Z.of_N (VectorStorage.int_of_metric m)) = Some m.
Proof. by destruct m. Qed.

Lemma save_config_written (name : string) (st : VectorStorage.t) (fs : filesystem)
    (config : CollectionConfig) :
  VectorStorage.configs_ st !! name = Some config ->
  fs_can_write fs (VectorStorage.config_path st name) = true ->
  VectorStorage.save_config name st fs =
    (fs_put (VectorStorage.config_path st name)
       (list_byte_of_string (VectorStorage.config_text config)) fs, true).
Proof. intros Hc Hw. unfold VectorStorage.save_config. by rewrite Hc, Hw. Qed.

(** What [load_config] makes of a file with the text of [config]. *)
Lemma load_config_text (name : string) (st : VectorStorage.t) (fs : filesystem)
    (config : CollectionConfig) :
  fs_files fs !! VectorStorage.config_path st name =
    Some (list_byte_of_string (VectorStorage.config_text config)) ->
  ConfigText.quote_free (cc_name config) = true ->
  str_size (VectorStorage.config_text config) < u64_modulus ->
  cc_dimension config < 2 ^ 31 ->
  M (hnsw_config config) < 2 ^ 31 ->
  ef_construction (hnsw_config config) < 2 ^ 31 ->
  ef_search (hnsw_config config) < 2 ^ 31 ->
  VectorStorage.load_config name st fs =
    Some (Returns
            ({| VectorStorage.data_dir_ := VectorStorage.data_dir_ st;
                VectorStorage.collections_ := VectorStorage.collections_ st;
                VectorStorage.configs_ :=
                  <[name := ConfigText.reloaded name config]> (VectorStorage.configs_ st) |},
             true)).
Proof.
  intros Hfile Hname Hsize Hd Hm Hefc Hefs.
  unfold VectorStorage.load_config. rewrite Hfile, string_of_list_byte_of_string.
  rewrite extract_dimension by (try done; unfold u64_modulus; lia).
  destruct (N.ltb_spec (cc_dimension config) (2 ^ 31)) as [_|?]; [|lia].
  rewrite extract_metric, metric_of_int_of_metric by done.
  rewrite extract_M, extract_ef_construction, extract_ef_search by done.
  rewrite !size_t_of_int_of_N by (unfold u64_modulus; lia).
  reflexivity.
Qed.

(** X16: a configuration written by [save_config] is read back by
    [load_config] (into any storage on the same directory) with its
    dimension, metric, M, ef_construction and ef_search, provided the
    name holds no double quote and the four numbers are below 2^31.
    Two fields do not come back: [max_elements] is reset to 1000000
    and the index's metric becomes the collection's metric. *)
Theorem config_round_trip (name : string) (st st0 : VectorStorage.t) (fs : filesystem)
    (config : CollectionConfig) :
  VectorStorage.configs_ st !! name = Some config ->
  fs_can_write fs (VectorStorage.config_path st name) = true ->
  VectorStorage.data_dir_ st0 = VectorStorage.data_dir_ st ->
  ConfigText.quote_free (cc_name config) = true ->
  str_size (VectorStorage.config_text config) < u64_modulus ->
  cc_dimension config < 2 ^ 31 ->
  M (hnsw_config config) < 2 ^ 31 ->
  ef_construction (hnsw_config config) < 2 ^ 31 ->
  ef_search (hnsw_config config) < 2 ^ 31 ->
  let saved := VectorStorage.save_config name st fs in
  saved.2 = true /\
  VectorStorage.load_config name st0 saved.1 =
    Some (Returns
            ({| VectorStorage.data_dir_ := VectorStorage.data_dir_ st0;
                VectorStorage.collections_ := VectorStorage.collections_ st0;
                VectorStorage.configs_ :=
                  <[name := {| cc_name := name;
                               cc_dimension := cc_dimension config;
                               cc_metric := cc_metric config;
                               hnsw_config :=
                                 {| M := M (hnsw_config config);
                                    ef_construction := ef_construction (hnsw_config config);
                                    ef_search := ef_search (hnsw_config config);
                                    max_elements := 1000000;
                                    metric := cc_metric config |} |}]>
                    (VectorStorage.configs_ st0) |},
             true)).
Proof.
  intros Hc Hw Hdir Hname Hsize Hd Hm Hefc Hefs saved. subst saved.
  rewrite (save_config_written name st fs config Hc Hw). cbn [fst snd].
  split; [done|].
  apply (load_config_text name st0 _ config); try done.
  unfold VectorStorage.config_path. rewrite Hdir. unfold fs_put. cbn [fs_files].
  apply lookup_insert_eq.
Qed.

(** X17: a configuration whose dimension is 2^31 or more is written
    by [save_config] without complaint, but [load_config] cannot read
    it back: [std::stoi] throws [std::out_of_range], which nothing in
    the storage layer catches. *)
Theorem config_dimension_out_of_range (name : string) (st st0 : VectorStorage.t)
    (fs : filesystem) (config : CollectionConfig) :
  VectorStorage.configs_ st !! name = Some config ->
  fs_can_write fs (VectorStorage.config_path st name) = true ->
  VectorStorage.data_dir_ st0 = VectorStorage.data_dir_ st ->
  ConfigText.quote_free (cc_name config) = true ->
  str_size (VectorStorage.config_text config) < u64_modulus ->
  2 ^ 31 <= cc_dimension config < u64_modulus ->
  let saved := VectorStorage.save_config name st fs in
  saved.2 = true /\
  VectorStorage.load_config name st0 saved.1 = Some (Raises std_out_of_range).
Proof.
  intros Hc Hw Hdir Hname Hsize Hd saved. subst saved.
  rewrite (save_config_written name st fs config Hc Hw). cbn [fst snd].
  split; [done|].
  unfold VectorStorage.load_config, VectorStorage.config_path. rewrite Hdir.
  unfold fs_put. cbn [fs_files]. rewrite lookup_insert_eq, string_of_list_byte_of_string.
  rewrite extract_dimension by (try done; lia).
  by destruct (N.ltb_spec (cc_dimension config) (2 ^ 31)); [lia|].
Qed.

End ConfigFile.

(** ** A collection saved and loaded *)

Section CollectionFiles.
Context `{USearch}.
Variable data_order : gmap key_t VectorData -> list (key_t * VectorData).
Variable meta_order : gmap string string -> list (string * string).
Hypothesis data_order_permutation : forall m, data_order m ≡ₚ map_to_list m.
Hypothesis meta_order_permutation : forall md, meta_order md ≡ₚ map_to_list md.

Lemma index_save_files (path : string) (s : HNSWIndex.t) (fs : filesystem)
    (graph : list byte) :
  representable s ->
  us_save (HNSWIndex.index_ s) = Ok graph ->
  fs_can_write fs (path +:+ ".meta") = true ->
  HNSWIndex.save data_order meta_order path s fs =
    (fs_put (path +:+ ".meta")
       (Spec.sidecar_layout meta_order (HNSWIndex.next_key_ s)
          (data_order (HNSWIndex.data_ s)))
       (fs_put path graph fs), true).
Proof.
  intros (Hnext & Hsize & Hrecords) Hsave Hwrite.
  set (records := data_order (HNSWIndex.data_ s)).
  assert (Hfit : Forall (entry_fits) records).
  { subst records. rewrite data_order_permutation. apply map_Forall_to_list in Hrecords.
    eapply Forall_impl; [exact Hrecords|]. by intros [key d]. }
  assert (Hlen : length records = base.size (HNSWIndex.data_ s)).
  { subst records. by rewrite data_order_permutation, length_map_to_list. }
  unfold HNSWIndex.save. rewrite Hsave. cbn [fs_put fs_can_write].
  rewrite Hwrite. cbn [negb]. f_equal. f_equal.
  fold records. rewrite (save_records_layout meta_order meta_order_permutation) by done.
  unfold ofs_write, Spec.sidecar_layout, len. rewrite Hlen.
  by rewrite <- !app_assoc.
Qed.

Lemma index_load_files (path : string) (s fresh : HNSWIndex.t) (fs : filesystem)
    (graph : list byte) (index : index_t) :
  representable s ->
  consistent s ->
  fs_files fs !! path = Some graph ->
  fs_files fs !! (path +:+ ".meta") =
    Some (Spec.sidecar_layout meta_order (HNSWIndex.next_key_ s)
            (data_order (HNSWIndex.data_ s))) ->
  us_load (Some graph) (HNSWIndex.index_ fresh) = Ok index ->
  HNSWIndex.load path fs fresh =
    Some ({| HNSWIndex.dimension_ := HNSWIndex.dimension_ fresh;
             HNSWIndex.config_ := HNSWIndex.config_ fresh;
             HNSWIndex.num_elements_ := N.of_nat (base.size (HNSWIndex.data_ s));
             HNSWIndex.next_key_ := HNSWIndex.next_key_ s;
             HNSWIndex.index_ := index;
             HNSWIndex.data_ := HNSWIndex.data_ s;
             HNSWIndex.id_to_key_ := HNSWIndex.id_to_key_ s |}, true).
Proof.
  intros (Hnext & Hsize & Hrecords) Hcons Hgraph Hmeta Hload.
  set (records := data_order (HNSWIndex.data_ s)) in *.
  assert (Hfit : Forall (entry_fits) records).
  { subst records. rewrite data_order_permutation. apply map_Forall_to_list in Hrecords.
    eapply Forall_impl; [exact Hrecords|]. by intros [key d]. }
  assert (Hlen : length records = base.size (HNSWIndex.data_ s)).
  { subst records. by rewrite data_order_permutation, length_map_to_list. }
  unfold HNSWIndex.load. rewrite Hgraph, Hload, Hmeta.
  unfold Spec.sidecar_layout.
  rewrite read_u64_le_bytes by (unfold len; rewrite Hlen; done). bind_step.
  rewrite read_u64_le_bytes by done. bind_step.
  unfold len. rewrite Nat2N.id.
  rewrite <- (app_nil_r (concat _)).
  rewrite (load_records_layout meta_order meta_order_permutation) by done. bind_step.
  assert (Hback : foldl (fun (acc : gmap key_t VectorData) (e : key_t * VectorData) =>
                           <[e.1 := e.2]> acc) ∅ records = HNSWIndex.data_ s).
  { apply foldl_insert_permutation. subst records. apply data_order_permutation. }
  rewrite Hback.
  rewrite (ids_read_back s records Hcons) by (subst records; apply data_order_permutation).
  done.
Qed.

Lemma config_path_ne_collection_path (st : VectorStorage.t) (name : string) :
  VectorStorage.config_path st name <> VectorStorage.collection_path st name.
Proof.
  unfold VectorStorage.config_path, VectorStorage.collection_path. intros Heq.
  do 3 apply string_app_inv_head in Heq. discriminate.
Qed.

Lemma config_path_ne_sidecar (st : VectorStorage.t) (name : string) :
  VectorStorage.config_path st name <> (VectorStorage.collection_path st name +:+ ".meta")%string.
Proof.
  unfold VectorStorage.config_path, VectorStorage.collection_path.
  rewrite <- !string_app_assoc. apply suffix_json_meta.
Qed.

(** [load_collection] on a disk that holds the three files of a saved
    collection. *)
Lemma load_collection_files (name : string) (st0 : VectorStorage.t) (fs : filesystem)
    (s fresh : HNSWIndex.t) (config : CollectionConfig)
    (graph : list byte) (index : index_t) :
  fs_files fs !! VectorStorage.config_path st0 name =
    Some (list_byte_of_string (VectorStorage.config_text config)) ->
  fs_files fs !! VectorStorage.collection_path st0 name = Some graph ->
  fs_files fs !! (VectorStorage.collection_path st0 name +:+ ".meta") =
    Some (Spec.sidecar_layout meta_order (HNSWIndex.next_key_ s)
            (data_order (HNSWIndex.data_ s))) ->
  representable s ->
  consistent s ->
  ConfigText.quote_free (cc_name config) = true ->
  str_size (VectorStorage.config_text config) < u64_modulus ->
  cc_dimension config < 2 ^ 31 ->
  M (hnsw_config config) < 2 ^ 31 ->
  ef_construction (hnsw_config config) < 2 ^ 31 ->
  ef_search (hnsw_config config) < 2 ^ 31 ->
  HNSWIndex.create (cc_dimension config)
    {| M := M (hnsw_config config);
       ef_construction := ef_construction (hnsw_config config);
       ef_search := ef_search (hnsw_config config);
       max_elements := 1000000;
       metric := cc_metric config |} = Ok fresh ->
  us_load (Some graph) (HNSWIndex.index_ fresh) = Ok index ->
  exists (st1 : VectorStorage.t) (s1 : HNSWIndex.t),
    VectorStorage.load_collection name st0 fs = Some (Returns (st1, true)) /\
    VectorStorage.collections_ st1 !! name = Some s1 /\
    VectorStorage.configs_ st1 !! name = Some (ConfigText.reloaded name config) /\
    HNSWIndex.data_ s1 = HNSWIndex.data_ s /\
    HNSWIndex.id_to_key_ s1 = HNSWIndex.id_to_key_ s /\
    HNSWIndex.next_key_ s1 = HNSWIndex.next_key_ s /\
    HNSWIndex.num_elements_ s1 = N.of_nat (base.size (HNSWIndex.data_ s)) /\
    HNSWIndex.dimension_ s1 = cc_dimension config /\
    HNSWIndex.config_ s1 = hnsw_config (ConfigText.reloaded name config).
Proof.
  intros Hfile Hgraph Hmeta Hrep Hcons Hname Hsize Hd Hm Hefc Hefs Hfresh Hload.
  unfold VectorStorage.load_collection.
  rewrite (load_config_text name st0 fs config) by done.
  cbn [VectorStorage.configs_]. rewrite lookup_insert_eq.
  cbn [ConfigText.reloaded cc_dimension hnsw_config]. rewrite Hfresh.
  unfold VectorStorage.collection_path at 1. cbn [VectorStorage.data_dir_].
  fold (VectorStorage.collection_path st0 name).
  rewrite (index_load_files _ s fresh fs graph index) by done.
  eexists _, _. split; [reflexivity|].
  unfold VectorStorage.with_collection. cbn [VectorStorage.collections_ VectorStorage.configs_].
  rewrite !lookup_insert_eq. split; [reflexivity|]. split; [reflexivity|]. cbn.
  do 4 (split; [done|]).
  unfold HNSWIndex.create in Hfresh. destruct (us_make _ _ _); [|done].
  by injection Hfresh as <-.
Qed.


End CollectionFiles.

(** *** On the flat primitive *)

Lemma config_round_trip_witness :
  VectorStorage.load_config "docs"
    DemoStorage.blank
    (VectorStorage.save_config "docs" Demo.storage Demo.disk).1 =
  Some (Returns
          ({| VectorStorage.data_dir_ := "./data";
              VectorStorage.collections_ := VectorStorage.collections_ DemoStorage.blank;
              VectorStorage.configs_ :=
                <["docs"%string :=
                    {| cc_name := "docs"; cc_dimension := 2; cc_metric := Cosine;
                       hnsw_config :=
                         {| M := 16; ef_construction := 200; ef_search := 1;
                            max_elements := 1000000; metric := Cosine |} |}]> ∅ |},
           true)).
Proof.
  refine (proj2 (config_round_trip "docs" Demo.storage
                   DemoStorage.blank
                   Demo.disk
                   {| cc_name := "docs"; cc_dimension := 2; cc_metric := Cosine;
                      hnsw_config := Demo.config |} _ _ _ _ _ _ _ _ _));
    vm_compute; reflexivity.
Defined.

Lemma config_dimension_out_of_range_witness :
  VectorStorage.load_config "wide" DemoStorage.wide
    (VectorStorage.save_config "wide" DemoStorage.wide Demo.disk).1 =
  Some (Raises std_out_of_range).
Proof.
  refine (proj2 (config_dimension_out_of_range "wide" DemoStorage.wide DemoStorage.wide
                   Demo.disk
                   {| cc_name := "wide"; cc_dimension := 2 ^ 31; cc_metric := Cosine;
                      hnsw_config := Demo.config |} _ _ _ _ _ _)).
  - vm_compute. reflexivity.
  - reflexivity.
  - reflexivity.
  - reflexivity.
  - vm_compute. reflexivity.
  - split; vm_compute; [discriminate | reflexivity].
Defined.


(** ** Tenants and namespaces *)

(** X19: the collection name of a tenant's namespace identifies
    tenant and namespace only if tenant ids hold no underscore.  Two
    tenant ids without underscore never share a collection; but the
    tenant [t] with the namespace [x__n] and the tenant [t__x] with the
    namespace [n] are given the same collection. *)
Theorem make_collection_name_shared (t x n : string) :
  (t +:+ "__" +:+ x)%string <> t /\
  HTTPServer.make_collection_name (t +:+ "__" +:+ x) n =
    HTTPServer.make_collection_name t (x +:+ "__" +:+ n) /\
  forall t1 n1 t2 n2 : string,
    ConfigText.free "_" t1 = true ->
    ConfigText.free "_" t2 = true ->
    HTTPServer.make_collection_name t1 n1 = HTTPServer.make_collection_name t2 n2 ->
    t1 = t2 /\ n1 = n2.
Proof.
  split; [by apply string_append_ne|]. split.
  { unfold HTTPServer.make_collection_name. by rewrite !string_app_assoc. }
  unfold HTTPServer.make_collection_name.
  induction t1 as [|c1 t1 IH]; intros n1 t2 n2 H1 H2 Heq.
  - change ("" +:+ "__" +:+ n1)%string with (String "_" (String "_" n1)) in Heq.
    destruct t2 as [|c2 t2].
    + change ("" +:+ "__" +:+ n2)%string with (String "_" (String "_" n2)) in Heq.
      by injection Heq as ->.
    + change (String c2 t2 +:+ ?r)%string with (String c2 (t2 +:+ r)) in Heq.
      cbn [ConfigText.free] in H2. apply andb_true_iff in H2 as [Hc2 _].
      injection Heq as <- _. done.
  - change (String c1 t1 +:+ ?r)%string with (String c1 (t1 +:+ r)) in Heq.
    cbn [ConfigText.free] in H1. apply andb_true_iff in H1 as [Hc1 H1].
    destruct t2 as [|c2 t2].
    + change ("" +:+ "__" +:+ n2)%string with (String "_" (String "_" n2)) in Heq.
      injection Heq as -> _. done.
    + change (String c2 t2 +:+ ?r)%string with (String c2 (t2 +:+ r)) in Heq.
      cbn [ConfigText.free] in H2. apply andb_true_iff in H2 as [_ H2].
      injection Heq as -> Heq. destruct (IH n1 t2 n2 H1 H2 Heq) as [-> ->]. done.
Qed.

Lemma make_collection_name_shared_witness :
  HTTPServer.make_collection_name ("a" +:+ "__" +:+ "b") "c" =
    HTTPServer.make_collection_name "a" ("b" +:+ "__" +:+ "c") /\
  ("acme"%string = "acme"%string /\ "faq"%string = "faq"%string).
Proof.
  split.
  - exact (proj1 (proj2 (make_collection_name_shared "a" "b" "c"))).
  - apply (proj2 (proj2 (make_collection_name_shared "a" "b" "c")) "acme" "faq" "acme" "faq")%string;
      reflexivity.
Defined.

(** ** Ids repeated within a batch *)

Section BatchIds.
Context `{USearch}.

Lemma insert_dimension_kept (now : Z) (v : list float) (id : string)
    (md : gmap string string) (s : HNSWIndex.t) :
  HNSWIndex.dimension_ (HNSWIndex.insert now v id md s).1 = HNSWIndex.dimension_ s.
Proof.
  unfold HNSWIndex.insert. destruct (negb _); [done|].
  destruct (decide _); [done|]. by destruct (us_add _ _ _).
Qed.

Lemma insert_Throw_maps (now : Z) (v : list float) (id : string)
    (md : gmap string string) (s s' : HNSWIndex.t) (e : exn) :
  HNSWIndex.insert now v id md s = (s', Throw e) ->
  HNSWIndex.data_ s' = HNSWIndex.data_ s /\
  HNSWIndex.id_to_key_ s' = HNSWIndex.id_to_key_ s.
Proof.
  unfold HNSWIndex.insert. destruct (negb _); [by intros [= <- _]|].
  destruct (decide _); [by intros [= <- _]|].
  destruct (us_add _ _ _); [done|]. by intros [= <- _].
Qed.

(** An insert under another id leaves a stored id as it reads, and an
    insert under the stored id itself is rejected. *)
Lemma insert_keeps_stored (now : Z) (v : list float) (id' : string)
    (md : gmap string string) (s : HNSWIndex.t) (id : string) (d : VectorData) :
  consistent s -> keys_below_counter s ->
  id' <> ""%string ->
  HNSWIndex.get id s = Some d ->
  HNSWIndex.get id (HNSWIndex.insert now v id' md s).1 = Some d.
Proof.
  intros Hc Hk Hid Hget.
  destruct (HNSWIndex.insert now v id' md s) as [s1 [rid|e]] eqn:Hi; cbn [fst].
  - rewrite (insert_Ok_get_other now v id' md s s1 rid Hc Hk Hi); [done|].
    apply insert_Ok_inv in Hi as (_ & _ & Hfree & _). intros ->.
    unfold HNSWIndex.get in Hget. by rewrite Hfree in Hget.
  - apply insert_Throw_maps in Hi as [Hdata Hids].
    unfold HNSWIndex.get in *. by rewrite Hids, Hdata.
Qed.

Lemma insert_keeps_unmapped (now : Z) (v : list float) (id' : string)
    (md : gmap string string) (s : HNSWIndex.t) (id : string) :
  id' <> ""%string -> id' <> id ->
  HNSWIndex.id_to_key_ s !! id = None ->
  HNSWIndex.id_to_key_ (HNSWIndex.insert now v id' md s).1 !! id = None.
Proof.
  intros Hid Hne Hfree.
  destruct (HNSWIndex.insert now v id' md s) as [s1 [rid|e]] eqn:Hi; cbn [fst].
  - apply insert_Ok_inv in Hi as (_ & Hrid & _ & _ & Hids & _).
    rewrite actual_id_supplied in Hrid by done. subst rid.
    by rewrite Hids, lookup_insert_ne.
  - apply insert_Throw_maps in Hi as [_ Hids]. by rewrite Hids.
Qed.

Lemma batch_insert_from_app (clock : nat -> Z) (l1 l2 : list VectorData) :
  forall (i : nat) (count : N) (s : HNSWIndex.t),
    HNSWIndex.batch_insert_from clock i (l1 ++ l2) count s =
      HNSWIndex.batch_insert_from clock (i + length l1) l2
        (HNSWIndex.batch_insert_from clock i l1 count s).2
        (HNSWIndex.batch_insert_from clock i l1 count s).1.
Proof.
  induction l1 as [|v l1 IH]; intros i count s; cbn [app HNSWIndex.batch_insert_from length].
  - by rewrite Nat.add_0_r.
  - destruct (HNSWIndex.insert _ _ _ _ s) as [s1 [rid|e]]; rewrite IH;
      by replace (S i + length l1)%nat with (i + S (length l1))%nat by lia.
Qed.

(** What a batch keeps. *)
Lemma batch_insert_from_keeps (clock : nat -> Z) (vectors : list VectorData) :
  forall (i : nat) (count : N) (s : HNSWIndex.t),
    consistent s -> keys_below_counter s ->
    HNSWIndex.next_key_ s + len vectors < u64_modulus ->
    Forall (fun x => vd_id x <> ""%string) vectors ->
    let s' := (HNSWIndex.batch_insert_from clock i vectors count s).1 in
    consistent s' /\ keys_below_counter s' /\
    HNSWIndex.next_key_ s' <= HNSWIndex.next_key_ s + len vectors /\
    HNSWIndex.dimension_ s' = HNSWIndex.dimension_ s /\
    (forall id d, HNSWIndex.get id s = Some d -> HNSWIndex.get id s' = Some d) /\
    (forall id, Forall (fun x => vd_id x <> id) vectors ->
                HNSWIndex.id_to_key_ s !! id = None ->
                HNSWIndex.id_to_key_ s' !! id = None).
Proof.
  unfold len.
  induction vectors as [|v vectors IH]; intros i count s Hc Hk Hn Hids;
    cbn [HNSWIndex.batch_insert_from length] in *.
  - cbn. split; [done|]. split; [done|]. split; [lia|]. done.
  - apply Forall_cons in Hids as [Hid Hids].
    pose proof (insert_consistent (clock i) (vd_values v) (vd_id v) (vd_metadata v) s Hc
                  (keys_below_counter_fresh s Hk)) as Hc1.
    pose proof (insert_keys_below_counter (clock i) (vd_values v) (vd_id v) (vd_metadata v) s
                  Hk ltac:(lia)) as Hk1.
    pose proof (insert_next_key (clock i) (vd_values v) (vd_id v) (vd_metadata v) s
                  ltac:(lia)) as Hn1.
    pose proof (insert_dimension_kept (clock i) (vd_values v) (vd_id v) (vd_metadata v) s)
      as Hd1.
    pose proof (fun id d => insert_keeps_stored (clock i) (vd_values v) (vd_id v)
                              (vd_metadata v) s id d Hc Hk Hid) as Hkeep.
    pose proof (fun id => insert_keeps_unmapped (clock i) (vd_values v) (vd_id v)
                            (vd_metadata v) s id Hid) as Hfree.
    destruct (HNSWIndex.insert _ _ _ _ s) as [s1 r]. cbn [fst] in *.
    assert (Hstep : forall count',
              let s' := (HNSWIndex.batch_insert_from clock (S i) vectors count' s1).1 in
              consistent s' /\ keys_below_counter s' /\
              HNSWIndex.next_key_ s' <= HNSWIndex.next_key_ s + N.of_nat (S (length vectors)) /\
              HNSWIndex.dimension_ s' = HNSWIndex.dimension_ s /\
              (forall id d, HNSWIndex.get id s = Some d -> HNSWIndex.get id s' = Some d) /\
              (forall id, Forall (fun x => vd_id x <> id) (v :: vectors) ->
                          HNSWIndex.id_to_key_ s !! id = None ->
                          HNSWIndex.id_to_key_ s' !! id = None)).
    { intros count'.
      destruct (IH (S i) count' s1 Hc1 Hk1 ltac:(lia) Hids)
        as (Hc2 & Hk2 & Hn2 & Hd2 & Hkeep2 & Hfree2).
      split; [done|]. split; [done|]. split; [lia|]. split; [congruence|]. split.
      - intros id d Hget. apply Hkeep2. by apply Hkeep.
      - intros id Hall Hnone. apply Forall_cons in Hall as [Hv Hall].
        apply Hfree2; [done|]. by apply Hfree. }
    destruct r; apply Hstep.
Qed.


End BatchIds.


(** ** save_all and a restart *)

Lemma string_length_app (a b : string) :
  String.length (a +:+ b) = (String.length a + String.length b)%nat.
Proof.
  induction a as [|c a IH]; [done|].
  change (String c a +:+ b)%string with (String c (a +:+ b)). cbn [String.length].
  by rewrite IH.
Qed.

Lemma string_app_inj_tail (a b x y : string) :
  String.length x = String.length y -> (a +:+ x = b +:+ y)%string -> a = b /\ x = y.
Proof.
  revert b. induction a as [|c a IH]; intros b Hlen Heq; destruct b as [|c' b].
  - done.
  - change ("" +:+ x)%string with x in Heq. subst x.
    rewrite string_length_app in Hlen. cbn [String.length] in Hlen. lia.
  - change ("" +:+ y)%string with y in Heq. subst y.
    rewrite string_length_app in Hlen. cbn [String.length] in Hlen. lia.
  - change (String c a +:+ x)%string with (String c (a +:+ x)) in Heq.
    change (String c' b +:+ y)%string with (String c' (b +:+ y)) in Heq.
    injection Heq as -> Heq. destruct (IH b Hlen Heq) as [-> ->]. done.
Qed.

Section Paths.
Context `{USearch}.
Variable st : VectorStorage.t.

Local Abbreviation graph_file n := (VectorStorage.collection_path st n).
Local Abbreviation sidecar_file n := (VectorStorage.collection_path st n +:+ ".meta")%string.
Local Abbreviation config_file n := (VectorStorage.config_path st n).

Ltac tail_apart Heq :=
  unfold VectorStorage.collection_path, VectorStorage.config_path in Heq;
  rewrite <- !string_app_assoc in Heq;
  repeat (apply string_app_inj_tail in Heq as [Heq ?]; [|reflexivity]);
  try discriminate;
  try (apply string_app_inv_head in Heq; done).

Lemma graph_file_inj (n n' : string) : graph_file n = graph_file n' -> n = n'.
Proof. intros Heq. tail_apart Heq. Qed.

Lemma config_file_inj (n n' : string) : config_file n = config_file n' -> n = n'.
Proof. intros Heq. tail_apart Heq. Qed.

Lemma sidecar_file_inj (n n' : string) : sidecar_file n = sidecar_file n' -> n = n'.
Proof. intros Heq. tail_apart Heq. Qed.

Lemma graph_file_ne_sidecar (n n' : string) : graph_file n <> sidecar_file n'.
Proof. intros Heq. tail_apart Heq. Qed.

Lemma graph_file_ne_config (n n' : string) : graph_file n <> config_file n'.
Proof. intros Heq. tail_apart Heq. Qed.

Lemma sidecar_file_ne_config (n n' : string) : sidecar_file n <> config_file n'.
Proof. intros Heq. tail_apart Heq. Qed.

End Paths.

Section SaveAll.
Context `{USearch}.
Variable data_order : gmap key_t VectorData -> list (key_t * VectorData).
Variable meta_order : gmap string string -> list (string * string).
Variable collections_order : gmap string HNSWIndex.t -> list (string * HNSWIndex.t).
Hypothesis data_order_permutation : forall m, data_order m ≡ₚ map_to_list m.
Hypothesis meta_order_permutation : forall md, meta_order md ≡ₚ map_to_list md.
Hypothesis collections_order_permutation : forall m, collections_order m ≡ₚ map_to_list m.

Variables (st : VectorStorage.t) (fs : filesystem).

(** Every collection can be saved: its name is a plain file name, so
    that its files are its own; its sizes fit, the primitive saves it,
    its two text files can be opened, and it has a configuration that
    [load_config] can read. *)
Hypothesis savable :
  forall (name : string) (s : HNSWIndex.t),
    VectorStorage.collections_ st !! name = Some s ->
    plain_name name = true /\
    representable s /\
    is_ok (us_save (HNSWIndex.index_ s)) = true /\
    fs_can_write fs (VectorStorage.collection_path st name +:+ ".meta") = true /\
    fs_can_write fs (VectorStorage.config_path st name) = true /\
    exists config : CollectionConfig,
      VectorStorage.configs_ st !! name = Some config /\
      ConfigText.quote_free (cc_name config) = true /\
      str_size (VectorStorage.config_text config) < u64_modulus /\
      cc_dimension config < 2 ^ 31 /\
      M (hnsw_config config) < 2 ^ 31 /\
      ef_construction (hnsw_config config) < 2 ^ 31 /\
      ef_search (hnsw_config config) < 2 ^ 31.

Local Abbreviation step :=
  (fun (acc : filesystem * bool) (name : string) =>
     let '(fs, a) := VectorStorage.save_collection data_order meta_order name st acc.1 in
     let '(fs, b) := VectorStorage.save_config name st fs in
     (fs, acc.2 && a && b)).

(** The files of every collection written so far. *)
Lemma save_all_files (names : list string) :
  NoDup names ->
  (forall n, n ∈ names -> is_Some (VectorStorage.collections_ st !! n)) ->
  (foldl step (fs, true) names).2 = true /\
  fs_can_write (foldl step (fs, true) names).1 = fs_can_write fs /\
  forall (n : string) (s : HNSWIndex.t) (config : CollectionConfig) (graph : list byte),
    n ∈ names ->
    VectorStorage.collections_ st !! n = Some s ->
    VectorStorage.configs_ st !! n = Some config ->
    us_save (HNSWIndex.index_ s) = Ok graph ->
    fs_files (foldl step (fs, true) names).1 !! VectorStorage.config_path st n =
      Some (list_byte_of_string (VectorStorage.config_text config)) /\
    fs_files (foldl step (fs, true) names).1 !! VectorStorage.collection_path st n =
      Some graph /\
    fs_files (foldl step (fs, true) names).1
      !! (VectorStorage.collection_path st n +:+ ".meta") =
      Some (Spec.sidecar_layout meta_order (HNSWIndex.next_key_ s)
              (data_order (HNSWIndex.data_ s))).
Proof.
  induction names as [|name names IH] using rev_ind; intros Hnd Hin.
  { cbn. split; [done|]. split; [done|]. intros n s config graph Hn.
    by apply elem_of_nil in Hn. }
  apply NoDup_app in Hnd as (Hnd & Hfresh & _).
  destruct IH as (Hok & Hwrite & Hfiles);
    [done | intros n Hn; apply Hin; apply elem_of_app; by left |].
  rewrite foldl_snoc.
  destruct (foldl step (fs, true) names) as [fs0 ok0]. cbn [fst snd] in *. subst ok0.
  destruct (Hin name ltac:(apply elem_of_app; right; apply list_elem_of_here)) as [s0 Hs0].
  destruct (savable name s0 Hs0) as (_ & Hrep & Hsave & Hwm & Hwc & config0 & Hc0 & _).
  destruct (us_save (HNSWIndex.index_ s0)) as [graph0|] eqn:Hg0; [|done].
  unfold VectorStorage.save_collection. rewrite Hs0.
  rewrite (index_save_files data_order meta_order data_order_permutation
             meta_order_permutation _ s0 fs0 graph0 Hrep Hg0) by (by rewrite Hwrite).
  rewrite (save_config_written name st _ config0 Hc0) by (cbn; by rewrite Hwrite).
  cbn [fst snd andb]. split; [done|]. split; [done|].
  intros n s config graph Hn Hs Hc Hg. unfold fs_put. cbn [fs_files].
  apply elem_of_app in Hn as [Hn|Hn].
  - assert (Hne : n <> name) by (intros ->; by apply (Hfresh name Hn), list_elem_of_here).
    destruct (Hfiles n s config graph Hn Hs Hc Hg) as (Hf1 & Hf2 & Hf3).
    split; [|split].
    + rewrite lookup_insert_ne by (intros Heq; by apply config_file_inj in Heq).
      rewrite lookup_insert_ne by apply sidecar_file_ne_config.
      by rewrite lookup_insert_ne by apply graph_file_ne_config.
    + rewrite lookup_insert_ne by (intros Heq; symmetry in Heq; by apply graph_file_ne_config in Heq).
      rewrite lookup_insert_ne by (intros Heq; symmetry in Heq; by apply graph_file_ne_sidecar in Heq).
      by rewrite lookup_insert_ne by (intros Heq; by apply graph_file_inj in Heq).
    + rewrite lookup_insert_ne by (intros Heq; symmetry in Heq; by apply sidecar_file_ne_config in Heq).
      rewrite lookup_insert_ne by (intros Heq; by apply sidecar_file_inj in Heq).
      by rewrite lookup_insert_ne by apply graph_file_ne_sidecar.
  - apply list_elem_of_singleton in Hn as ->.
    rewrite Hs in Hs0. injection Hs0 as <-. rewrite Hc in Hc0. injection Hc0 as <-.
    rewrite Hg in Hg0. injection Hg0 as <-.
    split; [|split].
    + apply lookup_insert_eq.
    + rewrite lookup_insert_ne by (intros Heq; symmetry in Heq; by apply graph_file_ne_config in Heq).
      rewrite lookup_insert_ne by (intros Heq; symmetry in Heq; by apply graph_file_ne_sidecar in Heq).
      apply lookup_insert_eq.
    + rewrite lookup_insert_ne by (intros Heq; symmetry in Heq; by apply sidecar_file_ne_config in Heq).
      apply lookup_insert_eq.
Qed.

(** X21: for a storage whose collection names are plain file names (no
    slash and no NUL, in a directory whose path has no NUL: different
    names are then different files) and whose collections can all be
    saved, [save_all] returns true, and after it every collection can be
    brought back: [load_collection], called by a storage started on the
    same directory, returns true and yields a collection with the
    records, the ids, the key counter and the configured dimension of
    the saved one, so that [get] answers for every id as it did before
    the restart.  Names with a slash are left out: such a name can name
    the files of another collection, and the later save then replaces
    the earlier. *)
Theorem save_all_restores :
  ConfigText.free "000" (VectorStorage.data_dir_ st) = true ->
  (VectorStorage.save_all data_order meta_order collections_order st fs).2 = true /\
  forall (name : string) (s fresh : HNSWIndex.t) (config : CollectionConfig)
         (st0 : VectorStorage.t) (graph : list byte) (index : index_t),
    VectorStorage.collections_ st !! name = Some s ->
    VectorStorage.configs_ st !! name = Some config ->
    consistent s ->
    VectorStorage.data_dir_ st0 = VectorStorage.data_dir_ st ->
    us_save (HNSWIndex.index_ s) = Ok graph ->
    HNSWIndex.create (cc_dimension config)
      {| M := M (hnsw_config config);
         ef_construction := ef_construction (hnsw_config config);
         ef_search := ef_search (hnsw_config config);
         max_elements := 1000000;
         metric := cc_metric config |} = Ok fresh ->
    us_load (Some graph) (HNSWIndex.index_ fresh) = Ok index ->
    exists (st1 : VectorStorage.t) (s1 : HNSWIndex.t),
      VectorStorage.load_collection name st0
        (VectorStorage.save_all data_order meta_order collections_order st fs).1 =
        Some (Returns (st1, true)) /\
      VectorStorage.collections_ st1 !! name = Some s1 /\
      HNSWIndex.data_ s1 = HNSWIndex.data_ s /\
      HNSWIndex.id_to_key_ s1 = HNSWIndex.id_to_key_ s /\
      HNSWIndex.next_key_ s1 = HNSWIndex.next_key_ s /\
      HNSWIndex.num_elements_ s1 = N.of_nat (base.size (HNSWIndex.data_ s)) /\
      HNSWIndex.dimension_ s1 = cc_dimension config /\
      forall id : string, VectorStorage.get name id st1 = VectorStorage.get name id st.
Proof.
  intros _. unfold VectorStorage.save_all.
  set (names := map fst (collections_order (VectorStorage.collections_ st))).
  assert (Hnames : names ≡ₚ (map_to_list (VectorStorage.collections_ st)).*1).
  { subst names. change (map fst ?l) with (l.*1). by rewrite collections_order_permutation. }
  assert (Hnd : NoDup names) by (rewrite Hnames; apply NoDup_fst_map_to_list).
  assert (Hin : forall n, n ∈ names <-> is_Some (VectorStorage.collections_ st !! n)).
  { intros n. rewrite Hnames, list_elem_of_fmap. split.
    - intros ([n' s] & -> & Hs). apply elem_of_map_to_list in Hs. eauto.
    - intros [s Hs]. exists (n, s). split; [done|]. by apply elem_of_map_to_list. }
  destruct (save_all_files names Hnd (fun n Hn => proj1 (Hin n) Hn)) as (Hok & _ & Hfiles).
  split; [exact Hok|].
  intros name s fresh config st0 graph index Hs Hc Hcons Hdir Hg Hfresh Hload.
  destruct (Hfiles name s config graph (proj2 (Hin name) ltac:(eauto)) Hs Hc Hg)
    as (Hf1 & Hf2 & Hf3).
  destruct (savable name s Hs) as (_ & Hrep & _ & _ & _ & config' & Hc' & Hq & Hsize & Hd
                                   & Hm & Hefc & Hefs).
  rewrite Hc in Hc'. injection Hc' as <-.
  assert (Hpaths : VectorStorage.collection_path st0 name = VectorStorage.collection_path st name
                   /\ VectorStorage.config_path st0 name = VectorStorage.config_path st name).
  { unfold VectorStorage.collection_path, VectorStorage.config_path. by rewrite Hdir. }
  destruct Hpaths as [Hcoll Hcfg]. rewrite <- Hcfg in Hf1. rewrite <- Hcoll in Hf2, Hf3.
  destruct (load_collection_files data_order meta_order data_order_permutation
              meta_order_permutation name st0 _ s fresh config graph index
              Hf1 Hf2 Hf3 Hrep Hcons Hq Hsize Hd Hm Hefc Hefs Hfresh Hload)
    as (st1 & s1 & Hl & Hs1 & _ & Hdata & Hids & Hnext & Hnum & Hdim & _).
  exists st1, s1. do 7 (split; [done|]).
  intros id. unfold VectorStorage.get, HNSWIndex.get. by rewrite Hs1, Hs, Hdata, Hids.
Qed.

End SaveAll.

Lemma demo_storage_savable (name : string) (s : @HNSWIndex.t Flat.primitive) :
  VectorStorage.collections_ Demo.storage !! name = Some s ->
  plain_name name = true /\
  representable s /\
  is_ok (us_save (HNSWIndex.index_ s)) = true /\
  fs_can_write Demo.disk (VectorStorage.collection_path Demo.storage name +:+ ".meta") = true /\
  fs_can_write Demo.disk (VectorStorage.config_path Demo.storage name) = true /\
  exists config : CollectionConfig,
    VectorStorage.configs_ Demo.storage !! name = Some config /\
    ConfigText.quote_free (cc_name config) = true /\
    str_size (VectorStorage.config_text config) < u64_modulus /\
    cc_dimension config < 2 ^ 31 /\
    M (hnsw_config config) < 2 ^ 31 /\
    ef_construction (hnsw_config config) < 2 ^ 31 /\
    ef_search (hnsw_config config) < 2 ^ 31.
Proof.
  unfold Demo.storage. cbn [VectorStorage.collections_ VectorStorage.configs_].
  intros [<- <-]%lookup_singleton_Some.
  split; [reflexivity|].
  split; [exact demo_one_representable|]. split; [reflexivity|].
  split; [reflexivity|]. split; [reflexivity|].
  eexists. split; [apply lookup_singleton_eq|].
  split; [reflexivity|]. split; [vm_compute; reflexivity|].
  split; [vm_compute; reflexivity|]. split; [vm_compute; reflexivity|].
  split; vm_compute; reflexivity.
Qed.

Lemma save_all_restores_witness :
  (VectorStorage.save_all map_to_list map_to_list map_to_list Demo.storage Demo.disk).2 = true /\
  exists st1 : VectorStorage.t,
    VectorStorage.load_collection "docs" DemoStorage.blank
      (VectorStorage.save_all map_to_list map_to_list map_to_list Demo.storage Demo.disk).1 =
      Some (Returns (st1, true)) /\
    VectorStorage.get "docs" "a" st1 = VectorStorage.get "docs" "a" Demo.storage.
Proof.
  destruct (@save_all_restores Flat.primitive map_to_list map_to_list map_to_list
              (fun _ => reflexivity _) (fun _ => reflexivity _) (fun _ => reflexivity _)
              Demo.storage Demo.disk demo_storage_savable) as [Hok Hload].
  { reflexivity. }
  split; [exact Hok|].
  edestruct (Hload "docs"%string Demo.one) as (st1 & s1 & Hl & _ & _ & _ & _ & _ & _ & Hget).
  - reflexivity.
  - reflexivity.
  - exact demo_one_consistent.
  - reflexivity.
  - vm_compute. reflexivity.
  - reflexivity.
  - vm_compute. reflexivity.
  - exists st1. split; [exact Hl | apply Hget].
Defined.

(** ** A save that fails half way *)

Section TornSnapshot.
Context `{USearch}.
Variable data_order : gmap key_t VectorData -> list (key_t * VectorData).
Variable meta_order : gmap string string -> list (string * string).
Hypothesis data_order_permutation : forall m, data_order m ≡ₚ map_to_list m.
Hypothesis meta_order_permutation : forall md, meta_order md ≡ₚ map_to_list md.


End TornSnapshot.


(** ** Configuration files without the keys *)

Section ConfigWithoutKeys.
Context `{USearch}.

Lemma extract_int_without_key (content key : string) :
  ConfigText.quote_free content = true ->
  VectorStorage.extract_int content key = Returns 0%Z.
Proof.
  intros Hfree. unfold VectorStorage.extract_int.
  change (String StdString.quote "" +:+ key +:+ String StdString.quote "" +:+ ":")%string
    with (String StdString.quote (key +:+ String StdString.quote ":")).
  rewrite find_zero. by rewrite find_from_free_none.
Qed.

(** X23: [load_config] does not check that the file has the keys it
    looks for.  A configuration file without any double quote (an empty
    file, say) is accepted: the call returns true and registers a
    configuration of dimension 0 with the Euclidean metric and M,
    ef_construction and ef_search all 0.  Only a missing file makes it
    return false, leaving the storage as it was. *)
Theorem load_config_without_keys (name : string) (st : VectorStorage.t) (fs : filesystem) :
  (fs_files fs !! VectorStorage.config_path st name = None ->
   VectorStorage.load_config name st fs = Some (Returns (st, false))) /\
  (forall bytes : list byte,
     fs_files fs !! VectorStorage.config_path st name = Some bytes ->
     ConfigText.quote_free (string_of_list_byte bytes) = true ->
     VectorStorage.load_config name st fs =
       Some (Returns
               ({| VectorStorage.data_dir_ := VectorStorage.data_dir_ st;
                   VectorStorage.collections_ := VectorStorage.collections_ st;
                   VectorStorage.configs_ :=
                     <[name := {| cc_name := name; cc_dimension := 0; cc_metric := Euclidean;
                                  hnsw_config :=
                                    {| M := 0; ef_construction := 0; ef_search := 0;
                                       max_elements := 1000000;
                                       metric := Euclidean |} |}]>
                       (VectorStorage.configs_ st) |},
                true))).
Proof.
  unfold VectorStorage.load_config. split.
  - by intros ->.
  - intros bytes -> Hfree. by rewrite !extract_int_without_key by done.
Qed.

End ConfigWithoutKeys.

(** An empty configuration file. *)
Lemma load_config_without_keys_witness :
  VectorStorage.load_config "docs" DemoStorage.blank
    {| fs_files := {[ "./data/docs.json"%string := [] ]}; fs_can_write := fun _ => true |} =
  Some (Returns
          ({| VectorStorage.data_dir_ := "./data";
              VectorStorage.collections_ := VectorStorage.collections_ DemoStorage.blank;
              VectorStorage.configs_ :=
                <["docs"%string :=
                    {| cc_name := "docs"; cc_dimension := 0; cc_metric := Euclidean;
                       hnsw_config :=
                         {| M := 0; ef_construction := 0; ef_search := 0;
                            max_elements := 1000000; metric := Euclidean |} |}]>
                  (VectorStorage.configs_ DemoStorage.blank) |},
           true)).
Proof.
  apply (proj2 (load_config_without_keys "docs" DemoStorage.blank
                  {| fs_files := {[ "./data/docs.json"%string := [] ]};
                     fs_can_write := fun _ => true |}) []); reflexivity.
Defined.

(** ** The index configuration across a restart *)

Section Reconfigured.
Context `{USearch}.
Variable data_order : gmap key_t VectorData -> list (key_t * VectorData).
Variable meta_order : gmap string string -> list (string * string).
Hypothesis data_order_permutation : forall m, data_order m ≡ₚ map_to_list m.
Hypothesis meta_order_permutation : forall md, meta_order md ≡ₚ map_to_list md.

Lemma created_representable (dimension : N) (config : HNSWConfig) (index : HNSWIndex.t) :
  HNSWIndex.create dimension config = Ok index ->
  representable index /\ consistent index /\ HNSWIndex.config_ index = config.
Proof.
  intros Hnew. destruct (create_invariants _ _ _ Hnew) as (Hc & _ & _).
  unfold HNSWIndex.create in Hnew. destruct (us_make _ _ _); [|done].
  injection Hnew as <-. split; [|done].
  split; [done|]. split; [cbn; by rewrite map_size_empty|]. apply map_Forall_empty.
Qed.

(** The primitive of a collection that [load_collection] has loaded. *)
Lemma load_collection_primitive (name : string) (st0 : VectorStorage.t) (fs : filesystem)
    (s fresh : HNSWIndex.t) (config : CollectionConfig)
    (graph : list byte) (index : index_t) :
  fs_files fs !! VectorStorage.config_path st0 name =
    Some (list_byte_of_string (VectorStorage.config_text config)) ->
  fs_files fs !! VectorStorage.collection_path st0 name = Some graph ->
  fs_files fs !! (VectorStorage.collection_path st0 name +:+ ".meta") =
    Some (Spec.sidecar_layout meta_order (HNSWIndex.next_key_ s)
            (data_order (HNSWIndex.data_ s))) ->
  representable s ->
  consistent s ->
  ConfigText.quote_free (cc_name config) = true ->
  str_size (VectorStorage.config_text config) < u64_modulus ->
  cc_dimension config < 2 ^ 31 ->
  M (hnsw_config config) < 2 ^ 31 ->
  ef_construction (hnsw_config config) < 2 ^ 31 ->
  ef_search (hnsw_config config) < 2 ^ 31 ->
  HNSWIndex.create (cc_dimension config)
    {| M := M (hnsw_config config);
       ef_construction := ef_construction (hnsw_config config);
       ef_search := ef_search (hnsw_config config);
       max_elements := 1000000;
       metric := cc_metric config |} = Ok fresh ->
  us_load (Some graph) (HNSWIndex.index_ fresh) = Ok index ->
  exists (st1 : VectorStorage.t) (s1 : HNSWIndex.t),
    VectorStorage.load_collection name st0 fs = Some (Returns (st1, true)) /\
    VectorStorage.collections_ st1 !! name = Some s1 /\
    HNSWIndex.index_ s1 = index.
Proof.
  intros Hfile Hgraph Hmeta Hrep Hcons Hname Hsize Hd Hm Hefc Hefs Hfresh Hload.
  unfold VectorStorage.load_collection.
  rewrite (load_config_text name st0 fs config) by done.
  cbn [VectorStorage.configs_]. rewrite lookup_insert_eq.
  cbn [ConfigText.reloaded cc_dimension hnsw_config]. rewrite Hfresh.
  unfold VectorStorage.collection_path at 1. cbn [VectorStorage.data_dir_].
  fold (VectorStorage.collection_path st0 name).
  rewrite (index_load_files data_order meta_order data_order_permutation
             meta_order_permutation _ s fresh fs graph index) by done.
  eexists _, _. split; [reflexivity|].
  unfold VectorStorage.with_collection. cbn [VectorStorage.collections_].
  rewrite lookup_insert_eq. split; reflexivity.
Qed.


End Reconfigured.


(** ** Failed inserts and missing hardware threads *)

Section Edges.
Context `{USearch}.

(** X25: an insert that throws, for whatever reason, adds, removes
    and alters no record: the payload store, the id map, the graph
    primitive and [size()] are as before, and [get] answers as before.
    The one thing a failed insert can change is the key counter: when
    it is the primitive that throws, the key has been consumed. *)
Theorem insert_failure_keeps_records (now : Z) (v : list float) (id : string)
    (md : gmap string string) (s s' : HNSWIndex.t) (e : exn) :
  HNSWIndex.insert now v id md s = (s', Throw e) ->
  HNSWIndex.data_ s' = HNSWIndex.data_ s /\
  HNSWIndex.id_to_key_ s' = HNSWIndex.id_to_key_ s /\
  HNSWIndex.index_ s' = HNSWIndex.index_ s /\
  HNSWIndex.size s' = HNSWIndex.size s /\
  (forall other : string, HNSWIndex.get other s' = HNSWIndex.get other s) /\
  (HNSWIndex.next_key_ s' = HNSWIndex.next_key_ s \/
   HNSWIndex.next_key_ s' = u64_succ (HNSWIndex.next_key_ s) /\
   us_add (HNSWIndex.next_key_ s) v (HNSWIndex.index_ s) = Throw e).
Proof.
  unfold HNSWIndex.insert.
  destruct (negb _).
  { intros [= <- _]. repeat split; auto. }
  destruct (decide _).
  { intros [= <- _]. repeat split; auto. }
  destruct (us_add _ _ _) as [g|e'] eqn:Hadd; [done|].
  intros [= <- <-]. cbn. do 4 (split; [done|]). split; [done|]. right. done.
Qed.

(** X26: with more than 100 queries on a platform whose
    [hardware_concurrency()] reports 0, the parallel path of
    [batch_search] computes its chunk size by a division by zero, in
    the index and through the storage alike, even for an empty index;
    up to 100 queries the reported thread count plays no part. *)
Theorem batch_search_without_hardware_threads
    (interleave : list (list (nat * list HNSWResult)) -> list (nat * list HNSWResult))
    (collection : string) (queries : list (list float)) (k ef : N)
    (st : VectorStorage.t) (index : HNSWIndex.t) :
  VectorStorage.collections_ st !! collection = Some index ->
  (100 < len queries ->
   HNSWIndex.batch_search 0 interleave queries k ef index = None /\
   VectorStorage.batch_search 0 interleave collection queries k ef st = None) /\
  (len queries <= 100 ->
   forall hardware_concurrency : N,
     VectorStorage.batch_search hardware_concurrency interleave collection queries k ef st =
       VectorStorage.batch_search 0 interleave collection queries k ef st).
Proof.
  intros Hc. unfold VectorStorage.batch_search. rewrite Hc.
  unfold HNSWIndex.batch_search. split.
  - intros Hn. destruct (N.leb_spec (len queries) 100); [lia|].
    by rewrite N.min_0_l.
  - intros Hn hw. by destruct (N.leb_spec (len queries) 100); [|lia].
Qed.

End Edges.

Lemma insert_failure_keeps_records_witness :
  HNSWIndex.data_ (HNSWIndex.insert 0 [9; 9] "a" ∅ Demo.one).1 = HNSWIndex.data_ Demo.one /\
  HNSWIndex.size (HNSWIndex.insert 0 [9; 9] "a" ∅ Demo.one).1 = HNSWIndex.size Demo.one.
Proof.
  destruct (insert_failure_keeps_records 0 [9; 9] "a" ∅ Demo.one
              (HNSWIndex.insert 0 [9; 9] "a" ∅ Demo.one).1
              (duplicate_error "a")) as (Hdata & _ & _ & Hsize & _).
  - vm_compute. reflexivity.
  - split; [exact Hdata | exact Hsize].
Defined.

Lemma batch_search_without_hardware_threads_witness :
  HNSWIndex.batch_search 0 (fun ws => concat ws) (replicate 101 [1; 2]) 1 0 Demo.one = None /\
  VectorStorage.batch_search 0 (fun ws => concat ws) "docs" (replicate 101 [1; 2]) 1 0
    Demo.storage = None.
Proof.
  apply (proj1 (batch_search_without_hardware_threads (fun ws => concat ws) "docs"
                  (replicate 101 [1; 2]) 1 0 Demo.storage Demo.one eq_refl)).
  vm_compute. reflexivity.
Defined.
